(** * Structure inference of the PDF analyzer

    A shallow embedding of [PDFAnalyzer._analyze_with_pymupdf] and
    [PDFAnalyzer._add_content] (src/pdfplumber.py): the pass that reads the
    spans, image blocks and tables of a document page by page and builds the
    tree of sections, subsections and content items.

    Conventions of the embedding.
    - A Python [str] is the list of its Unicode code points.
    - A font size is a binary64 float; the flags of a span are an integer.
    - The dictionaries the pass builds have fixed keys and are records.
    - [current_section] and [current_subsection] are references to
      dictionaries that sit in the tree; here they are the positions of these
      nodes in the tree.  The lists of the tree only ever grow at their end,
      so a position names the same node for the whole pass, and a change made
      through a reference is a change of the tree at that position.
    - A list index that Python would refuse is [Raise IndexError]. *)

From Stdlib Require Import ZArith NArith List Bool String Ascii Lia DecimalString.
From Stdlib Require Import Floats.PrimFloat.
From Stdlib Require DecimalFacts DecimalPos DecimalZ.
From stdpp Require Import base option list gmap.

(** ** Python strings *)

Definition str := list N.

(** An ASCII literal of the source. *)
Definition lit (s : string) : str := map N_of_ascii (list_ascii_of_string s).

(** [str.isspace] on one code point: the characters [str.strip()] removes. *)
Definition isspace (c : N) : bool :=
  ((9 <=? c) && (c <=? 13) || (28 <=? c) && (c <=? 31) || (c =? 32)
   || (c =? 133) || (c =? 160) || (c =? 5760)
   || (8192 <=? c) && (c <=? 8202) || (c =? 8232) || (c =? 8233)
   || (c =? 8239) || (c =? 8287) || (c =? 12288))%N.

Fixpoint lstrip (s : str) : str :=
  match s with
  | [] => []
  | c :: s' => if isspace c then lstrip s' else s
  end.

Definition rstrip (s : str) : str := rev (lstrip (rev s)).

(** [s.strip()] *)
Definition strip (s : str) : str := rstrip (lstrip s).

(** [s.split(sep)] for a separator of one character; the result is never
    empty. *)
Fixpoint split (sep : N) (s : str) : list str :=
  match s with
  | [] => [[]]
  | c :: s' =>
      if (c =? sep)%N then [] :: split sep s'
      else match split sep s' with
           | w :: ws => (c :: w) :: ws
           | [] => [[c]]
           end
  end.

(** [str(n)] for an integer, as an f-string prints it. *)
Definition str_of_Z (n : Z) : str := lit (NilZero.string_of_int (Z.to_int n)).

(** Truth value of a string, a list, an integer. *)
Definition nonempty {A} (l : list A) : bool :=
  match l with [] => false | _ => true end.

Definition truthy (n : Z) : bool := negb (n =? 0)%Z.

(** ** Outcomes *)

Inductive exn := IndexError | BadReference.

Inductive result (A : Type) : Type :=
| Ok (a : A)
| Raise (e : exn).
Arguments Ok {A} a.
Arguments Raise {A} e.

#[global] Instance result_ret : MRet result := fun A a => Ok a.
#[global] Instance result_bind : MBind result := fun A B f m =>
  match m with
  | Ok a => f a
  | Raise e => Raise e
  end.

(** [for x in l: s = f x s], stopping at the first exception. *)
Fixpoint for_each {A St} (f : A -> St -> result St) (l : list A) (s : St)
  : result St :=
  match l with
  | [] => Ok s
  | a :: l' => s' ← f a s; for_each f l' s'
  end.

(** [for i, x in enumerate(l)], counting from [i]. *)
Fixpoint for_enumerate {A St} (f : nat -> A -> St -> result St)
    (i : nat) (l : list A) (s : St) : result St :=
  match l with
  | [] => Ok s
  | a :: l' => s' ← f i a s; for_enumerate f (S i) l' s'
  end.

(** ** What the backend hands over *)

(** A span of [page.get_text("dict")]: keys [text], [size], [flags]. *)
Record span := { span_text : str; span_size : float; span_flags : Z }.

(** A block: [type] 0 carries lines of spans, [type] 1 is an image;
    [width] and [height] are read with [block.get(_, 0)]. *)
Record block := {
  block_type : Z;
  block_lines : list (list span);
  block_width : option Z;
  block_height : option Z
}.

(** A page: the text of [page.get_text()], the blocks of
    [page.get_text("dict")], and for each table of [page.find_tables()] the
    rows of [table.extract()], whose cells are strings or [None]. *)
Record page := {
  page_text : str;
  page_blocks : list block;
  page_tables : list (list (list (option str)))
}.

(** A document: the three metadata entries the pass reads, and the pages.
    For the title, [None] stands for a missing key or a [None] value: the
    pass treats both as no title.  For the author and the subject, [None]
    stands for a [None] value only; a missing key gives the default of
    [doc.metadata.get], the empty string, which is [Some []]. *)
Record document := {
  meta_title : option str;
  meta_author : option str;
  meta_subject : option str;
  pages : list page
}.

(** ** The tree *)

Record table_data := { caption : str; headers : list str; rows : list (list str) }.

Record image_data := { description : str; position : str }.

(** An entry of a [content] list: a string, a [{"type": "table", ...}]
    dictionary, or an [{"image": {...}}] dictionary. *)
Inductive content_item :=
| Paragraph (text : str)
| Table (t : table_data)
| Image (i : image_data).

Record subsection := { sub_title : str; content : list content_item }.

Record section := { title : str; subsections : list subsection }.

Record metadata := {
  num_pages : nat;
  author : option str;
  subject : option str;
  extraction_date : str;
  extraction_method : str
}.

Record structure := {
  doc_title : str;
  doc_metadata : metadata;
  doc_sections : list section
}.

(** The state of the loop: [structure["sections"]] and the two references. *)
Record state := {
  sections : list section;
  current_section : option nat;
  current_subsection : option (nat * nat)
}.

Definition initial : state :=
  {| sections := []; current_section := None; current_subsection := None |}.

(** ** [_add_content] *)

Definition append_content (c : content_item) (sub : subsection) : subsection :=
  {| sub_title := sub_title sub; content := content sub ++ [c] |}.

Definition with_subsections (f : list subsection -> list subsection)
    (sec : section) : section :=
  {| title := title sec; subsections := f (subsections sec) |}.

(** [l[-1] = f(l[-1])] *)
Definition alter_last {A} (f : A -> A) (l : list A) : list A :=
  alter f (pred (length l)) l.

Definition default_subsection : subsection :=
  {| sub_title := lit "Contenu"; content := [] |}.

Definition default_section : section :=
  {| title := lit "Contenu principal";
     subsections := [ {| sub_title := lit "Introduction"; content := [] |} ] |}.

(** [section["subsections"][-1]["content"].append(content)], after the
    default subsection was added to an empty list. *)
Definition add_to_section (c : content_item) (sec : section) : section :=
  let subs :=
    if nonempty (subsections sec) then subsections sec
    else subsections sec ++ [default_subsection] in
  {| title := title sec; subsections := alter_last (append_content c) subs |}.

Definition _add_content (c : content_item) (secs : list section)
    (section_ref : option nat) (subsection_ref : option (nat * nat))
  : result (list section) :=
  match subsection_ref with
  | Some (i, j) =>
      match secs !! i with
      | Some sec =>
          match subsections sec !! j with
          | Some _ =>
              Ok (alter (with_subsections (alter (append_content c) j)) i secs)
          | None => Raise BadReference
          end
      | None => Raise BadReference
      end
  | None =>
      match section_ref with
      | Some i =>
          match secs !! i with
          | Some _ => Ok (alter (add_to_section c) i secs)
          | None => Raise BadReference
          end
      | None =>
          let secs' := if nonempty secs then secs else secs ++ [default_section] in
          match last secs' with
          | None => Raise IndexError
          | Some sec =>
              match last (subsections sec) with
              | None => Raise IndexError
              | Some _ =>
                  Ok (alter_last
                        (with_subsections (alter_last (append_content c))) secs')
              end
          end
      end
  end.

Arguments _add_content : simpl never.

(** The call [self._add_content(c, structure, current_section,
    current_subsection)] inside the loop: the references are passed by
    value and stay as they are. *)
Definition add_content_here (c : content_item) (st : state) : result state :=
  secs ← _add_content c (sections st) (current_section st) (current_subsection st);
  Ok {| sections := secs;
        current_section := current_section st;
        current_subsection := current_subsection st |}.

(** ** The loop body of [_analyze_with_pymupdf] *)

(** [x > y] on floats; the integer constants of the source are exact. *)
Definition gt (x y : float) : bool := PrimFloat.ltb y x.

(** [font_size > 16 or (is_bold and font_size > 12)] *)
Definition section_level (font_size : float) (is_bold : Z) : bool :=
  gt font_size 16 || (truthy is_bold && gt font_size 12).

(** [font_size > 14 or (is_bold and font_size > 11)] *)
Definition subsection_level (font_size : float) (is_bold : Z) : bool :=
  gt font_size 14 || (truthy is_bold && gt font_size 11).

(** The first branch: a new section is appended and becomes current. *)
Definition open_section (text : str) (st : state) : state :=
  {| sections := sections st ++ [ {| title := text; subsections := [] |} ];
     current_section := Some (length (sections st));
     current_subsection := None |}.

(** The second branch: a new subsection is appended to the current section
    and becomes current. *)
Definition open_subsection (text : str) (st : state) : result state :=
  match current_section st with
  | Some i =>
      match sections st !! i with
      | Some sec =>
          Ok {| sections :=
                  alter (with_subsections
                           (fun subs => subs ++ [ {| sub_title := text; content := [] |} ]))
                        i (sections st);
                current_section := Some i;
                current_subsection := Some (i, length (subsections sec)) |}
      | None => Raise BadReference
      end
  | None => Raise BadReference
  end.

(** The body of [for span in line["spans"]].  In [... and current_section]
    the reference is tested for truth: a section dictionary has two keys and
    is true, so the test is whether the reference is set. *)
Definition process_span (sp : span) (st : state) : result state :=
  let text := strip (span_text sp) in
  if negb (nonempty text) then Ok st
  else
    let font_size := span_size sp in
    let font_flags := span_flags sp in
    let is_bold := Z.land font_flags (2 ^ 4) in
    if section_level font_size is_bold then Ok (open_section text st)
    else if subsection_level font_size is_bold
            && bool_decide (is_Some (current_section st))
    then open_subsection text st
    else add_content_here (Paragraph text) st.

(** The dictionary built for an image block. *)
Definition image_info (page_num : nat) (b : block) : content_item :=
  Image
    {| description :=
         lit "Image d" ++ [233%N] ++ lit "tect" ++ [233%N] ++ lit "e (dimensions: "
         ++ str_of_Z (default 0%Z (block_width b)) ++ lit "x"
         ++ str_of_Z (default 0%Z (block_height b)) ++ lit ")";
       position := lit "page " ++ str_of_Z (Z.of_nat page_num + 1) |}.

(** The body of [for block in blocks["blocks"]]. *)
Definition process_block (page_num : nat) (b : block) (st : state) : result state :=
  if (block_type b =? 0)%Z then
    for_each (fun line st => for_each process_span line st) (block_lines b) st
  else if (block_type b =? 1)%Z then
    add_content_here (image_info page_num b) st
  else Ok st.

(** [str(cell) if cell else ""] *)
Definition cell_str (cell : option str) : str :=
  match cell with
  | Some s => if nonempty s then s else []
  | None => []
  end.

(** The body of [for row in table.extract()]. *)
Definition add_row (t : table_data) (row : list (option str)) : table_data :=
  if negb (nonempty (headers t)) then
    {| caption := caption t; headers := map cell_str row; rows := rows t |}
  else
    {| caption := caption t; headers := headers t;
       rows := rows t ++ [map cell_str row] |}.

Definition make_table_data (page_num table_num : nat)
    (extract : list (list (option str))) : content_item :=
  Table
    (fold_left add_row extract
       {| caption :=
            lit "Tableau " ++ str_of_Z (Z.of_nat table_num + 1) ++ lit " - Page "
            ++ str_of_Z (Z.of_nat page_num + 1);
          headers := [];
          rows := [] |}).

(** The body of [for page_num, page in enumerate(doc)]. *)
Definition process_page (page_num : nat) (p : page) (st : state) : result state :=
  st' ← for_each (process_block page_num) (page_blocks p) st;
  for_enumerate
    (fun table_num extract st =>
       add_content_here (make_table_data page_num table_num extract) st)
    0 (page_tables p) st'.

(** Lines 82 to 86: the title. [doc[0]] raises on a document without
    pages. *)
Definition resolve_title (doc : document) : result str :=
  let title := default [] (meta_title doc) in
  if negb (nonempty title) then
    match pages doc with
    | [] => Raise IndexError
    | first_page :: _ =>
        let first_text := take 100 (page_text first_page) in
        Ok (if nonempty first_text
            then match split 10 first_text with
                 | w :: _ => w
                 | [] => []
                 end
            else lit "Document sans titre")
    end
  else Ok title.

(** The whole function; [now] is [datetime.now().isoformat()]. *)
Definition _analyze_with_pymupdf (now : str) (doc : document) : result structure :=
  title ← resolve_title doc;
  st ← for_enumerate process_page 0 (pages doc) initial;
  Ok {| doc_title := title;
        doc_metadata :=
          {| num_pages := length (pages doc);
             author := meta_author doc;
             subject := meta_subject doc;
             extraction_date := now;
             extraction_method := lit "PyMuPDF" |};
        doc_sections := sections st |}.

(** ** The pass as one stream of primitives

    The nested loops visit, page after page, the spans and image blocks of
    the page in block order and then its tables.  Each visit is one step on
    the state: a text run goes through the three-way classification, an
    image or a table goes straight to [_add_content]. *)

Inductive primitive :=
| TextRun (sp : span)
| Item (c : content_item).

Definition step (p : primitive) (st : state) : result state :=
  match p with
  | TextRun sp => process_span sp st
  | Item c => add_content_here c st
  end.

Definition infer_from (ps : list primitive) (st : state) : result state :=
  for_each step ps st.

Definition infer (ps : list primitive) : result state := infer_from ps initial.

Definition primitives_of_block (page_num : nat) (b : block) : list primitive :=
  if (block_type b =? 0)%Z then map TextRun (concat (block_lines b))
  else if (block_type b =? 1)%Z then [Item (image_info page_num b)]
  else [].

Definition primitives_of_page (page_num : nat) (p : page) : list primitive :=
  flat_map (primitives_of_block page_num) (page_blocks p)
  ++ imap (fun table_num extract => Item (make_table_data page_num table_num extract))
       (page_tables p).

Fixpoint primitives_from (page_num : nat) (pgs : list page) : list primitive :=
  match pgs with
  | [] => []
  | p :: pgs' => primitives_of_page page_num p ++ primitives_from (S page_num) pgs'
  end.

Definition primitives_of (doc : document) : list primitive :=
  primitives_from 0 (pages doc).

(** ** What the pass is expected to build

    The definitions below do not follow the loop.  They read the stream as a
    whole: each primitive is classified on its own, the stream is cut at its
    section headings, each section body is cut at its subsection headings,
    and the tree is assembled from the pieces.  The pass is then shown to
    build exactly this tree. *)

(** What a primitive is, taken alone. *)
Inductive kind :=
| Blank
| SectionHeading (text : str)
| SubsectionLevel (text : str)
| Body (c : content_item).

Definition classify (p : primitive) : kind :=
  match p with
  | Item c => Body c
  | TextRun sp =>
      let text := strip (span_text sp) in
      let is_bold := Z.land (span_flags sp) (2 ^ 4) in
      if negb (nonempty text) then Blank
      else if section_level (span_size sp) is_bold then SectionHeading text
      else if subsection_level (span_size sp) is_bold then SubsectionLevel text
      else Body (Paragraph text)
  end.

Definition section_heading (p : primitive) : option str :=
  match classify p with
  | SectionHeading t => Some t
  | _ => None
  end.

Definition subsection_heading (p : primitive) : option str :=
  match classify p with
  | SubsectionLevel t => Some t
  | _ => None
  end.

(** The content item a primitive leaves behind when it opens nothing. *)
Definition content_of (p : primitive) : option content_item :=
  match classify p with
  | Body c => Some c
  | SubsectionLevel t => Some (Paragraph t)
  | _ => None
  end.

Definition contents (ps : list primitive) : list content_item := omap content_of ps.

(** Cut a stream at its headings: what precedes the first heading, then
    each heading with what follows it up to the next one. *)
Fixpoint cut {A H} (heading : A -> option H) (l : list A)
  : list A * list (H * list A) :=
  match l with
  | [] => ([], [])
  | a :: l' =>
      let '(pre, gs) := cut heading l' in
      match heading a with
      | Some h => ([], (h, pre) :: gs)
      | None => (a :: pre, gs)
      end
  end.

(** The subsections of a section whose heading is followed by [body]. *)
Definition expected_subsections (body : list primitive) : list subsection :=
  let '(pre, gs) := cut subsection_heading body in
  (if nonempty (contents pre)
   then [ {| sub_title := lit "Contenu"; content := contents pre |} ]
   else [])
  ++ map (fun g => {| sub_title := g.1; content := contents g.2 |}) gs.

(** The section that holds what precedes the first section heading. *)
Definition orphan_sections (pre : list primitive) : list section :=
  if nonempty (contents pre)
  then [ {| title := lit "Contenu principal";
            subsections :=
              [ {| sub_title := lit "Introduction"; content := contents pre |} ] |} ]
  else [].

Definition expected_sections (ps : list primitive) : list section :=
  let '(pre, gs) := cut section_heading ps in
  orphan_sections pre
  ++ map (fun g => {| title := g.1; subsections := expected_subsections g.2 |}) gs.

(** Where the two references stand after the stream: at the last section
    opened by a heading, and at its last subsection opened by a heading. *)
Definition expected_section_ref (ps : list primitive) : option nat :=
  if nonempty (cut section_heading ps).2
  then Some (pred (length (expected_sections ps)))
  else None.

Definition expected_subsection_ref (ps : list primitive) : option (nat * nat) :=
  match last (cut section_heading ps).2 with
  | Some g =>
      if nonempty (cut subsection_heading g.2).2
      then Some (pred (length (expected_sections ps)),
                 pred (length (expected_subsections g.2)))
      else None
  | None => None
  end.

Definition expected_state (ps : list primitive) : state :=
  {| sections := expected_sections ps;
     current_section := expected_section_ref ps;
     current_subsection := expected_subsection_ref ps |}.

(** The titles of the section headings of a stream, in stream order. *)
Definition section_headings (ps : list primitive) : list str :=
  omap section_heading ps.

Definition subsection_headings (body : list primitive) : list str :=
  omap subsection_heading body.

(** [s] up to its first line break. *)
Fixpoint first_line (s : str) : str :=
  match s with
  | [] => []
  | c :: s' => if (c =? 10)%N then [] else c :: first_line s'
  end.

(** Append [l] to the body of the last group. *)
Definition extend_last {A H} (gs : list (H * list A)) (l : list A)
  : list (H * list A) :=
  alter_last (fun g => (g.1, g.2 ++ l)) gs.

(** The section a heading and its body make. *)
Definition section_of (g : str * list primitive) : section :=
  {| title := g.1; subsections := expected_subsections g.2 |}.
(** ** The persisted form

    [download_json] hands the structure to [json.dumps(data,
    ensure_ascii=False, indent=2)].  The dictionaries, lists, strings and
    integers of the structure are JSON values; [to_json] below is the value
    the code builds, key by key.  [dumps] and [loads] model the two
    functions of Python's [json] module on such values: the source calls the
    first, and the second is how the file is read back.  Floats are not
    modelled (the structure holds none): [loads] gives [None] on a number
    with a fraction or an exponent. *)

Module Json.

#[local] Unset Elimination Schemes.
Inductive value :=
| Null
| Bool (b : bool)
| Int (n : Z)
| String (s : str)
| Array (l : list value)
| Object (m : list (str * value)).
#[local] Set Elimination Schemes.

(** *** [dumps] *)

Definition hex_digit (n : N) : N := (if n <? 10 then 48 + n else 87 + n)%N.

(** One character of a string: a quote, a backslash and the control
    characters are escaped, everything else is written as it is. *)
Definition escape_char (c : N) : str :=
  (if c =? 34 then [92; 34]
   else if c =? 92 then [92; 92]
   else if c =? 10 then [92; 110]
   else if c =? 13 then [92; 114]
   else if c =? 9 then [92; 116]
   else if c =? 8 then [92; 98]
   else if c =? 12 then [92; 102]
   else if c <? 32 then [92; 117; 48; 48; hex_digit (c / 16); hex_digit (c mod 16)]
   else [c])%N.

Definition dump_string (s : str) : str :=
  [34%N] ++ flat_map escape_char s ++ [34%N].

(** A line break and the indentation of [level]. *)
Definition newline_indent (level : nat) : str := 10%N :: repeat 32%N (2 * level).

(** The items of a list or dictionary, one per line. *)
Fixpoint dump_items (level : nat) (items : list str) : str :=
  match items with
  | [] => []
  | [x] => x
  | x :: rest => x ++ [44%N] ++ newline_indent level ++ dump_items level rest
  end.

Definition dump_block (level : nat) (opening closing : N) (items : list str) : str :=
  match items with
  | [] => [opening; closing]
  | _ => [opening] ++ newline_indent (S level) ++ dump_items (S level) items
         ++ newline_indent level ++ [closing]
  end.

Fixpoint dump (level : nat) (v : value) : str :=
  match v with
  | Null => lit "null"
  | Bool true => lit "true"
  | Bool false => lit "false"
  | Int n => str_of_Z n
  | String s => dump_string s
  | Array l => dump_block level 91 93 (map (dump (S level)) l)
  | Object m =>
      dump_block level 123 125
        (map (fun kv => dump_string kv.1 ++ lit ": " ++ dump (S level) kv.2) m)
  end.

Definition dumps (v : value) : str := dump 0 v.

(** *** [loads] *)

Definition is_ws (c : N) : bool := ((c =? 32) || (c =? 9) || (c =? 10) || (c =? 13))%N.

Fixpoint skip_ws (s : str) : str :=
  match s with
  | c :: s' => if is_ws c then skip_ws s' else s
  | [] => []
  end.

Definition is_digit (c : N) : bool := ((48 <=? c) && (c <=? 57))%N.

Definition hex_value (c : N) : option N :=
  (if (48 <=? c) && (c <=? 57) then Some (c - 48)
   else if (97 <=? c) && (c <=? 102) then Some (c - 87)
   else if (65 <=? c) && (c <=? 70) then Some (c - 55)
   else None)%N.

Definition hex4 (a b c d : N) : option N :=
  va ← hex_value a; vb ← hex_value b; vc ← hex_value c; vd ← hex_value d;
  Some (((va * 16 + vb) * 16 + vc) * 16 + vd)%N.

(** The character a one-letter escape stands for. *)
Definition unescape (e : N) : option N :=
  (if e =? 34 then Some 34
   else if e =? 92 then Some 92
   else if e =? 47 then Some 47
   else if e =? 98 then Some 8
   else if e =? 102 then Some 12
   else if e =? 110 then Some 10
   else if e =? 114 then Some 13
   else if e =? 116 then Some 9
   else None)%N.

(** A low surrogate escape right after a high surrogate escape makes one
    character with it. *)
Definition low_surrogate (s : str) : option (N * str) :=
  match s with
  | b :: u :: a2 :: b2 :: c2 :: d2 :: r =>
      if ((b =? 92) && (u =? 117))%N then
        match hex4 a2 b2 c2 d2 with
        | Some u2 => if ((56320 <=? u2) && (u2 <=? 57343))%N then Some (u2, r) else None
        | None => None
        end
      else None
  | _ => None
  end.

(** The text of a string, from after its opening quote to its closing
    quote.  [fuel] bounds the number of characters read. *)
Fixpoint scan_string (fuel : nat) (s : str) : option (str * str) :=
  match fuel with
  | 0 => None
  | S fuel =>
      match s with
      | [] => None
      | c :: r =>
          if (c =? 34)%N then Some ([], r)
          else if (c =? 92)%N then
            match r with
            | [] => None
            | e :: r' =>
                if (e =? 117)%N then
                  match r' with
                  | a :: b :: c' :: d :: r'' =>
                      match hex4 a b c' d with
                      | Some u =>
                          let '(ch, r3) :=
                            if ((55296 <=? u) && (u <=? 56319))%N then
                              match low_surrogate r'' with
                              | Some (u2, r5) =>
                                  (65536 + ((u - 55296) * 1024 + (u2 - 56320)), r5)%N
                              | None => (u, r'')
                              end
                            else (u, r'') in
                          '(t, rest) ← scan_string fuel r3; Some (ch :: t, rest)
                      | None => None
                      end
                  | _ => None
                  end
                else
                  match unescape e with
                  | Some ch => '(t, rest) ← scan_string fuel r'; Some (ch :: t, rest)
                  | None => None
                  end
            end
          else if (c <? 32)%N then None
          else '(t, rest) ← scan_string fuel r; Some (c :: t, rest)
      end
  end.

Definition digit_of (c : N) (u : Decimal.uint) : Decimal.uint :=
  (if c =? 48 then Decimal.D0 u else if c =? 49 then Decimal.D1 u
   else if c =? 50 then Decimal.D2 u else if c =? 51 then Decimal.D3 u
   else if c =? 52 then Decimal.D4 u else if c =? 53 then Decimal.D5 u
   else if c =? 54 then Decimal.D6 u else if c =? 55 then Decimal.D7 u
   else if c =? 56 then Decimal.D8 u else Decimal.D9 u)%N.

Fixpoint scan_digits (s : str) : Decimal.uint * str :=
  match s with
  | c :: r =>
      if is_digit c then let '(u, r') := scan_digits r in (digit_of c u, r')
      else (Decimal.Nil, s)
  | [] => (Decimal.Nil, [])
  end.

(** What may not follow the digits of an integer. *)
Definition float_follows (s : str) : bool :=
  match s with
  | c :: _ => ((c =? 46) || (c =? 101) || (c =? 69))%N
  | [] => false
  end.

(** An integer: a sign, then a lone zero or digits that start with another
    digit. *)
Definition scan_int (s : str) : option (Z * str) :=
  let '(negative, s1) :=
    match s with
    | c :: r => if (c =? 45)%N then (true, r) else (false, s)
    | [] => (false, s)
    end in
  let '(u, r) :=
    match s1 with
    | c :: r => if (c =? 48)%N then (Decimal.D0 Decimal.Nil, r) else scan_digits s1
    | [] => (Decimal.Nil, s1)
    end in
  match u with
  | Decimal.Nil => None
  | _ =>
      if float_follows r then None
      else Some (Z.of_int (if negative then Decimal.Neg u else Decimal.Pos u), r)
  end.

(** [s] without the prefix [p], when it starts with it. *)
Fixpoint after (p s : str) : option str :=
  match p, s with
  | [], _ => Some s
  | a :: p', b :: s' => if (a =? b)%N then after p' s' else None
  | _ :: _, [] => None
  end.

(** What the parser is after: a value, the elements of a list after its
    bracket, the members of a dictionary after its brace. *)
Inductive goal := GValue | GElements | GMembers.

Inductive parsed :=
| PValue (v : value)
| PElements (l : list value)
| PMembers (m : list (str * value)).

Fixpoint parse (fuel : nat) (g : goal) (s : str) : option (parsed * str) :=
  match fuel with
  | 0 => None
  | S fuel =>
      match g with
      | GValue =>
          match skip_ws s with
          | [] => None
          | c :: r =>
              if (c =? 34)%N then
                '(t, r') ← scan_string (length r) r; Some (PValue (String t), r')
              else if (c =? 123)%N then
                match skip_ws r with
                | c' :: r' =>
                    if (c' =? 125)%N then Some (PValue (Object []), r')
                    else
                      match parse fuel GMembers (c' :: r') with
                      | Some (PMembers m, r'') => Some (PValue (Object m), r'')
                      | _ => None
                      end
                | [] => None
                end
              else if (c =? 91)%N then
                match skip_ws r with
                | c' :: r' =>
                    if (c' =? 93)%N then Some (PValue (Array []), r')
                    else
                      match parse fuel GElements (c' :: r') with
                      | Some (PElements l, r'') => Some (PValue (Array l), r'')
                      | _ => None
                      end
                | [] => None
                end
              else
                match after (lit "null") (c :: r) with
                | Some r' => Some (PValue Null, r')
                | None =>
                    match after (lit "true") (c :: r) with
                    | Some r' => Some (PValue (Bool true), r')
                    | None =>
                        match after (lit "false") (c :: r) with
                        | Some r' => Some (PValue (Bool false), r')
                        | None =>
                            '(n, r') ← scan_int (c :: r); Some (PValue (Int n), r')
                        end
                    end
                end
          end
      | GElements =>
          match parse fuel GValue s with
          | Some (PValue v, r) =>
              match skip_ws r with
              | c :: r' =>
                  if (c =? 44)%N then
                    match parse fuel GElements r' with
                    | Some (PElements l, r'') => Some (PElements (v :: l), r'')
                    | _ => None
                    end
                  else if (c =? 93)%N then Some (PElements [v], r')
                  else None
              | [] => None
              end
          | _ => None
          end
      | GMembers =>
          match skip_ws s with
          | c :: r =>
              if (c =? 34)%N then
                match scan_string (length r) r with
                | Some (k, r1) =>
                    match skip_ws r1 with
                    | c1 :: r2 =>
                        if (c1 =? 58)%N then
                          match parse fuel GValue r2 with
                          | Some (PValue v, r3) =>
                              match skip_ws r3 with
                              | c3 :: r4 =>
                                  if (c3 =? 44)%N then
                                    match parse fuel GMembers r4 with
                                    | Some (PMembers m, r5) =>
                                        Some (PMembers ((k, v) :: m), r5)
                                    | _ => None
                                    end
                                  else if (c3 =? 125)%N then Some (PMembers [(k, v)], r4)
                                  else None
                              | [] => None
                              end
                          | _ => None
                          end
                        else None
                    | [] => None
                    end
                | None => None
                end
              else None
          | [] => None
          end
      end
  end.

(** [json.loads]: one value, with nothing but white space around it. *)
Definition loads (s : str) : option value :=
  match parse (3 * length s + 3) GValue s with
  | Some (PValue v, r) => match skip_ws r with [] => Some v | _ => None end
  | _ => None
  end.

(** The number of nodes of a value. *)
Fixpoint size (v : value) : nat :=
  match v with
  | Array l => S (list_sum (map size l))
  | Object m => S (list_sum (map (fun kv => size kv.2) m))
  | _ => 1
  end.

End Json.

(** *** The value the code builds *)

Definition json_str (s : str) : Json.value := Json.String s.

Definition json_opt (s : option str) : Json.value :=
  match s with
  | Some s => Json.String s
  | None => Json.Null
  end.

Definition content_to_json (c : content_item) : Json.value :=
  match c with
  | Paragraph text => Json.String text
  | Table t =>
      Json.Object
        [ (lit "type", Json.String (lit "table"));
          (lit "caption", Json.String (caption t));
          (lit "headers", Json.Array (map json_str (headers t)));
          (lit "rows",
           Json.Array (map (fun row => Json.Array (map json_str row)) (rows t))) ]
  | Image i =>
      Json.Object
        [ (lit "image",
           Json.Object
             [ (lit "description", Json.String (description i));
               (lit "position", Json.String (position i)) ]) ]
  end.

Definition subsection_to_json (sub : subsection) : Json.value :=
  Json.Object
    [ (lit "title", Json.String (sub_title sub));
      (lit "content", Json.Array (map content_to_json (content sub))) ].

Definition section_to_json (sec : section) : Json.value :=
  Json.Object
    [ (lit "title", Json.String (title sec));
      (lit "subsections", Json.Array (map subsection_to_json (subsections sec))) ].

Definition metadata_to_json (m : metadata) : Json.value :=
  Json.Object
    [ (lit "num_pages", Json.Int (Z.of_nat (num_pages m)));
      (lit "author", json_opt (author m));
      (lit "subject", json_opt (subject m));
      (lit "extraction_date", Json.String (extraction_date m));
      (lit "extraction_method", Json.String (extraction_method m)) ].

Definition to_json (s : structure) : Json.value :=
  Json.Object
    [ (lit "title", Json.String (doc_title s));
      (lit "metadata", metadata_to_json (doc_metadata s));
      (lit "sections", Json.Array (map section_to_json (doc_sections s))) ].

(** [download_json]: the text handed to the download button. *)
Definition download_json (data : structure) : str := Json.dumps (to_json data).

(** ** Notions used in the proofs about the persisted form *)

(** What may follow a value in the text: no digit, and nothing that would
    make the number before it a float. *)
Definition number_end (s : str) : bool :=
  match s with
  | c :: _ => negb (Json.is_digit c) && negb (Json.float_follows s)
  | [] => true
  end.

(** An integer starts with a sign or a digit. *)
Definition number_start (c : N) : bool := ((c =? 45) || Json.is_digit c)%N.

(** What the parser does after an element [v] of a list, and after a member
    [(k, v)] of a dictionary. *)
Definition after_element (fuel : nat) (v : Json.value) (r : str)
  : option (Json.parsed * str) :=
  match Json.skip_ws r with
  | c :: r' =>
      if (c =? 44)%N then
        match Json.parse fuel Json.GElements r' with
        | Some (Json.PElements l, r'') => Some (Json.PElements (v :: l), r'')
        | _ => None
        end
      else if (c =? 93)%N then Some (Json.PElements [v], r')
      else None
  | [] => None
  end.

Definition after_member (fuel : nat) (k : str) (v : Json.value) (r : str)
  : option (Json.parsed * str) :=
  match Json.skip_ws r with
  | c :: r' =>
      if (c =? 44)%N then
        match Json.parse fuel Json.GMembers r' with
        | Some (Json.PMembers m, r'') => Some (Json.PMembers ((k, v) :: m), r'')
        | _ => None
        end
      else if (c =? 125)%N then Some (Json.PMembers [(k, v)], r')
      else None
  | [] => None
  end.

(** What is assumed of each value inside a list or dictionary while the
    round trip of the whole is shown. *)
Definition reads_back (v : Json.value) : Prop :=
  forall (level : nat) (rest : str) (fuel : nat),
    3 * Json.size v <= fuel ->
    number_end rest = true ->
    Json.parse fuel Json.GValue (Json.dump level v ++ rest)
    = Some (Json.PValue v, rest).

(** ** What a tree holds, and where the references stand *)

(** Every content item of a tree, in reading order. *)
Definition all_content (secs : list section) : list content_item :=
  flat_map (fun sec => flat_map content (subsections sec)) secs.

(** The content items a stream leaves, read from left to right;
    [in_section] tells whether a section heading was met.  A run of
    subsection level is a heading inside a section and a paragraph before
    the first section. *)
Fixpoint stream_content (in_section : bool) (ps : list primitive)
  : list content_item :=
  match ps with
  | [] => []
  | p :: ps' =>
      match classify p with
      | Blank => stream_content in_section ps'
      | SectionHeading _ => stream_content true ps'
      | SubsectionLevel t =>
          if in_section then stream_content in_section ps'
          else Paragraph t :: stream_content in_section ps'
      | Body c => c :: stream_content in_section ps'
      end
  end.

(** The two references stand at the end of the tree: the current section is
    the last section, the current subsection is the last subsection of the
    current section, and while no section is current no subsection is, and
    the last section, if there is one, has a subsection. *)
Definition refs_at_end (st : state) : Prop :=
  match current_section st with
  | Some i =>
      S i = length (sections st) /\
      match current_subsection st with
      | Some (i', j) =>
          i' = i /\
          exists sec, sections st !! i = Some sec /\ S j = length (subsections sec)
      | None => True
      end
  | None =>
      current_subsection st = None /\
      match last (sections st) with
      | Some sec => subsections sec <> []
      | None => True
      end
  end.

(** The paragraphs of a list of content items. *)
Definition paragraphs_of (l : list content_item) : list str :=
  omap (fun c => match c with Paragraph t => Some t | _ => None end) l.

(** All the titles of a tree. *)
Definition subsection_titles (secs : list section) : list str :=
  flat_map (fun sec => map sub_title (subsections sec)) secs.

(** Text that is not empty and that [strip()] leaves as it is: it neither
    starts nor ends with white space. *)
Definition trimmed (s : str) : Prop := s <> [] /\ strip s = s.

Definition trimmed_item (c : content_item) : Prop :=
  match c with
  | Paragraph t => trimmed t
  | _ => True
  end.

Definition trimmed_subsection (sub : subsection) : Prop :=
  trimmed (sub_title sub) /\ Forall trimmed_item (content sub).

Definition trimmed_section (sec : section) : Prop :=
  trimmed (title sec) /\ Forall trimmed_subsection (subsections sec).

(** ** A sample document

    One page: a heading, a paragraph, an image block, and a table whose
    first extracted row is empty. *)
Definition sample_page : page :=
  {| page_text := lit "Intro";
     page_blocks :=
       [ {| block_type := 0;
            block_lines :=
              [ [ {| span_text := lit " lead "; span_size := 15; span_flags := 0 |} ];
                [ {| span_text := lit "Intro"; span_size := 18; span_flags := 0 |} ];
                [ {| span_text := lit "hello "; span_size := 10; span_flags := 0 |} ] ];
            block_width := None; block_height := None |};
         {| block_type := 1; block_lines := [];
            block_width := Some 20%Z; block_height := None |} ];
     page_tables := [ [ []; [Some (lit "a"); None]; []; [Some (lit "1")] ] ] |}.

Definition sample_document : document :=
  {| meta_title := None; meta_author := None; meta_subject := None;
     pages := [sample_page] |}.

Definition sample_structure : structure :=
  {| doc_title := lit "Intro";
     doc_metadata :=
       {| num_pages := 1; author := None; subject := None;
          extraction_date := lit "2024-01-01T00:00:00";
          extraction_method := lit "PyMuPDF" |};
     doc_sections :=
       [ {| title := lit "Contenu principal";
            subsections :=
              [ {| sub_title := lit "Introduction";
                   content := [ Paragraph (lit "lead") ] |} ] |};
         {| title := lit "Intro";
            subsections :=
              [ {| sub_title := lit "Contenu";
                   content :=
                     [ Paragraph (lit "hello");
                       Image {| description :=
                                  lit "Image d" ++ [233%N] ++ lit "tect" ++ [233%N]
                                  ++ lit "e (dimensions: 20x0)";
                                position := lit "page 1" |};
                       Table {| caption := lit "Tableau 1 - Page 1";
                                headers := [lit "a"; []];
                                rows := [ []; [lit "1"] ] |} ] |} ] |} ] |}.

(** ** [_analyze_with_pdfplumber]

    The second backend makes one section per page.  Its tree has the shape
    of the PyMuPDF tree, but the cells of its tables are the cells of
    [extract_tables()] as they come, strings or [None], and its metadata
    have the keys [author] and [subject] only when the document has
    metadata. *)

(** [s.split(sep)] for a separator of the two characters [a] and [b]: the
    text is cut at each occurrence of the separator, found from left to
    right without overlap; the result is never empty. *)
Fixpoint split_pair (a b : N) (s : str) : list str :=
  match s with
  | [] => [[]]
  | c :: s' =>
      let push ws := match ws with w :: ws' => (c :: w) :: ws' | [] => [[c]] end in
      match s' with
      | c' :: s'' =>
          if ((c =? a) && (c' =? b))%N then [] :: split_pair a b s''
          else push (split_pair a b s')
      | [] => push (split_pair a b s')
      end
  end.

Module Plumber.

(** An entry of [page.images]: the pass counts the entries and reads none. *)
Inductive image := AnImage.

(** A page: what [extract_text()] returns, a string or [None]; what
    [extract_tables()] returns, tables that are lists of rows (a table that
    is [None] is [None] here); and [page.images], where [None] stands for a
    value [None] and for a page without this attribute. *)
Record page := {
  extract_text : option str;
  extract_tables : list (option (list (list (option str))));
  images : option (list image)
}.

(** [pdf.metadata] is a dictionary from strings to strings. *)
Record pdf := { pdf_metadata : gmap str str; pdf_pages : list page }.

Record table_data := {
  caption : str;
  headers : list (option str);
  rows : list (list (option str))
}.

Record image_data := { description : str; position : str }.

Inductive content_item :=
| Paragraph (text : str)
| Table (t : table_data)
| Image (i : image_data).

Record subsection := { sub_title : str; content : list content_item }.

Record section := { title : str; subsections : list subsection }.

(** The keys [author] and [subject] may be absent: [None]. *)
Record metadata := {
  num_pages : nat;
  extraction_date : str;
  extraction_method : str;
  author : option str;
  subject : option str
}.

Record structure := {
  doc_title : str;
  doc_metadata : metadata;
  doc_sections : list section
}.

Definition append_content (c : content_item) (sub : subsection) : subsection :=
  {| sub_title := sub_title sub; content := content sub ++ [c] |}.

(** [section["subsections"][0]["content"].append(c)], where [section] is
    the dictionary that sits at position [i] of [structure["sections"]]. *)
Definition append_to_page (i : nat) (c : content_item) (secs : list section)
  : result (list section) :=
  match secs !! i with
  | Some sec =>
      match subsections sec !! 0 with
      | Some _ =>
          Ok (alter (fun sec =>
                       {| title := title sec;
                          subsections := alter (append_content c) 0 (subsections sec) |})
                i secs)
      | None => Raise IndexError
      end
  | None => Raise BadReference
  end.

(** [[p.strip() for p in text.split('\n\n') if p.strip()]] *)
Definition paragraphs (text : str) : list str :=
  map strip (List.filter (fun p => nonempty (strip p)) (split_pair 10 10 text)).

(** The dictionary built for table [i] of the page. *)
Definition table_item (i : nat) (table : list (list (option str))) : content_item :=
  Table
    {| caption := lit "Tableau " ++ str_of_Z (Z.of_nat i + 1);
       headers := match table with row :: _ => row | [] => [] end;
       rows := if 1 <? length table then drop 1 table else [] |}.

(** [table and len(table) > 0] *)
Definition kept (table : option (list (list (option str)))) : bool :=
  match table with
  | Some t => nonempty t && (0 <? length t)
  | None => false
  end.

Definition image_item (page_num img_num : nat) : content_item :=
  Image
    {| description := lit "Image " ++ str_of_Z (Z.of_nat img_num + 1);
       position := lit "page " ++ str_of_Z (Z.of_nat page_num + 1) |}.

(** The body of [for page_num, page in enumerate(pdf.pages)]. *)
Definition process_page (page_num : nat) (p : page) (secs : list section)
  : result (list section) :=
  let i := length secs in
  let secs :=
    secs ++ [ {| title := lit "Page " ++ str_of_Z (Z.of_nat page_num + 1);
                 subsections := [ {| sub_title := lit "Contenu"; content := [] |} ] |} ] in
  secs ← (if nonempty (default [] (extract_text p)) then
            for_each (fun para secs => append_to_page i (Paragraph para) secs)
              (paragraphs (default [] (extract_text p))) secs
          else Ok secs);
  secs ← for_enumerate
           (fun k table secs =>
              if kept table then append_to_page i (table_item k (default [] table)) secs
              else Ok secs)
           0 (extract_tables p) secs;
  for_enumerate
    (fun img_num _ secs => append_to_page i (image_item page_num img_num) secs)
    0 (default [] (images p)) secs.

(** The module that [import pdfplumber] binds (lines 27 and 177).  The
    source file is itself named pdfplumber.py: when the program runs under
    this name the import finds the file before the library, and the file
    has no [open]. *)
Inductive binding := TheLibrary | TheFile.

(** What a call of the function does: it returns, or it raises. *)
Inductive outcome (A : Type) : Type :=
| Returned (a : A)
| ImportError
| AttributeError
| Raised (e : exn).
Arguments Returned {A} a.
Arguments ImportError {A}.
Arguments AttributeError {A}.
Arguments Raised {A} e.

(** The whole function.  [found] is what [import pdfplumber] finds: nothing
    ([ImportError] at line 177), the source file itself ([AttributeError]
    at [pdfplumber.open], line 189), or the library; [d] is what
    [pdfplumber.open(pdf_path)] of the library gives; [now] is
    [datetime.now().isoformat()]. *)
Definition _analyze_with_pdfplumber (now : str) (found : option binding) (d : pdf)
  : outcome structure :=
  match found with
  | None => ImportError
  | Some TheFile => AttributeError
  | Some TheLibrary =>
      let has_metadata := negb (bool_decide (pdf_metadata d = ∅)) in
      match for_enumerate process_page 0 (pdf_pages d) [] with
      | Raise e => Raised e
      | Ok secs =>
          Returned
            {| doc_title :=
                 if has_metadata
                 then default (lit "Document PDF") (pdf_metadata d !! lit "Title")
                 else lit "Document PDF";
               doc_metadata :=
                 {| num_pages := length (pdf_pages d);
                    extraction_date := now;
                    extraction_method := lit "pdfplumber";
                    author :=
                      if has_metadata
                      then Some (default [] (pdf_metadata d !! lit "Author"))
                      else None;
                    subject :=
                      if has_metadata
                      then Some (default [] (pdf_metadata d !! lit "Subject"))
                      else None |};
               doc_sections := secs |}
      end
  end.

(** The value [json.dumps] receives, key by key in insertion order. *)
Definition content_to_json (c : content_item) : Json.value :=
  match c with
  | Paragraph text => Json.String text
  | Table t =>
      Json.Object
        [ (lit "type", Json.String (lit "table"));
          (lit "caption", Json.String (caption t));
          (lit "headers", Json.Array (map json_opt (headers t)));
          (lit "rows",
           Json.Array (map (fun row => Json.Array (map json_opt row)) (rows t))) ]
  | Image i =>
      Json.Object
        [ (lit "image",
           Json.Object
             [ (lit "description", Json.String (description i));
               (lit "position", Json.String (position i)) ]) ]
  end.

Definition subsection_to_json (sub : subsection) : Json.value :=
  Json.Object
    [ (lit "title", Json.String (sub_title sub));
      (lit "content", Json.Array (map content_to_json (content sub))) ].

Definition section_to_json (sec : section) : Json.value :=
  Json.Object
    [ (lit "title", Json.String (title sec));
      (lit "subsections", Json.Array (map subsection_to_json (subsections sec))) ].

Definition optional_key (key : string) (v : option str) : list (str * Json.value) :=
  match v with
  | Some s => [ (lit key, Json.String s) ]
  | None => []
  end.

Definition metadata_to_json (m : metadata) : Json.value :=
  Json.Object
    ([ (lit "num_pages", Json.Int (Z.of_nat (num_pages m)));
       (lit "extraction_date", Json.String (extraction_date m));
       (lit "extraction_method", Json.String (extraction_method m)) ]
     ++ optional_key "author" (author m)
     ++ optional_key "subject" (subject m)).

Definition to_json (s : structure) : Json.value :=
  Json.Object
    [ (lit "title", Json.String (doc_title s));
      (lit "metadata", metadata_to_json (doc_metadata s));
      (lit "sections", Json.Array (map section_to_json (doc_sections s))) ].

(** [download_json] on a structure of this backend. *)
Definition download_json (data : structure) : str := Json.dumps (to_json data).

(** *** The tree in closed form *)

(** What a page leaves in its subsection: its paragraphs, then its tables,
    then its images. *)
Definition page_content (page_num : nat) (p : page) : list content_item :=
  map Paragraph (paragraphs (default [] (extract_text p)))
  ++ omap id
       (imap (fun k table =>
                if kept table then Some (table_item k (default [] table)) else None)
          (extract_tables p))
  ++ imap (fun img_num _ => image_item page_num img_num) (default [] (images p)).

Definition page_section (page_num : nat) (p : page) : section :=
  {| title := lit "Page " ++ str_of_Z (Z.of_nat page_num + 1);
     subsections :=
       [ {| sub_title := lit "Contenu"; content := page_content page_num p |} ] |}.

Definition paragraphs_of (l : list content_item) : list str :=
  omap (fun c => match c with Paragraph t => Some t | _ => None end) l.

Definition tables_of (l : list content_item) : list table_data :=
  omap (fun c => match c with Table t => Some t | _ => None end) l.

End Plumber.

(** A sample for this backend: a page with two paragraphs among blank
    pieces, an empty table, a missing one and a table of two rows, two
    images; and a page with nothing on it. *)
Definition sample_pdf : Plumber.pdf :=
  {| Plumber.pdf_metadata := {[ lit "Title" := lit "Report" ]};
     Plumber.pdf_pages :=
       [ {| Plumber.extract_text :=
              Some (lit " a " ++ [10; 10; 10; 10]%N ++ lit "b" ++ [10; 10; 32; 10]%N);
            Plumber.extract_tables :=
              [ Some [];
                None;
                Some [ [Some (lit "h"); None]; [Some (lit "1"); Some (lit "2")] ] ];
            Plumber.images := Some [Plumber.AnImage; Plumber.AnImage] |};
         {| Plumber.extract_text := None;
            Plumber.extract_tables := [];
            Plumber.images := None |} ] |}.

Definition sample_pdf_structure : Plumber.structure :=
  {| Plumber.doc_title := lit "Report";
     Plumber.doc_metadata :=
       {| Plumber.num_pages := 2;
          Plumber.extraction_date := lit "2024-01-01T00:00:00";
          Plumber.extraction_method := lit "pdfplumber";
          Plumber.author := Some [];
          Plumber.subject := Some [] |};
     Plumber.doc_sections :=
       [ {| Plumber.title := lit "Page 1";
            Plumber.subsections :=
              [ {| Plumber.sub_title := lit "Contenu";
                   Plumber.content :=
                     [ Plumber.Paragraph (lit "a");
                       Plumber.Paragraph (lit "b");
                       Plumber.Table
                         {| Plumber.caption := lit "Tableau 3";
                            Plumber.headers := [Some (lit "h"); None];
                            Plumber.rows := [ [Some (lit "1"); Some (lit "2")] ] |};
                       Plumber.Image
                         {| Plumber.description := lit "Image 1";
                            Plumber.position := lit "page 1" |};
                       Plumber.Image
                         {| Plumber.description := lit "Image 2";
                            Plumber.position := lit "page 1" |} ] |} ] |};
         {| Plumber.title := lit "Page 2";
            Plumber.subsections :=
              [ {| Plumber.sub_title := lit "Contenu";
                   Plumber.content := [] |} ] |} ] |}.

(** ** [_analyze_with_docling]

    The third backend walks the items of the converted document.  It keeps
    the two references of the PyMuPDF pass and calls the same
    [_add_content], so the tree, the state and the two operations that open
    a section and a subsection are the ones defined above. *)

Module Docling.

(** An item of [doc.iterate_items()], with the attributes the pass reads;
    [None] stands for an attribute the item does not have. *)
Record item := {
  item_label : option str;
  item_text : option str;
  item_level : option Z;
  item_caption : option str;
  item_page_number : option Z
}.

(** The converted document: its items, and [len(doc.pages)] when the
    document has the attribute [pages]. *)
Record doc := { items : list item; pages : option nat }.

(** The metadata of this backend have three keys. *)
Record structure := {
  doc_title : str;
  num_pages : nat;
  extraction_date : str;
  extraction_method : str;
  doc_sections : list section
}.

(** What the [try] block may raise: the exception of a missing attribute,
    or an exception of [_add_content]. *)
Inductive cause := AttributeError | Inner (e : exn).

(** [Fails c] is the exception the [except] clause raises,
    [Exception(f"Erreur Docling: {str(e)}")], for the cause [c]. *)
Inductive attempt (A : Type) : Type :=
| Done (a : A)
| Fails (c : cause).
Arguments Done {A} a.
Arguments Fails {A} c.

#[global] Instance attempt_ret : MRet attempt := fun A a => Done a.
#[global] Instance attempt_bind : MBind attempt := fun A B f m =>
  match m with
  | Done a => f a
  | Fails c => Fails c
  end.

Definition lift {A} (r : result A) : attempt A :=
  match r with
  | Ok a => Done a
  | Raise e => Fails (Inner e)
  end.

(** [item.text] *)
Definition get_text (it : item) : attempt str :=
  match item_text it with
  | Some t => Done t
  | None => Fails AttributeError
  end.

(** [x in [...]] for a list of literals. *)
Definition is_in (x : str) (l : list string) : bool :=
  existsb (fun s => bool_decide (x = lit s)) l.

(** [item.label if hasattr(item, 'label') else 'unknown'] *)
Definition item_type (it : item) : str := default (lit "unknown") (item_label it).

(** [hasattr(item, 'level') and item.level == 1] *)
Definition _is_main_title (it : item) : bool :=
  match item_level it with
  | Some l => (l =? 1)%Z
  | None => false
  end.

(** The loop of [_get_doc_title]. *)
Fixpoint first_title (l : list item) : attempt str :=
  match l with
  | [] => Done (lit "Document sans titre")
  | it :: l' =>
      if match item_label it with
         | Some label => is_in label ["title"; "document_title"]%string
         | None => false
         end
      then get_text it
      else first_title l'
  end.

Definition _get_doc_title (d : doc) : attempt str := first_title (items d).

(** The section created for a heading that is no main title while no
    section is current. *)
Definition open_main_section (st : state) : state :=
  match current_section st with
  | None =>
      {| sections :=
           sections st ++ [ {| title := lit "Section principale"; subsections := [] |} ];
         current_section := Some (length (sections st));
         current_subsection := current_subsection st |}
  | Some _ => st
  end.

Definition table_content (it : item) : content_item :=
  Table {| caption := default (lit "Tableau") (item_caption it);
           headers := [];
           rows := [] |}.

Definition image_info (it : item) : content_item :=
  Image {| description := default (lit "Image") (item_caption it);
           position :=
             lit "page "
             ++ match item_page_number it with
                | Some n => str_of_Z n
                | None => lit "inconnue"
                end |}.

(** The body of [for item in doc.iterate_items()]. *)
Definition process_item (it : item) (st : state) : attempt state :=
  if is_in (item_type it) ["section_header"; "header"; "title"]%string then
    if _is_main_title it then
      t ← get_text it;
      Done (open_section t st)
    else
      let st := open_main_section st in
      t ← get_text it;
      lift (open_subsection t st)
  else if is_in (item_type it) ["paragraph"; "text"]%string then
    t ← get_text it;
    lift (add_content_here (Paragraph t) st)
  else if bool_decide (item_type it = lit "table") then
    lift (add_content_here (table_content it) st)
  else if is_in (item_type it) ["figure"; "image"]%string then
    lift (add_content_here (image_info it) st)
  else Done st.

Fixpoint run (l : list item) (st : state) : attempt state :=
  match l with
  | [] => Done st
  | it :: l' => st' ← process_item it st; run l' st'
  end.

(** The whole function, after the conversion; [now] is
    [datetime.now().isoformat()]. *)
Definition _analyze_with_docling (now : str) (d : doc) : attempt structure :=
  t ← _get_doc_title d;
  st ← run (items d) initial;
  Done {| doc_title := t;
          num_pages := default 0 (pages d);
          extraction_date := now;
          extraction_method := lit "Docling";
          doc_sections := sections st |}.

(** *** Notions used to state what the pass does *)

(** What an item is for the pass. *)
Definition is_header (it : item) : bool :=
  is_in (item_type it) ["section_header"; "header"; "title"]%string.

Definition is_paragraph (it : item) : bool :=
  negb (is_header it) && is_in (item_type it) ["paragraph"; "text"]%string.

(** The items whose text the pass reads. *)
Definition reads_text (it : item) : bool := is_header it || is_paragraph it.

(** The items [_get_doc_title] looks for. *)
Definition is_title (it : item) : bool :=
  match item_label it with
  | Some label => is_in label ["title"; "document_title"]%string
  | None => false
  end.

(** The content item an item leaves in the tree, if any. *)
Definition item_content (it : item) : option content_item :=
  if is_header it then None
  else if is_in (item_type it) ["paragraph"; "text"]%string
  then Paragraph <$> item_text it
  else if bool_decide (item_type it = lit "table") then Some (table_content it)
  else if is_in (item_type it) ["figure"; "image"]%string then Some (image_info it)
  else None.

(** The section titles the pass adds for a list of items, given whether a
    section is current and whether the tree has a section. *)
Fixpoint new_titles (current has_section : bool) (l : list item) : list str :=
  match l with
  | [] => []
  | it :: l' =>
      if is_header it then
        if _is_main_title it
        then option_list (item_text it) ++ new_titles true true l'
        else (if current then [] else [lit "Section principale"])
             ++ new_titles true true l'
      else if bool_decide (is_Some (item_content it)) then
        (if current || has_section then [] else [lit "Contenu principal"])
        ++ new_titles current true l'
      else new_titles current has_section l'
  end.

(** The texts of the main titles, in order. *)
Definition main_titles (l : list item) : list str :=
  omap (fun it => if is_header it && _is_main_title it then item_text it else None) l.

(** The section titles of the tree, read off the items: what precedes the
    first heading gives "Contenu principal" when it leaves content, the
    first heading gives "Section principale" when it is no main title, and
    each main title gives its text. *)
Definition expected_titles (l : list item) : list str :=
  let '(pre, gs) := cut (fun it => if is_header it then Some it else None) l in
  (if existsb (fun it => bool_decide (is_Some (item_content it))) pre
   then [lit "Contenu principal"] else [])
  ++ match gs with
     | (h, _) :: _ => if _is_main_title h then [] else [lit "Section principale"]
     | [] => []
     end
  ++ main_titles l.

(** *** The tree in closed form *)

(** The text of a main title, and of a heading that is no main title; a
    heading without text counts with the empty text (the pass fails on
    it). *)
Definition main_heading (it : item) : option str :=
  if is_header it && _is_main_title it
  then Some (default [] (item_text it)) else None.

Definition sub_heading (it : item) : option str :=
  if is_header it && negb (_is_main_title it)
  then Some (default [] (item_text it)) else None.

Definition contents (l : list item) : list content_item := omap item_content l.

(** The subsection a heading and what follows it make. *)
Definition subsection_of (g : str * list item) : subsection :=
  {| sub_title := g.1; content := contents g.2 |}.

(** The subsection made for items that have none to go to. *)
Definition holder (name : string) (cs : list content_item) : list subsection :=
  if nonempty cs then [ {| sub_title := lit name; content := cs |} ] else [].

(** The subsections of a section whose main title is followed by [body]:
    the body is cut at its headings; what precedes the first one goes to a
    subsection "Contenu". *)
Definition expected_subsections (body : list item) : list subsection :=
  let '(pre, gs) := cut sub_heading body in
  holder "Contenu" (contents pre) ++ map subsection_of gs.

Definition section_of (g : str * list item) : section :=
  {| title := g.1; subsections := expected_subsections g.2 |}.

(** The section made for what precedes every heading. *)
Definition orphans (cs : list content_item) : list section :=
  if nonempty cs
  then [ {| title := lit "Contenu principal";
            subsections := holder "Introduction" cs |} ]
  else [].

(** The section made for the headings that precede every main title. *)
Definition main_section (gs : list (str * list item)) : list section :=
  if nonempty gs
  then [ {| title := lit "Section principale";
            subsections := map subsection_of gs |} ]
  else [].

(** The tree, read off the items: the items are cut at the main titles;
    each main title makes a section of what follows it; what precedes the
    first main title is cut at its headings and makes up to two sections. *)
Definition expected_sections (l : list item) : list section :=
  let '(pre, gs) := cut main_heading l in
  let '(pre0, gs0) := cut sub_heading pre in
  orphans (contents pre0) ++ main_section gs0 ++ map section_of gs.

(** *** The three states the pass can be in *)

(** No section is current: the tree is empty or is the section of the
    orphans. *)
Definition before_headings (cs : list content_item) : state :=
  {| sections := orphans cs; current_section := None; current_subsection := None |}.

(** A section is current and no subsection is: the section was opened by a
    main title and has received [cs]. *)
Definition in_section (front : list section) (t : str) (cs : list content_item)
  : state :=
  {| sections := front ++ [ {| title := t; subsections := holder "Contenu" cs |} ];
     current_section := Some (length front);
     current_subsection := None |}.

(** A subsection is current: the last of the current section. *)
Definition in_subsection (front : list section) (t : str)
    (subs : list subsection) (u : str) (cs : list content_item) : state :=
  {| sections :=
       front ++ [ {| title := t;
                     subsections := subs ++ [ {| sub_title := u; content := cs |} ] |} ];
     current_section := Some (length front);
     current_subsection := Some (length front, length subs) |}.

End Docling.

(** A sample for this backend: a document title, a text before any
    heading, a heading of level 2, a table, a main title, a figure, and an
    item without label. *)
Definition sample_items : list Docling.item :=
  let item label text level caption page_number :=
    {| Docling.item_label := label; Docling.item_text := text;
       Docling.item_level := level; Docling.item_caption := caption;
       Docling.item_page_number := page_number |} in
  [ item (Some (lit "document_title")) (Some (lit "My doc")) None None None;
    item (Some (lit "text")) (Some (lit "intro ")) None None None;
    item (Some (lit "section_header")) (Some (lit "Sub")) (Some 2%Z) None None;
    item (Some (lit "table")) None None None None;
    item (Some (lit "title")) (Some (lit "Main")) (Some 1%Z) None None;
    item (Some (lit "figure")) None None (Some (lit "Fig")) (Some 3%Z);
    item None None None None None ].

Definition sample_doc : Docling.doc :=
  {| Docling.items := sample_items; Docling.pages := Some 4 |}.

Definition sample_doc_structure : Docling.structure :=
  {| Docling.doc_title := lit "My doc";
     Docling.num_pages := 4;
     Docling.extraction_date := lit "2024-01-01T00:00:00";
     Docling.extraction_method := lit "Docling";
     Docling.doc_sections :=
       [ {| title := lit "Contenu principal";
            subsections :=
              [ {| sub_title := lit "Introduction";
                   content := [ Paragraph (lit "intro ") ] |} ] |};
         {| title := lit "Section principale";
            subsections :=
              [ {| sub_title := lit "Sub";
                   content :=
                     [ Table {| caption := lit "Tableau"; headers := [];
                                rows := [] |} ] |} ] |};
         {| title := lit "Main";
            subsections :=
              [ {| sub_title := lit "Contenu";
                   content :=
                     [ Image {| description := lit "Fig";
                                position := lit "page 3" |} ] |} ] |} ] |}.

(** ** The analyzer and its backends *)

(** What the three imports at the top of the file find (lines 20 to 38).
    For [pdfplumber] it is a module, or nothing; see [Plumber.binding]. *)
Record imports := {
  fitz_import : bool;
  pdfplumber_import : option Plumber.binding;
  docling_import : bool
}.

(** [LIBRARIES_STATUS], in the order of its keys. *)
Record libraries := {
  has_docling : bool;
  has_pymupdf : bool;
  has_pdfplumber : bool
}.

(** [LIBRARIES_STATUS] after the three imports were tried: an entry is
    [True] when its import raised nothing. *)
Definition LIBRARIES_STATUS (found : imports) : libraries :=
  {| has_docling := docling_import found;
     has_pymupdf := fitz_import found;
     has_pdfplumber := bool_decide (is_Some (pdfplumber_import found)) |}.

(** The values of [self.method]; [None] is [None]. *)
Inductive method := Pymupdf | Pdfplumber | DoclingMethod.

(** [PDFAnalyzer.__init__]; [converter_built] tells whether the
    construction of the Docling converter returns. *)
Definition __init__ (status : libraries) (converter_built : bool) : option method :=
  if has_pymupdf status then Some Pymupdf
  else if has_pdfplumber status then Some Pdfplumber
  else if has_docling status then
    if converter_built then Some DoclingMethod else None
  else None.

(** What each library reads from the file at [pdf_path]. *)
Record pdf_file := {
  read_by_fitz : document;
  read_by_pdfplumber : Plumber.pdf;
  read_by_docling : Docling.doc
}.

(** What [analyze_pdf] does: the outcome of one backend, or the exception
    "Aucune bibliothèque PDF disponible pour l'analyse". *)
Inductive analysis :=
| ByPymupdf (r : result structure)
| ByPdfplumber (r : Plumber.outcome Plumber.structure)
| ByDocling (r : Docling.attempt Docling.structure)
| NoLibrary.

Definition analyze_pdf (self_method : option method) (found : imports)
    (now : str) (f : pdf_file) : analysis :=
  match self_method with
  | Some Pymupdf => ByPymupdf (_analyze_with_pymupdf now (read_by_fitz f))
  | Some Pdfplumber =>
      ByPdfplumber
        (Plumber._analyze_with_pdfplumber now (pdfplumber_import found)
           (read_by_pdfplumber f))
  | Some DoclingMethod =>
      ByDocling (Docling._analyze_with_docling now (read_by_docling f))
  | None => NoLibrary
  end.

(** The guard of [main]: [any(LIBRARIES_STATUS.values())]. *)
Definition any_library (status : libraries) : bool :=
  has_docling status || has_pymupdf status || has_pdfplumber status.

(** [PDFAnalyzer().analyze_pdf(tmp_path)], as [main] calls it (lines 444
    and 445). *)
Definition main_analysis (found : imports) (converter_built : bool)
    (now : str) (f : pdf_file) : analysis :=
  analyze_pdf (__init__ (LIBRARIES_STATUS found) converter_built) found now f.

Definition sample_file : pdf_file :=
  {| read_by_fitz := sample_document;
     read_by_pdfplumber := sample_pdf;
     read_by_docling := sample_doc |}.

(** * Properties *)

(** ** Lists *)

Lemma alter_last_snoc {A} (f : A -> A) (l : list A) (x : A) :
  alter_last f (l ++ [x]) = l ++ [f x].
Proof.
  unfold alter_last. rewrite length_app. simpl.
  replace (pred (length l + 1)) with (length l + 0) by lia.
  rewrite alter_app_r. reflexivity.
Qed.

Lemma alter_last_cons {A} (f : A -> A) (x y : A) (l : list A) :
  alter_last f (x :: y :: l) = x :: alter_last f (y :: l).
Proof. reflexivity. Qed.

Lemma alter_snoc_at_length {A} (f : A -> A) (l : list A) (x : A) :
  alter f (length l) (l ++ [x]) = l ++ [f x].
Proof.
  replace (length l) with (length l + 0) by lia.
  rewrite alter_app_r. reflexivity.
Qed.

Lemma lookup_snoc_at_length {A} (l : list A) (x : A) :
  (l ++ [x]) !! length l = Some x.
Proof. rewrite lookup_app_r by lia. rewrite Nat.sub_diag. reflexivity. Qed.

Lemma nonempty_snoc {A} (l : list A) (x : A) : nonempty (l ++ [x]) = true.
Proof. destruct l; reflexivity. Qed.

Lemma nonempty_false {A} (l : list A) : nonempty l = false <-> l = [].
Proof. destruct l; simpl; split; congruence. Qed.

Lemma nonempty_true {A} (l : list A) : nonempty l = true <-> l <> [].
Proof. destruct l; simpl; split; congruence. Qed.

(** ** Cutting a stream *)

Lemma cut_app {A H} (h : A -> option H) (l1 l2 : list A) :
  cut h (l1 ++ l2) =
  match (cut h l1).2 with
  | [] => ((cut h l1).1 ++ (cut h l2).1, (cut h l2).2)
  | _ => ((cut h l1).1, extend_last (cut h l1).2 (cut h l2).1 ++ (cut h l2).2)
  end.
Proof.
  induction l1 as [|a l1 IH]; simpl.
  - destruct (cut h l2); reflexivity.
  - rewrite IH. destruct (cut h l1) as [pre1 gs1]. simpl.
    destruct (cut h l2) as [pre2 gs2]. simpl.
    destruct gs1 as [|g gs1]; destruct (h a); simpl; try reflexivity.
Qed.

Lemma extend_last_nil {A H} (gs : list (H * list A)) : extend_last gs [] = gs.
Proof.
  unfold extend_last, alter_last. apply list_alter_id.
  intros [x b]. simpl. rewrite app_nil_r. reflexivity.
Qed.

Lemma extend_last_snoc {A H} (gs : list (H * list A)) (g : H * list A) (l : list A) :
  extend_last (gs ++ [g]) l = gs ++ [(g.1, g.2 ++ l)].
Proof. unfold extend_last. rewrite alter_last_snoc. reflexivity. Qed.

Lemma cut_snoc {A H} (h : A -> option H) (l : list A) (a : A) :
  cut h (l ++ [a]) =
  match h a with
  | Some x => ((cut h l).1, (cut h l).2 ++ [(x, [])])
  | None =>
      match (cut h l).2 with
      | [] => ((cut h l).1 ++ [a], [])
      | _ => ((cut h l).1, extend_last (cut h l).2 [a])
      end
  end.
Proof.
  rewrite cut_app. simpl. destruct (h a); simpl.
  - destruct (cut h l).2 as [|g gs] eqn:E; simpl.
    + rewrite app_nil_r. reflexivity.
    + rewrite extend_last_nil. reflexivity.
  - destruct (cut h l).2; simpl; [reflexivity|]. rewrite app_nil_r. reflexivity.
Qed.

(** ** One step, by the kind of the primitive *)

Lemma step_classify (p : primitive) (st : state) :
  step p st =
  match classify p with
  | Blank => Ok st
  | SectionHeading t => Ok (open_section t st)
  | SubsectionLevel t =>
      match current_section st with
      | Some _ => open_subsection t st
      | None => add_content_here (Paragraph t) st
      end
  | Body c => add_content_here c st
  end.
Proof.
  destruct p as [sp|c]; simpl; [|reflexivity].
  unfold process_span.
  destruct (negb (nonempty (strip (span_text sp)))); [reflexivity|].
  destruct (section_level _ _); [reflexivity|].
  destruct (subsection_level _ _); simpl; [|reflexivity].
  destruct (current_section st); reflexivity.
Qed.

Lemma contents_snoc (ps : list primitive) (p : primitive) :
  contents (ps ++ [p]) =
  contents ps ++ match content_of p with Some c => [c] | None => [] end.
Proof.
  unfold contents. rewrite omap_app. simpl. destruct (content_of p); reflexivity.
Qed.

Lemma subsection_heading_content (p : primitive) (t : str) :
  subsection_heading p = Some t -> content_of p = Some (Paragraph t).
Proof.
  unfold subsection_heading, content_of. destruct (classify p); congruence.
Qed.

Lemma section_heading_classify (p : primitive) (t : str) :
  section_heading p = Some t <-> classify p = SectionHeading t.
Proof.
  unfold section_heading. destruct (classify p); split; congruence.
Qed.

(** ** The subsections of a body that grows by one primitive *)

Lemma expected_subsections_heading (body : list primitive) (p : primitive) (t : str) :
  subsection_heading p = Some t ->
  expected_subsections (body ++ [p]) =
  expected_subsections body ++ [ {| sub_title := t; content := [] |} ].
Proof.
  intros Hp. unfold expected_subsections. rewrite cut_snoc, Hp.
  destruct (cut subsection_heading body) as [pre gs]. simpl.
  rewrite map_app, app_assoc. reflexivity.
Qed.

Lemma expected_subsections_blank (body : list primitive) (p : primitive) :
  subsection_heading p = None -> content_of p = None ->
  expected_subsections (body ++ [p]) = expected_subsections body.
Proof.
  intros Hp Hc. unfold expected_subsections. rewrite cut_snoc, Hp.
  destruct (cut subsection_heading body) as [pre gs]. simpl.
  destruct gs as [|g gs _] using rev_ind; simpl.
  - rewrite contents_snoc, Hc, !app_nil_r. reflexivity.
  - destruct (gs ++ [g]) eqn:E; [destruct gs; discriminate|]. rewrite <- E.
    rewrite extend_last_snoc, !map_app. simpl.
    rewrite contents_snoc, Hc, !app_nil_r. reflexivity.
Qed.

Lemma expected_subsections_content (body : list primitive) (p : primitive)
    (c : content_item) :
  subsection_heading p = None -> content_of p = Some c ->
  expected_subsections (body ++ [p]) =
  alter_last (append_content c)
    (if nonempty (expected_subsections body) then expected_subsections body
     else expected_subsections body ++ [default_subsection]).
Proof.
  intros Hp Hc. unfold expected_subsections. rewrite cut_snoc, Hp.
  destruct (cut subsection_heading body) as [pre gs]. simpl.
  destruct gs as [|g gs _] using rev_ind; simpl.
  - rewrite contents_snoc, Hc. destruct (contents pre) as [|c0 cs]; reflexivity.
  - destruct (gs ++ [g]) eqn:E; [destruct gs; discriminate|]. rewrite <- E.
    rewrite extend_last_snoc, !map_app. simpl.
    rewrite contents_snoc, Hc, !app_assoc, nonempty_snoc, alter_last_snoc.
    reflexivity.
Qed.

Lemma expected_subsections_ref_content (body : list primitive) (p : primitive) :
  subsection_heading p = None ->
  nonempty (cut subsection_heading (body ++ [p])).2
  = nonempty (cut subsection_heading body).2
  /\ (nonempty (cut subsection_heading body).2 = true ->
      length (expected_subsections (body ++ [p])) = length (expected_subsections body)).
Proof.
  intros Hp. unfold expected_subsections. rewrite cut_snoc, Hp.
  destruct (cut subsection_heading body) as [pre gs]. simpl.
  destruct gs as [|g gs _] using rev_ind; simpl; [split; [reflexivity|discriminate]|].
  destruct (gs ++ [g]) eqn:E; [destruct gs; discriminate|]. rewrite <- E.
  rewrite extend_last_snoc. simpl. rewrite !nonempty_snoc.
  split; [reflexivity|]. intros _. rewrite !length_app, !length_map, !length_app.
  reflexivity.
Qed.

(** ** The expected state, by the shape of the cut *)

Lemma expected_state_orphans (ps : list primitive) :
  (cut section_heading ps).2 = [] ->
  expected_state ps =
  {| sections := orphan_sections (cut section_heading ps).1;
     current_section := None;
     current_subsection := None |}.
Proof.
  intros E. unfold expected_state, expected_section_ref, expected_subsection_ref,
    expected_sections.
  destruct (cut section_heading ps) as [pre gs]. simpl in *. subst gs. simpl.
  rewrite app_nil_r. reflexivity.
Qed.

Lemma expected_state_in_section (ps : list primitive) gs0 t0 body :
  (cut section_heading ps).2 = gs0 ++ [(t0, body)] ->
  let front := orphan_sections (cut section_heading ps).1 ++ map section_of gs0 in
  expected_state ps =
  {| sections := front ++ [ {| title := t0; subsections := expected_subsections body |} ];
     current_section := Some (length front);
     current_subsection :=
       if nonempty (cut subsection_heading body).2
       then Some (length front, pred (length (expected_subsections body)))
       else None |}.
Proof.
  intros E front. unfold expected_state, expected_section_ref, expected_subsection_ref,
    expected_sections.
  destruct (cut section_heading ps) as [pre gs]. simpl in *. subst gs.
  rewrite nonempty_snoc, last_snoc, map_app, app_assoc. simpl.
  fold section_of. fold front.
  rewrite length_app. simpl.
  replace (pred (length front + 1)) with (length front) by lia.
  reflexivity.
Qed.

Lemma expected_subsections_last (body : list primitive) :
  nonempty (cut subsection_heading body).2 = true ->
  exists subs sub, expected_subsections body = subs ++ [sub].
Proof.
  unfold expected_subsections. destruct (cut subsection_heading body) as [pre gs].
  simpl. destruct gs as [|g gs _] using rev_ind; [discriminate|]. intros _.
  rewrite map_app, app_assoc. simpl. eauto.
Qed.

(** ** The pass builds the expected tree *)

Lemma add_content_orphans (pre : list primitive) (p : primitive) (c : content_item) :
  content_of p = Some c ->
  _add_content c (orphan_sections pre) None None = Ok (orphan_sections (pre ++ [p])).
Proof.
  intros Hc. unfold orphan_sections. rewrite contents_snoc, Hc.
  destruct (contents pre) as [|c0 cs]; reflexivity.
Qed.

Lemma cut_snoc_heading {A H} (h : A -> option H) (l : list A) (a : A) (x : H) :
  h a = Some x -> cut h (l ++ [a]) = ((cut h l).1, (cut h l).2 ++ [(x, [])]).
Proof. intros E. rewrite cut_snoc, E. reflexivity. Qed.

Lemma cut_snoc_before {A H} (h : A -> option H) (l : list A) (a : A) :
  h a = None -> (cut h l).2 = [] -> cut h (l ++ [a]) = ((cut h l).1 ++ [a], []).
Proof. intros E E2. rewrite cut_snoc, E, E2. reflexivity. Qed.

Lemma cut_snoc_inside {A H} (h : A -> option H) (l : list A) (a : A) gs x body :
  h a = None -> (cut h l).2 = gs ++ [(x, body)] ->
  cut h (l ++ [a]) = ((cut h l).1, gs ++ [(x, body ++ [a])]).
Proof.
  intros E E2. rewrite cut_snoc, E, E2.
  destruct (gs ++ [(x, body)]) eqn:E'; [destruct gs; discriminate|].
  rewrite <- E', extend_last_snoc. reflexivity.
Qed.

Lemma classify_views (p : primitive) :
  match classify p with
  | Blank => section_heading p = None /\ subsection_heading p = None
             /\ content_of p = None
  | SectionHeading t => section_heading p = Some t
  | SubsectionLevel t => section_heading p = None /\ subsection_heading p = Some t
                         /\ content_of p = Some (Paragraph t)
  | Body c => section_heading p = None /\ subsection_heading p = None
              /\ content_of p = Some c
  end.
Proof.
  unfold section_heading, subsection_heading, content_of.
  destruct (classify p); auto.
Qed.

Lemma step_expected (ps : list primitive) (p : primitive) :
  step p (expected_state ps) = Ok (expected_state (ps ++ [p])).
Proof.
  rewrite step_classify. pose proof (classify_views p) as V.
  destruct (cut section_heading ps).2 as [|g gs _] eqn:E using rev_ind.
  - (* no section heading so far *)
    rewrite (expected_state_orphans ps E).
    destruct (classify p) as [ | t | t | c].
    + destruct V as (Hsec & Hs & Hc).
      pose proof (cut_snoc_before _ ps p Hsec E) as Ecut.
      rewrite (expected_state_orphans (ps ++ [p])) by (rewrite Ecut; reflexivity).
      rewrite Ecut. simpl.
      unfold orphan_sections. rewrite contents_snoc, Hc, app_nil_r. reflexivity.
    + pose proof (cut_snoc_heading _ ps p t V) as Ecut. rewrite E in Ecut.
      rewrite (expected_state_in_section (ps ++ [p]) [] t [])
        by (rewrite Ecut; reflexivity).
      rewrite Ecut. simpl. unfold open_section. simpl. rewrite !app_nil_r.
      reflexivity.
    + destruct V as (Hsec & Hs & Hc).
      pose proof (cut_snoc_before _ ps p Hsec E) as Ecut.
      rewrite (expected_state_orphans (ps ++ [p])) by (rewrite Ecut; reflexivity).
      rewrite Ecut. simpl. unfold add_content_here. simpl.
      rewrite (add_content_orphans _ p _ Hc). reflexivity.
    + destruct V as (Hsec & Hs & Hc).
      pose proof (cut_snoc_before _ ps p Hsec E) as Ecut.
      rewrite (expected_state_orphans (ps ++ [p])) by (rewrite Ecut; reflexivity).
      rewrite Ecut. simpl. unfold add_content_here. simpl.
      rewrite (add_content_orphans _ p _ Hc). reflexivity.
  - (* inside the section opened by the last heading *)
    destruct g as [t0 body].
    rewrite (expected_state_in_section ps gs t0 body E).
    set (front := orphan_sections (cut section_heading ps).1 ++ map section_of gs).
    destruct (classify p) as [ | t | t | c].
    + destruct V as (Hsec & Hs & Hc).
      pose proof (cut_snoc_inside _ ps p gs t0 body Hsec E) as Ecut.
      rewrite (expected_state_in_section (ps ++ [p]) gs t0 (body ++ [p]))
        by (rewrite Ecut; reflexivity).
      rewrite Ecut. simpl. fold front.
      rewrite (expected_subsections_blank body p Hs Hc).
      destruct (expected_subsections_ref_content body p Hs) as [-> _].
      reflexivity.
    + pose proof (cut_snoc_heading _ ps p t V) as Ecut. rewrite E in Ecut.
      rewrite (expected_state_in_section (ps ++ [p]) (gs ++ [(t0, body)]) t [])
        by (rewrite Ecut; reflexivity).
      rewrite Ecut. simpl. unfold open_section. simpl.
      rewrite map_app, !app_assoc. reflexivity.
    + (* a subsection heading under the current section *)
      destruct V as (Hsec & Hs & Hc).
      pose proof (cut_snoc_inside _ ps p gs t0 body Hsec E) as Ecut.
      rewrite (expected_state_in_section (ps ++ [p]) gs t0 (body ++ [p]))
        by (rewrite Ecut; reflexivity).
      rewrite Ecut. simpl. fold front.
      unfold open_subsection. simpl.
      rewrite lookup_snoc_at_length, alter_snoc_at_length. simpl.
      rewrite (expected_subsections_heading body p t Hs).
      rewrite (cut_snoc_heading _ body p t Hs). simpl.
      rewrite nonempty_snoc, length_app. simpl.
      replace (pred (length (expected_subsections body) + 1))
        with (length (expected_subsections body)) by lia.
      reflexivity.
    + (* a content item under the current section *)
      destruct V as (Hsec & Hs & Hc).
      pose proof (cut_snoc_inside _ ps p gs t0 body Hsec E) as Ecut.
      rewrite (expected_state_in_section (ps ++ [p]) gs t0 (body ++ [p]))
        by (rewrite Ecut; reflexivity).
      rewrite Ecut. simpl. fold front.
      destruct (expected_subsections_ref_content body p Hs) as [Hne Hlen].
      rewrite Hne, (expected_subsections_content body p c Hs Hc).
      unfold add_content_here, _add_content. simpl.
      destruct (nonempty (cut subsection_heading body).2) eqn:N; simpl.
      * destruct (expected_subsections_last body N) as (subs & sub & Esubs).
        rewrite Esubs, lookup_snoc_at_length. simpl.
        rewrite length_app. simpl.
        replace (pred (length subs + 1)) with (length subs) by lia.
        rewrite lookup_snoc_at_length, alter_snoc_at_length, nonempty_snoc.
        unfold with_subsections. simpl.
        rewrite alter_snoc_at_length, alter_last_snoc.
        rewrite length_app. simpl.
        replace (pred (length subs + 1)) with (length subs) by lia.
        reflexivity.
      * rewrite lookup_snoc_at_length, alter_snoc_at_length. reflexivity.
Qed.

Lemma for_each_app {A St} (f : A -> St -> result St) (l1 l2 : list A) (s : St) :
  for_each f (l1 ++ l2) s = for_each f l1 s ≫= for_each f l2.
Proof.
  revert s. induction l1 as [|a l1 IH]; intros s; simpl; [reflexivity|].
  destruct (f a s) as [s'|e]; simpl; [apply IH|reflexivity].
Qed.

Lemma infer_from_app (ps1 ps2 : list primitive) (st : state) :
  infer_from (ps1 ++ ps2) st = infer_from ps1 st ≫= infer_from ps2.
Proof. apply for_each_app. Qed.

(** The pass over a stream ends in the expected state: it never raises, and
    the tree it leaves is the one assembled from the cut stream. *)
Lemma infer_expected (ps : list primitive) : infer ps = Ok (expected_state ps).
Proof.
  induction ps as [|p ps IH] using rev_ind; [reflexivity|].
  unfold infer in *. rewrite infer_from_app, IH. simpl.
  unfold infer_from. simpl. rewrite step_expected. reflexivity.
Qed.

(** ** The nested loops and the stream *)

Lemma for_each_spans (spans : list span) (st : state) :
  for_each process_span spans st = infer_from (map TextRun spans) st.
Proof.
  unfold infer_from. revert st.
  induction spans as [|sp spans IH]; intros st; simpl; [reflexivity|].
  destruct (process_span sp st); simpl; [apply IH|reflexivity].
Qed.

Lemma for_each_lines (lines : list (list span)) (st : state) :
  for_each (fun line st => for_each process_span line st) lines st
  = infer_from (map TextRun (concat lines)) st.
Proof.
  revert st. induction lines as [|ln lines IH]; intros st; simpl; [reflexivity|].
  rewrite map_app, infer_from_app, for_each_spans.
  destruct (infer_from (map TextRun ln) st); simpl; [apply IH|reflexivity].
Qed.

Lemma process_block_stream (page_num : nat) (b : block) (st : state) :
  process_block page_num b st = infer_from (primitives_of_block page_num b) st.
Proof.
  unfold process_block, primitives_of_block.
  destruct (block_type b =? 0)%Z; [apply for_each_lines|].
  destruct (block_type b =? 1)%Z; [|reflexivity].
  unfold infer_from. simpl. destruct (add_content_here _ st); reflexivity.
Qed.

Lemma for_each_blocks (page_num : nat) (bs : list block) (st : state) :
  for_each (process_block page_num) bs st
  = infer_from (flat_map (primitives_of_block page_num) bs) st.
Proof.
  revert st. induction bs as [|b bs IH]; intros st; simpl; [reflexivity|].
  rewrite infer_from_app, process_block_stream.
  destruct (infer_from _ st); simpl; [apply IH|reflexivity].
Qed.

Lemma for_enumerate_tables (page_num i : nat) (ts : list (list (list (option str))))
    (st : state) :
  for_enumerate
    (fun table_num extract st =>
       add_content_here (make_table_data page_num table_num extract) st) i ts st
  = infer_from
      (imap (fun k extract => Item (make_table_data page_num (i + k) extract)) ts) st.
Proof.
  revert i st. induction ts as [|t ts IH]; intros i st; [reflexivity|].
  unfold infer_from. simpl.
  rewrite Nat.add_0_r. destruct (add_content_here _ st) as [st'|e]; simpl; [|reflexivity].
  rewrite IH. unfold infer_from. f_equal. apply imap_ext. intros k x _. simpl.
  f_equal. f_equal. lia.
Qed.

Lemma process_page_stream (page_num : nat) (p : page) (st : state) :
  process_page page_num p st = infer_from (primitives_of_page page_num p) st.
Proof.
  unfold process_page, primitives_of_page.
  rewrite infer_from_app, for_each_blocks.
  destruct (infer_from _ st) as [st'|e]; simpl; [|reflexivity].
  apply for_enumerate_tables.
Qed.

(** The loop over the pages is the pass over the stream of the document. *)
Lemma pages_stream (i : nat) (pgs : list page) (st : state) :
  for_enumerate process_page i pgs st = infer_from (primitives_from i pgs) st.
Proof.
  revert i st. induction pgs as [|p pgs IH]; intros i st; simpl; [reflexivity|].
  rewrite infer_from_app, process_page_stream.
  destruct (infer_from _ st); simpl; [apply IH|reflexivity].
Qed.

(** ** The classification of a text run *)

(** [font_flags & 2**4] is true exactly when bit 4 of the flags is set. *)
Lemma truthy_land_bit (flags : Z) :
  truthy (Z.land flags (2 ^ 4)) = Z.testbit flags 4.
Proof.
  unfold truthy. destruct (Z.testbit flags 4) eqn:B.
  - apply negb_true_iff, Z.eqb_neq. intros E.
    assert (T : Z.testbit (Z.land flags (2 ^ 4)) 4 = true).
    { rewrite Z.land_spec, B. reflexivity. }
    rewrite E in T. discriminate.
  - apply negb_false_iff, Z.eqb_eq. apply Z.bits_inj'. intros n Hn.
    rewrite Z.land_spec, Z.bits_0, Z.pow2_bits_eqb by lia.
    destruct (Z.eqb_spec 4 n) as [<-|]; [rewrite B; reflexivity|].
    apply andb_false_r.
Qed.

Lemma nonempty_strip (s : str) : s <> [] -> negb (nonempty s) = false.
Proof. destruct s; [congruence|reflexivity]. Qed.

(** C1. A text run whose stripped text is not empty is a section heading
    exactly when its size is above 16, or it is bold and its size is above
    12; then a section with this title and no subsection is appended, the
    section reference points at it and the subsection reference is cleared;
    otherwise the run goes on to the other two branches.  The comparison is
    strict: size 16 without bold is no heading, size 16 + 0.01 (in binary64
    the float nearest to 16.01) is one. *)
Theorem section_heading_rule (sp : span) (st : state) :
  strip (span_text sp) <> [] ->
  let text := strip (span_text sp) in
  let is_bold := Z.testbit (span_flags sp) 4 in
  let heading :=
    ((16 <? span_size sp)%float || is_bold && (12 <? span_size sp)%float) in
  (classify (TextRun sp) = SectionHeading text <-> heading = true)
  /\ process_span sp st =
     (if heading then
        Ok {| sections := sections st ++ [ {| title := text; subsections := [] |} ];
              current_section := Some (length (sections st));
              current_subsection := None |}
      else if subsection_level (span_size sp) (Z.land (span_flags sp) (2 ^ 4))
              && bool_decide (is_Some (current_section st))
      then open_subsection text st
      else add_content_here (Paragraph text) st)
  /\ (heading = true ->
      (sections st ++ [ {| title := text; subsections := [] |} ]) !! length (sections st)
      = Some {| title := text; subsections := [] |})
  /\ (span_size sp = 16%float -> is_bold = false -> heading = false)
  /\ (span_size sp = (16 + 1 / 100)%float -> heading = true).
Proof.
  intros Hne text is_bold heading.
  assert (Hh : section_level (span_size sp) (Z.land (span_flags sp) (2 ^ 4)) = heading).
  { unfold section_level, gt. rewrite truthy_land_bit. reflexivity. }
  subst text. repeat split.
  - unfold classify. rewrite (nonempty_strip _ Hne), Hh.
    destruct heading; [reflexivity|]. destruct (subsection_level _ _); discriminate.
  - intros H. unfold classify. rewrite (nonempty_strip _ Hne), Hh, H.
    reflexivity.
  - unfold process_span. rewrite (nonempty_strip _ Hne), Hh.
    destruct heading; reflexivity.
  - intros _. apply lookup_snoc_at_length.
  - intros Hs Hb. subst heading. rewrite Hs, Hb. reflexivity.
  - intros Hs. subst heading. rewrite Hs. reflexivity.
Qed.

Lemma section_heading_rule_witness :
  let sp := {| span_text := lit " Intro "; span_size := 18; span_flags := 0 |} in
  strip (span_text sp) <> []
  /\ process_span sp initial =
     Ok {| sections := [ {| title := lit "Intro"; subsections := [] |} ];
           current_section := Some 0;
           current_subsection := None |}.
Proof.
  intros sp.
  assert (H : strip (span_text sp) <> []) by (vm_compute; discriminate).
  split; [exact H|].
  exact (proj1 (proj2 (section_heading_rule sp initial H))).
Defined.

(** C8. A text run whose stripped text is empty is skipped: the tree and the
    two references are left as they were. *)
Theorem blank_run_skipped (sp : span) (st : state) :
  strip (span_text sp) = [] ->
  process_span sp st = Ok st /\ step (TextRun sp) st = Ok st.
Proof.
  intros H. unfold step, process_span. rewrite H. split; reflexivity.
Qed.

Lemma blank_run_skipped_witness :
  let sp := {| span_text := lit "  "; span_size := 20; span_flags := 16 |} in
  let st := {| sections := [ {| title := lit "A"; subsections := [] |} ];
               current_section := Some 0;
               current_subsection := None |} in
  strip (span_text sp) = [] /\ process_span sp st = Ok st.
Proof.
  intros sp st.
  assert (H : strip (span_text sp) = []) by reflexivity.
  split; [exact H|].
  exact (proj1 (blank_run_skipped sp st H)).
Defined.

(** C2. A text run that is not a section heading is a subsection heading
    exactly when its size is above 14, or it is bold and its size is above
    11, and a section is current: then a subsection with this title and no
    content is appended to the current section and becomes current.  With
    the same font and no current section, and in every other case, the run
    is handed to [_add_content] as a paragraph. *)
Theorem subsection_heading_rule (sp : span) (st : state) :
  strip (span_text sp) <> [] ->
  section_level (span_size sp) (Z.land (span_flags sp) (2 ^ 4)) = false ->
  let text := strip (span_text sp) in
  let is_bold := Z.testbit (span_flags sp) 4 in
  let sub_font :=
    ((14 <? span_size sp)%float || is_bold && (11 <? span_size sp)%float) in
  process_span sp st =
  match current_section st with
  | Some i =>
      if sub_font then
        match sections st !! i with
        | Some sec =>
            Ok {| sections :=
                    <[i := {| title := title sec;
                              subsections :=
                                subsections sec
                                ++ [ {| sub_title := text; content := [] |} ] |}]>
                      (sections st);
                  current_section := Some i;
                  current_subsection := Some (i, length (subsections sec)) |}
        | None => Raise BadReference
        end
      else add_content_here (Paragraph text) st
  | None => add_content_here (Paragraph text) st
  end.
Proof.
  intros Hne Hsec text is_bold sub_font. subst text.
  assert (Hh : subsection_level (span_size sp) (Z.land (span_flags sp) (2 ^ 4)) = sub_font).
  { unfold subsection_level, gt. rewrite truthy_land_bit. reflexivity. }
  unfold process_span. rewrite (nonempty_strip _ Hne), Hsec, Hh.
  destruct (current_section st) as [i|] eqn:Ei; simpl.
  - destruct sub_font; simpl; [|reflexivity].
    unfold open_subsection. rewrite Ei.
    destruct (sections st !! i) as [sec|] eqn:Es; [|reflexivity].
    do 2 f_equal. apply list_eq. intros k.
    rewrite list_lookup_alter, list_lookup_insert.
    destruct (decide (i = k)) as [<-|].
    + rewrite Es. simpl. rewrite decide_True; [reflexivity|].
      split; [reflexivity|]. apply lookup_lt_is_Some. eauto.
    + rewrite decide_False by tauto. reflexivity.
  - rewrite andb_false_r. reflexivity.
Qed.

Lemma subsection_heading_rule_witness :
  let sp := {| span_text := lit "Scope"; span_size := 15; span_flags := 0 |} in
  let st := {| sections := [ {| title := lit "Intro"; subsections := [] |} ];
               current_section := Some 0;
               current_subsection := None |} in
  (strip (span_text sp) <> []
   /\ section_level (span_size sp) (Z.land (span_flags sp) (2 ^ 4)) = false)
  /\ process_span sp st =
     Ok {| sections :=
             [ {| title := lit "Intro";
                  subsections := [ {| sub_title := lit "Scope"; content := [] |} ] |} ];
           current_section := Some 0;
           current_subsection := Some (0, 0) |}.
Proof.
  intros sp st.
  assert (H1 : strip (span_text sp) <> []) by (vm_compute; discriminate).
  assert (H2 : section_level (span_size sp) (Z.land (span_flags sp) (2 ^ 4)) = false)
    by reflexivity.
  split; [split; [exact H1|exact H2]|].
  exact (subsection_heading_rule sp st H1 H2).
Defined.

(** ** The attachment of a content item *)

Lemma alter_as_insert {A} (f : A -> A) (l : list A) (i : nat) (x : A) :
  l !! i = Some x -> alter f i l = <[i := f x]> l.
Proof.
  intros E. apply list_eq. intros k.
  rewrite list_lookup_alter, list_lookup_insert.
  destruct (decide (i = k)) as [<-|].
  - rewrite E. simpl. rewrite decide_True; [reflexivity|].
    split; [reflexivity|]. apply lookup_lt_is_Some. eauto.
  - rewrite decide_False by tauto. reflexivity.
Qed.

(** C3, with the title the code gives the default subsection.  A content
    item goes to the current subsection when there is one.  Otherwise, with
    a current section: when that section has no subsection, one subsection
    titled "Contenu" is created under it and receives the item; when it has
    subsections, the item goes to the last of them. *)
Theorem attachment_rule (c : content_item) (secs : list section) (i : nat)
    (sec : section) :
  secs !! i = Some sec ->
  (forall (j : nat) (sub : subsection) (section_ref : option nat),
      subsections sec !! j = Some sub ->
      _add_content c secs section_ref (Some (i, j)) =
      Ok (<[i := {| title := title sec;
                    subsections :=
                      <[j := {| sub_title := sub_title sub;
                                content := content sub ++ [c] |}]>
                        (subsections sec) |}]> secs))
  /\ (subsections sec = [] ->
      _add_content c secs (Some i) None =
      Ok (<[i := {| title := title sec;
                    subsections :=
                      [ {| sub_title := lit "Contenu"; content := [c] |} ] |}]> secs))
  /\ (forall (subs : list subsection) (sub : subsection),
      subsections sec = subs ++ [sub] ->
      _add_content c secs (Some i) None =
      Ok (<[i := {| title := title sec;
                    subsections :=
                      subs ++ [ {| sub_title := sub_title sub;
                                   content := content sub ++ [c] |} ] |}]> secs)).
Proof.
  intros Es. repeat split.
  - intros j sub r Ej. unfold _add_content. rewrite Es, Ej.
    rewrite (alter_as_insert _ _ _ _ Es). unfold with_subsections.
    rewrite (alter_as_insert _ _ _ _ Ej). reflexivity.
  - intros E. unfold _add_content. rewrite Es, (alter_as_insert _ _ _ _ Es).
    unfold add_to_section. rewrite E. reflexivity.
  - intros subs sub E. unfold _add_content.
    rewrite Es, (alter_as_insert _ _ _ _ Es).
    unfold add_to_section. rewrite E, nonempty_snoc, alter_last_snoc. reflexivity.
Qed.

Lemma attachment_rule_witness :
  let c := Paragraph (lit "hello") in
  let sec := {| title := lit "Intro"; subsections := [] |} in
  [sec] !! 0 = Some sec
  /\ _add_content c [sec] (Some 0) None =
     Ok [ {| title := lit "Intro";
             subsections := [ {| sub_title := lit "Contenu"; content := [c] |} ] |} ].
Proof.
  intros c sec.
  assert (H : [sec] !! 0 = Some sec) by reflexivity.
  split; [exact H|].
  exact (proj1 (proj2 (attachment_rule c [sec] 0 sec H)) eq_refl).
Defined.

(** The default subsection is not titled "Content". *)
Lemma default_subsection_not_Content :
  let c := Paragraph (lit "hello") in
  let sec := {| title := lit "Intro"; subsections := [] |} in
  _add_content c [sec] (Some 0) None =
    Ok [ {| title := lit "Intro";
            subsections := [ {| sub_title := lit "Contenu"; content := [c] |} ] |} ]
  /\ _add_content c [sec] (Some 0) None <>
    Ok [ {| title := lit "Intro";
            subsections := [ {| sub_title := lit "Content"; content := [c] |} ] |} ].
Proof. split; [reflexivity|]. vm_compute. discriminate. Qed.

(** ** Content that arrives before any section heading *)

Lemma cut_no_heading {A H} (h : A -> option H) (l : list A) :
  omap h l = [] -> cut h l = (l, []).
Proof.
  induction l as [|a l IH]; simpl; [reflexivity|].
  destruct (h a); [discriminate|]. intros E. rewrite (IH E). reflexivity.
Qed.

Lemma cut_headings {A H} (h : A -> option H) (l : list A) :
  map fst (cut h l).2 = omap h l.
Proof.
  induction l as [|a l IH]; simpl; [reflexivity|].
  destruct (cut h l) as [pre gs]. simpl in IH.
  destruct (h a); simpl; [f_equal|]; exact IH.
Qed.

(** C4, with the titles the code gives the default pair.  With no current
    section and no section at all, a section titled "Contenu principal" with
    one subsection titled "Introduction" is created and receives the item;
    with no current section and some section, the item goes to the last
    subsection of the last section and nothing is created.  So a stream
    without section heading leaves at most one default pair, which holds all
    its items in order. *)
Theorem orphan_attachment (c : content_item) :
  _add_content c [] None None =
    Ok [ {| title := lit "Contenu principal";
            subsections := [ {| sub_title := lit "Introduction"; content := [c] |} ] |} ]
  /\ (forall (secs : list section) (sec : section) (subs : list subsection)
             (sub : subsection),
        subsections sec = subs ++ [sub] ->
        _add_content c (secs ++ [sec]) None None =
          Ok (secs ++ [ {| title := title sec;
                           subsections :=
                             subs ++ [ {| sub_title := sub_title sub;
                                          content := content sub ++ [c] |} ] |} ]))
  /\ (forall ps : list primitive,
        section_headings ps = [] ->
        infer ps =
          Ok {| sections :=
                  if nonempty (contents ps)
                  then [ {| title := lit "Contenu principal";
                            subsections :=
                              [ {| sub_title := lit "Introduction";
                                   content := contents ps |} ] |} ]
                  else [];
                current_section := None;
                current_subsection := None |}).
Proof.
  repeat split.
  - intros secs sec subs sub E. unfold _add_content.
    rewrite nonempty_snoc, last_snoc, E, last_snoc, alter_last_snoc.
    unfold with_subsections. rewrite E, alter_last_snoc. reflexivity.
  - intros ps E. rewrite infer_expected.
    pose proof (cut_no_heading section_heading ps E) as Ecut.
    rewrite expected_state_orphans by (rewrite Ecut; reflexivity).
    rewrite Ecut. reflexivity.
Qed.

Lemma orphan_attachment_witness :
  let t := Table {| caption := lit "T1"; headers := [lit "a"]; rows := [[lit "1"]] |} in
  let c := Paragraph (lit "after") in
  section_headings [Item t; Item c] = []
  /\ infer [Item t; Item c] =
       Ok {| sections :=
               [ {| title := lit "Contenu principal";
                    subsections :=
                      [ {| sub_title := lit "Introduction"; content := [t; c] |} ] |} ];
             current_section := None;
             current_subsection := None |}.
Proof.
  intros t c.
  assert (H : section_headings [Item t; Item c] = []) by reflexivity.
  split; [exact H|].
  exact (proj2 (proj2 (orphan_attachment c)) [Item t; Item c] H).
Defined.

(** The default pair is not titled "Main content". *)
Lemma default_section_not_Main_content :
  let t := Table {| caption := lit "T1"; headers := [lit "a"]; rows := [[lit "1"]] |} in
  infer [Item t] =
    Ok {| sections :=
            [ {| title := lit "Contenu principal";
                 subsections :=
                   [ {| sub_title := lit "Introduction"; content := [t] |} ] |} ];
          current_section := None;
          current_subsection := None |}
  /\ infer [Item t] <>
    Ok {| sections :=
            [ {| title := lit "Main content";
                 subsections :=
                   [ {| sub_title := lit "Introduction"; content := [t] |} ] |} ];
          current_section := None;
          current_subsection := None |}.
Proof. split; [reflexivity|]. vm_compute. discriminate. Qed.

(** ** Totality *)

(** The pass returns a state for every stream of primitives, and so does
    the loop over the pages of any document; on the empty stream the tree
    has no section. *)
Lemma inference_total (ps : list primitive) (pgs : list page) :
  (exists st, infer ps = Ok st)
  /\ (exists st, for_enumerate process_page 0 pgs initial = Ok st)
  /\ infer [] = Ok {| sections := []; current_section := None;
                      current_subsection := None |}.
Proof.
  repeat split.
  - eexists. apply infer_expected.
  - rewrite pages_stream. eexists. apply infer_expected.
Qed.

(** C5, where the code fails it.  A document without page and without title
    in its metadata has the empty stream of primitives.  The pass over the
    empty stream returns the tree without section, but
    [_analyze_with_pymupdf] does not reach the pass: the lookup of the first
    page for the title (line 84) comes first and raises. *)
Theorem empty_document_raises (now : str) :
  let doc := {| meta_title := None; meta_author := None; meta_subject := None;
                pages := [] |} in
  primitives_of doc = []
  /\ infer (primitives_of doc) = Ok initial
  /\ _analyze_with_pymupdf now doc = Raise IndexError.
Proof. intros doc. repeat split. Qed.

(** The whole function returns whenever the title lookup does: for a
    document with a page, or with a title in its metadata. *)
Lemma analyze_returns (now : str) (doc : document) :
  pages doc <> [] \/ (exists c t, meta_title doc = Some (c :: t)) ->
  exists s, _analyze_with_pymupdf now doc = Ok s
            /\ doc_sections s = expected_sections (primitives_of doc).
Proof.
  intros H. unfold _analyze_with_pymupdf.
  assert (Ht : exists t, resolve_title doc = Ok t).
  { unfold resolve_title. destruct H as [H|(c & t & H)].
    - destruct (negb _); [|eauto]. destruct (pages doc); [congruence|eauto].
    - rewrite H. simpl. eauto. }
  destruct Ht as [t ->]. simpl.
  rewrite pages_stream. fold (primitives_of doc). fold (infer (primitives_of doc)).
  rewrite infer_expected. simpl. eauto.
Qed.

(** ** The fallback indexing *)

(** C10. In every state the pass reaches, when both references are unset
    and there is a section, the last section has a subsection; so the double
    indexing of the fallback branch of [_add_content] does not raise. *)
Theorem fallback_indexing_safe (ps : list primitive) (st : state) (c : content_item) :
  infer ps = Ok st ->
  current_section st = None ->
  current_subsection st = None ->
  sections st <> [] ->
  (exists sec sub, last (sections st) = Some sec /\ last (subsections sec) = Some sub)
  /\ (exists secs,
        _add_content c (sections st) (current_section st) (current_subsection st)
        = Ok secs).
Proof.
  rewrite infer_expected. intros [= <-] Hsec _ Hne.
  assert (E : (cut section_heading ps).2 = []).
  { unfold expected_state, expected_section_ref in Hsec. simpl in Hsec.
    destruct (cut section_heading ps).2; [reflexivity|discriminate]. }
  rewrite (expected_state_orphans ps E) in *. simpl in *.
  unfold orphan_sections in *.
  destruct (nonempty (contents (cut section_heading ps).1)); [|congruence].
  split; [eauto|]. unfold _add_content. simpl. eauto.
Qed.

Lemma fallback_indexing_safe_witness :
  let ps := [Item (Paragraph (lit "orphan"))] in
  let st := {| sections :=
                 [ {| title := lit "Contenu principal";
                      subsections :=
                        [ {| sub_title := lit "Introduction";
                             content := [Paragraph (lit "orphan")] |} ] |} ];
               current_section := None;
               current_subsection := None |} in
  (infer ps = Ok st /\ current_section st = None /\ current_subsection st = None
   /\ sections st <> [])
  /\ (exists secs, _add_content (Paragraph (lit "next")) (sections st) None None = Ok secs).
Proof.
  intros ps st.
  assert (H1 : infer ps = Ok st) by reflexivity.
  assert (H2 : sections st <> []) by discriminate.
  split; [exact (conj H1 (conj eq_refl (conj eq_refl H2)))|].
  exact (proj2 (fallback_indexing_safe ps st (Paragraph (lit "next")) H1 eq_refl eq_refl H2)).
Defined.

(** ** The order of sections and subsections *)

Lemma expected_subsections_titles (body : list primitive) :
  map sub_title (expected_subsections body) =
  (if nonempty (contents (cut subsection_heading body).1)
   then [lit "Contenu"] else [])
  ++ subsection_headings body.
Proof.
  unfold expected_subsections, subsection_headings.
  rewrite <- (cut_headings subsection_heading body).
  destruct (cut subsection_heading body) as [pre gs]. simpl.
  rewrite map_app, map_map. simpl.
  destruct (nonempty (contents pre)); reflexivity.
Qed.

Lemma expected_sections_titles (ps : list primitive) :
  map title (expected_sections ps) =
  (if nonempty (contents (cut section_heading ps).1)
   then [lit "Contenu principal"] else [])
  ++ section_headings ps.
Proof.
  unfold expected_sections, section_headings, orphan_sections.
  rewrite <- (cut_headings section_heading ps).
  destruct (cut section_heading ps) as [pre gs]. simpl.
  rewrite map_app, map_map. simpl.
  destruct (nonempty (contents pre)); reflexivity.
Qed.

Lemma expected_sections_split (ps : list primitive) :
  expected_sections ps =
  orphan_sections (cut section_heading ps).1
  ++ map section_of (cut section_heading ps).2.
Proof.
  unfold expected_sections. destruct (cut section_heading ps). reflexivity.
Qed.

(** What is built before a section heading stays as it is. *)
Lemma expected_sections_frozen (ps1 ps2 : list primitive) (p : primitive) :
  section_heading p <> None ->
  expected_sections (ps1 ++ p :: ps2) =
  expected_sections ps1 ++ expected_sections (p :: ps2).
Proof.
  intros Hp. rewrite !expected_sections_split, cut_app. simpl.
  destruct (section_heading p) as [t|]; [|congruence].
  destruct (cut section_heading ps2) as [pre2 gs2].
  destruct (cut section_heading ps1) as [pre1 gs1]. simpl.
  destruct gs1 as [|g gs1]; simpl.
  - rewrite !app_nil_r. reflexivity.
  - rewrite extend_last_nil, map_app, app_assoc. reflexivity.
Qed.

(** C6. The sections stand in the order of the section headings of the
    stream, after the default section when content precedes the first
    heading; under each heading the subsections stand in the order of the
    subsection headings that follow it, after the default subsection when
    content precedes the first of them; and all that was built before a
    section heading is found unchanged in the final tree, so nothing that
    comes after the heading is attached to an earlier subsection. *)
Theorem headings_in_stream_order (ps : list primitive) :
  exists st, infer ps = Ok st
  /\ map title (sections st) =
     (if nonempty (contents (cut section_heading ps).1)
      then [lit "Contenu principal"] else [])
     ++ section_headings ps
  /\ Forall2
       (fun sec g =>
          title sec = g.1
          /\ map sub_title (subsections sec) =
             (if nonempty (contents (cut subsection_heading g.2).1)
              then [lit "Contenu"] else [])
             ++ subsection_headings g.2)
       (drop (length (orphan_sections (cut section_heading ps).1)) (sections st))
       (cut section_heading ps).2
  /\ (forall (ps1 ps2 : list primitive) (p : primitive) (st1 : state),
        ps = ps1 ++ p :: ps2 ->
        section_heading p <> None ->
        infer ps1 = Ok st1 ->
        exists later, sections st = sections st1 ++ later).
Proof.
  exists (expected_state ps). split; [apply infer_expected|]. simpl.
  split; [apply expected_sections_titles|]. split.
  - rewrite expected_sections_split, drop_app_length.
    apply Forall2_fmap_l, Forall_Forall2_diag, Forall_forall. intros g _.
    split; [reflexivity|]. apply expected_subsections_titles.
  - intros ps1 ps2 p st1 -> Hp. rewrite infer_expected. intros [= <-]. simpl.
    rewrite (expected_sections_frozen _ _ _ Hp). eauto.
Qed.

Lemma headings_in_stream_order_witness :
  let run t size := TextRun {| span_text := t; span_size := size; span_flags := 0 |} in
  let ps := [ run (lit "A") 18%float; run (lit "a1") 15%float;
              Item (Paragraph (lit "x"));
              run (lit "B") 18%float; run (lit "b1") 15%float;
              run (lit "b2") 15%float ] in
  exists st, infer ps = Ok st
  /\ map title (sections st) = [lit "A"; lit "B"]
  /\ map (fun sec => map sub_title (subsections sec)) (sections st)
     = [ [lit "a1"]; [lit "b1"; lit "b2"] ].
Proof.
  intros run ps.
  destruct (headings_in_stream_order ps) as (st & H & Ht & _).
  exists st. split; [exact H|]. split; [exact Ht|].
  assert (E : Ok st = Ok (expected_state ps))
    by (rewrite <- H; reflexivity).
  injection E as ->. reflexivity.
Defined.

(** ** The title *)

Lemma split_first_line (s : str) :
  match split 10 s with w :: _ => w | [] => [] end = first_line s.
Proof.
  induction s as [|c s IH]; simpl; [reflexivity|].
  destruct (c =? 10)%N; [reflexivity|].
  destruct (split 10 s); simpl in *; [rewrite <- IH|rewrite IH]; reflexivity.
Qed.

Lemma nonempty_take (s : str) (n : nat) : nonempty (take (S n) s) = nonempty s.
Proof. destruct s; reflexivity. Qed.

(** C7, as the code resolves the title.  A title that is present and not
    empty in the metadata is the title.  Otherwise, for a document with a
    first page, the title is what precedes the first line break in the first
    100 characters of the text of the first page, and "Document sans titre"
    when that page has no text.  The structure returned carries this
    title. *)
Theorem title_resolution (doc : document) :
  (forall t : str, meta_title doc = Some t -> t <> [] -> resolve_title doc = Ok t)
  /\ (forall (p : page) (rest : list page),
        meta_title doc = None \/ meta_title doc = Some [] ->
        pages doc = p :: rest ->
        resolve_title doc =
        Ok (if nonempty (page_text p)
            then first_line (take 100 (page_text p))
            else lit "Document sans titre"))
  /\ (forall (now : str) (s : structure),
        _analyze_with_pymupdf now doc = Ok s -> resolve_title doc = Ok (doc_title s)).
Proof.
  repeat split.
  - intros t E Hne. unfold resolve_title. rewrite E. simpl.
    destruct t; [congruence|reflexivity].
  - intros p rest Hm Hp. unfold resolve_title.
    replace (default [] (meta_title doc)) with (@nil N)
      by (destruct Hm as [-> | ->]; reflexivity).
    simpl. rewrite Hp, nonempty_take, split_first_line. reflexivity.
  - intros now s. unfold _analyze_with_pymupdf.
    destruct (resolve_title doc) as [t|e]; simpl; [|discriminate].
    destruct (for_enumerate _ _ _ _); simpl; [|discriminate].
    intros [= <-]. reflexivity.
Qed.

Lemma title_resolution_witness :
  let p := {| page_text := lit "Rapport annuel" ++ [10%N] ++ lit "2024";
              page_blocks := []; page_tables := [] |} in
  let doc := {| meta_title := Some []; meta_author := None; meta_subject := None;
                pages := [p] |} in
  (meta_title doc = Some [] /\ pages doc = [p])
  /\ resolve_title doc = Ok (lit "Rapport annuel").
Proof.
  intros p doc.
  split; [split; reflexivity|].
  exact (proj1 (proj2 (title_resolution doc)) p [] (or_intror eq_refl) eq_refl).
Defined.

(** The title does not come from the first text-bearing primitive of the
    document: a document whose first page is blank gets the placeholder,
    whatever text its later pages carry. *)
Lemma title_ignores_later_pages :
  let hello := {| span_text := lit "Hello"; span_size := 10; span_flags := 0 |} in
  let blank := {| page_text := []; page_blocks := []; page_tables := [] |} in
  let second :=
    {| page_text := lit "Hello" ++ [10%N];
       page_blocks := [ {| block_type := 0; block_lines := [[hello]];
                           block_width := None; block_height := None |} ];
       page_tables := [] |} in
  let doc := {| meta_title := None; meta_author := None; meta_subject := None;
                pages := [blank; second] |} in
  primitives_of doc = [TextRun hello]
  /\ resolve_title doc = Ok (lit "Document sans titre")
  /\ resolve_title doc <> Ok (lit "Hello")
  /\ resolve_title doc <> Ok (lit "Untitled document").
Proof.
  repeat split; try reflexivity; vm_compute; discriminate.
Qed.

(** ** The persisted form is read back as it was written *)

Lemma skip_ws_newline_indent (level : nat) (s : str) :
  Json.skip_ws (Json.newline_indent level ++ s) = Json.skip_ws s.
Proof.
  unfold Json.newline_indent. generalize (2 * level). intros n.
  change (Json.skip_ws (repeat 32%N n ++ s) = Json.skip_ws s).
  induction n as [|n IH]; simpl; [reflexivity|exact IH].
Qed.

Lemma skip_ws_start (c : N) (s : str) :
  Json.is_ws c = false -> Json.skip_ws (c :: s) = c :: s.
Proof. intros H. simpl. rewrite H. reflexivity. Qed.

(** Settle a goal about [c] for each member of a list of constants that
    [c] is known to belong to. *)
Tactic Notation "each_case" hyp(E) tactic3(tac) :=
  simpl in E; repeat (destruct E as [<-|E]; [tac|]); destruct E.

(** A control character is written as a [\u00XX] escape and read back. *)
Lemma scan_control (c : N) (fuel : nat) (s : str) :
  (c < 32)%N ->
  Json.scan_string (S fuel) (Json.escape_char c ++ s) =
  '(t, rest) ← Json.scan_string fuel s; Some (c :: t, rest).
Proof.
  intros H.
  assert (E : In c (map N.of_nat (seq 0 32))).
  { apply in_map_iff. exists (N.to_nat c). split; [lia|]. apply in_seq. lia. }
  each_case E reflexivity.
Qed.

Lemma scan_plain (c : N) (fuel : nat) (s : str) :
  (32 <= c)%N ->
  Json.scan_string (S fuel) (Json.escape_char c ++ s) =
  '(t, rest) ← Json.scan_string fuel s; Some (c :: t, rest).
Proof.
  intros H.
  destruct (N.eq_dec c 34%N) as [->|H34]; [reflexivity|].
  destruct (N.eq_dec c 92%N) as [->|H92]; [reflexivity|].
  unfold Json.escape_char.
  repeat match goal with
         | |- context [(c =? ?k)%N] =>
             replace (c =? k)%N with false by (symmetry; apply N.eqb_neq; lia)
         end.
  replace (c <? 32)%N with false by (symmetry; apply N.ltb_ge; lia).
  simpl.
  replace (c =? 34)%N with false by (symmetry; apply N.eqb_neq; lia).
  replace (c =? 92)%N with false by (symmetry; apply N.eqb_neq; lia).
  replace (c <? 32)%N with false by (symmetry; apply N.ltb_ge; lia).
  reflexivity.
Qed.

Lemma escape_char_length (c : N) : 1 <= length (Json.escape_char c).
Proof.
  unfold Json.escape_char.
  repeat match goal with |- context [if ?b then _ else _] => destruct b end;
    simpl; lia.
Qed.

(** A string is read back from its quoted form. *)
Lemma scan_dump_string (s rest : str) (fuel : nat) :
  length s < fuel ->
  Json.scan_string fuel (flat_map Json.escape_char s ++ 34%N :: rest) = Some (s, rest).
Proof.
  revert fuel. induction s as [|c s IH]; intros fuel Hf.
  - destruct fuel; [lia|]. reflexivity.
  - destruct fuel; [simpl in Hf; lia|]. simpl flat_map. rewrite <- app_assoc.
    assert (Hs : length s < fuel) by (simpl in Hf; lia).
    destruct (N.lt_ge_cases c 32%N) as [Hc|Hc].
    + rewrite (scan_control c fuel _ Hc), (IH fuel Hs). reflexivity.
    + rewrite (scan_plain c fuel _ Hc), (IH fuel Hs). reflexivity.
Qed.

Lemma flat_map_escape_length (s : str) :
  length s <= length (flat_map Json.escape_char s).
Proof.
  induction s as [|c s IH]; simpl; [lia|].
  rewrite length_app. pose proof (escape_char_length c). lia.
Qed.

Lemma scan_dump_string_input (s rest : str) :
  Json.scan_string (length (flat_map Json.escape_char s ++ 34%N :: rest))
    (flat_map Json.escape_char s ++ 34%N :: rest) = Some (s, rest).
Proof.
  apply scan_dump_string. rewrite length_app. simpl.
  pose proof (flat_map_escape_length s). lia.
Qed.

Lemma scan_digits_uint (u : Decimal.uint) (rest : str) :
  number_end rest = true ->
  Json.scan_digits (lit (NilEmpty.string_of_uint u) ++ rest) = (u, rest).
Proof.
  intros Hr. unfold lit.
  induction u as [|u IH|u IH|u IH|u IH|u IH|u IH|u IH|u IH|u IH|u IH]; simpl;
    try (simpl in IH; rewrite IH; reflexivity).
  destruct rest as [|c r]; [reflexivity|]. simpl in *.
  destruct (Json.is_digit c); [discriminate|reflexivity].
Qed.

Lemma to_uint_no_leading_zero (p : positive) (u : Decimal.uint) :
  Pos.to_uint p <> Decimal.D0 u.
Proof.
  intros E.
  assert (N : Decimal.unorm (Pos.to_uint p) = Pos.to_uint p).
  { rewrite <- (DecimalPos.Unsigned.to_of (Pos.to_uint p)).
    rewrite DecimalPos.Unsigned.of_to. reflexivity. }
  rewrite E in N. change (Decimal.unorm (Decimal.D0 u)) with (Decimal.unorm u) in N.
  assert (H : u = Decimal.Nil \/ u <> Decimal.Nil)
    by (destruct u; [left; reflexivity|right; discriminate ..]).
  destruct H as [->|H]; [exact (DecimalPos.Unsigned.to_uint_nonzero p E)|].
  pose proof (DecimalFacts.nb_digits_unorm u H) as L.
  rewrite N in L. simpl in L. lia.
Qed.

Lemma number_end_float (rest : str) :
  number_end rest = true -> Json.float_follows rest = false.
Proof.
  destruct rest as [|c r]; [reflexivity|]. unfold number_end.
  destruct (Json.float_follows (c :: r)); [|reflexivity].
  rewrite andb_false_r. discriminate.
Qed.

Lemma scan_int_uint (u : Decimal.uint) (negative : bool) (rest : str) :
  u <> Decimal.Nil ->
  (forall u', u <> Decimal.D0 u') ->
  number_end rest = true ->
  Json.scan_int ((if negative then [45%N] else [])
                 ++ lit (NilEmpty.string_of_uint u) ++ rest)
  = Some (Z.of_int (if negative then Decimal.Neg u else Decimal.Pos u), rest).
Proof.
  intros Hnil Hzero Hr.
  pose proof (number_end_float rest Hr) as Hf.
  destruct u as [|u|u|u|u|u|u|u|u|u|u]; [congruence|exfalso; eapply Hzero; reflexivity|..];
    pose proof (scan_digits_uint u rest Hr) as Hd; unfold lit in Hd;
    destruct negative; unfold Json.scan_int, lit; simpl; simpl in Hd;
    rewrite Hd, Hf; reflexivity.
Qed.

(** An integer is read back from its decimal form. *)
Lemma scan_int_dump (n : Z) (rest : str) :
  number_end rest = true ->
  Json.scan_int (str_of_Z n ++ rest) = Some (n, rest).
Proof.
  intros Hr. rewrite <- (DecimalZ.of_to n) at 2. unfold str_of_Z.
  destruct n as [|p|p]; simpl Z.to_int.
  - unfold Json.scan_int. simpl. rewrite (number_end_float rest Hr). reflexivity.
  - pose proof (DecimalPos.Unsigned.to_uint_nonnil p) as Hnil.
    replace (NilZero.string_of_int (Decimal.Pos (Pos.to_uint p)))
      with (NilEmpty.string_of_uint (Pos.to_uint p))
      by (revert Hnil; destruct (Pos.to_uint p); intros Hnil; [congruence|reflexivity..]).
    apply (scan_int_uint (Pos.to_uint p) false rest Hnil); [|exact Hr].
    intros u'. apply to_uint_no_leading_zero.
  - pose proof (DecimalPos.Unsigned.to_uint_nonnil p) as Hnil.
    replace (lit (NilZero.string_of_int (Decimal.Neg (Pos.to_uint p))))
      with ([45%N] ++ lit (NilEmpty.string_of_uint (Pos.to_uint p)))
      by (revert Hnil; destruct (Pos.to_uint p); intros Hnil; [congruence|reflexivity..]).
    rewrite <- app_assoc.
    apply (scan_int_uint (Pos.to_uint p) true rest Hnil); [|exact Hr].
    intros u'. apply to_uint_no_leading_zero.
Qed.

Lemma string_of_uint_start (u : Decimal.uint) :
  u <> Decimal.Nil ->
  exists c t, lit (NilEmpty.string_of_uint u) = c :: t /\ Json.is_digit c = true.
Proof.
  destruct u; [congruence|..]; intros _; eexists _, _; split; reflexivity.
Qed.

Lemma str_of_Z_start (n : Z) :
  exists c t, str_of_Z n = c :: t /\ number_start c = true.
Proof.
  unfold str_of_Z. destruct n as [|p|p]; simpl Z.to_int.
  - eexists _, _. split; reflexivity.
  - pose proof (DecimalPos.Unsigned.to_uint_nonnil p) as Hnil.
    destruct (string_of_uint_start _ Hnil) as (c & t & E & Hc).
    exists c, t. split; [|unfold number_start; rewrite Hc; apply orb_true_r].
    rewrite <- E. revert Hnil. destruct (Pos.to_uint p); intros Hnil; [congruence|reflexivity..].
  - eexists _, _. split; reflexivity.
Qed.

Lemma number_start_cases (c : N) :
  number_start c = true -> In c (45%N :: map N.of_nat (seq 48 10)).
Proof.
  unfold number_start, Json.is_digit. intros H.
  apply orb_true_iff in H. destruct H as [H|H].
  - apply N.eqb_eq in H. left. congruence.
  - apply andb_true_iff in H. destruct H as [H1 H2].
    apply N.leb_le in H1, H2. right.
    apply in_map_iff. exists (N.to_nat c). split; [lia|]. apply in_seq. lia.
Qed.

Lemma parse_number (c : N) (r : str) (fuel : nat) :
  number_start c = true ->
  Json.parse (S fuel) Json.GValue (c :: r) =
  '(n, r') ← Json.scan_int (c :: r); Some (Json.PValue (Json.Int n), r').
Proof.
  intros H. pose proof (number_start_cases c H) as E.
  each_case E reflexivity.
Qed.

(** *** One step of the parser *)

Lemma skip_ws_idem (s : str) : Json.skip_ws (Json.skip_ws s) = Json.skip_ws s.
Proof.
  induction s as [|c s IH]; [reflexivity|]. simpl.
  destruct (Json.is_ws c) eqn:E; [exact IH|]. simpl. rewrite E. reflexivity.
Qed.

Lemma parse_value_ws (fuel : nat) (s : str) :
  Json.parse fuel Json.GValue s = Json.parse fuel Json.GValue (Json.skip_ws s).
Proof. destruct fuel; [reflexivity|]. simpl. rewrite skip_ws_idem. reflexivity. Qed.

Lemma parse_value_indent (fuel k : nat) (s : str) :
  Json.parse fuel Json.GValue (Json.newline_indent k ++ s)
  = Json.parse fuel Json.GValue s.
Proof.
  rewrite parse_value_ws, skip_ws_newline_indent, <- parse_value_ws. reflexivity.
Qed.

Lemma parse_string_step (fuel : nat) (r : str) :
  Json.parse (S fuel) Json.GValue (34%N :: r) =
  '(t, r') ← Json.scan_string (length r) r; Some (Json.PValue (Json.String t), r').
Proof. reflexivity. Qed.

Lemma parse_array_step (fuel : nat) (r : str) :
  Json.parse (S fuel) Json.GValue (91%N :: r) =
  match Json.skip_ws r with
  | c' :: r' =>
      if (c' =? 93)%N then Some (Json.PValue (Json.Array []), r')
      else match Json.parse fuel Json.GElements (c' :: r') with
           | Some (Json.PElements l, r'') => Some (Json.PValue (Json.Array l), r'')
           | _ => None
           end
  | [] => None
  end.
Proof. reflexivity. Qed.

Lemma parse_object_step (fuel : nat) (r : str) :
  Json.parse (S fuel) Json.GValue (123%N :: r) =
  match Json.skip_ws r with
  | c' :: r' =>
      if (c' =? 125)%N then Some (Json.PValue (Json.Object []), r')
      else match Json.parse fuel Json.GMembers (c' :: r') with
           | Some (Json.PMembers m, r'') => Some (Json.PValue (Json.Object m), r'')
           | _ => None
           end
  | [] => None
  end.
Proof. reflexivity. Qed.

Lemma parse_elements_step (fuel : nat) (s : str) :
  Json.parse (S fuel) Json.GElements s =
  match Json.parse fuel Json.GValue s with
  | Some (Json.PValue v, r) => after_element fuel v r
  | _ => None
  end.
Proof. reflexivity. Qed.

Lemma after_element_comma (fuel : nat) (v : Json.value) (s : str) :
  after_element fuel v ([44%N] ++ s) =
  match Json.parse fuel Json.GElements s with
  | Some (Json.PElements l, r) => Some (Json.PElements (v :: l), r)
  | _ => None
  end.
Proof. reflexivity. Qed.

Lemma after_element_close (fuel k : nat) (v : Json.value) (rest : str) :
  after_element fuel v (Json.newline_indent k ++ 93%N :: rest)
  = Some (Json.PElements [v], rest).
Proof. unfold after_element. rewrite skip_ws_newline_indent. reflexivity. Qed.

Lemma after_member_comma (fuel : nat) (k : str) (v : Json.value) (s : str) :
  after_member fuel k v ([44%N] ++ s) =
  match Json.parse fuel Json.GMembers s with
  | Some (Json.PMembers m, r) => Some (Json.PMembers ((k, v) :: m), r)
  | _ => None
  end.
Proof. reflexivity. Qed.

Lemma after_member_close (fuel n : nat) (k : str) (v : Json.value) (rest : str) :
  after_member fuel k v (Json.newline_indent n ++ 125%N :: rest)
  = Some (Json.PMembers [(k, v)], rest).
Proof. unfold after_member. rewrite skip_ws_newline_indent. reflexivity. Qed.

Lemma parse_elements_indent (fuel k : nat) (s : str) :
  Json.parse fuel Json.GElements (Json.newline_indent k ++ s)
  = Json.parse fuel Json.GElements s.
Proof.
  destruct fuel; [reflexivity|].
  rewrite !parse_elements_step, parse_value_indent. reflexivity.
Qed.

Lemma parse_members_step (fuel : nat) (r : str) :
  Json.parse (S fuel) Json.GMembers (34%N :: r) =
  match Json.scan_string (length r) r with
  | Some (k, r1) =>
      match Json.skip_ws r1 with
      | c1 :: r2 =>
          if (c1 =? 58)%N then
            match Json.parse fuel Json.GValue r2 with
            | Some (Json.PValue v, r3) => after_member fuel k v r3
            | _ => None
            end
          else None
      | [] => None
      end
  | None => None
  end.
Proof. reflexivity. Qed.

(** A member: its key, a colon and a space, its value. *)
Lemma parse_member (fuel : nat) (key : str) (x : Json.value) (level : nat) (tail : str) :
  (forall rest, number_end rest = true ->
     Json.parse fuel Json.GValue (Json.dump level x ++ rest)
     = Some (Json.PValue x, rest)) ->
  number_end tail = true ->
  Json.parse (S fuel) Json.GMembers
    ((Json.dump_string key ++ lit ": " ++ Json.dump level x) ++ tail)
  = after_member fuel key x tail.
Proof.
  intros Hx Ht. unfold Json.dump_string. rewrite <- !app_assoc.
  change ([34%N] ++ flat_map Json.escape_char key ++ [34%N] ++ lit ": "
          ++ Json.dump level x ++ tail)
    with (34%N :: (flat_map Json.escape_char key
                   ++ 34%N :: (58%N :: 32%N :: Json.dump level x ++ tail))).
  rewrite parse_members_step, scan_dump_string_input.
  change (Json.skip_ws (58%N :: 32%N :: Json.dump level x ++ tail))
    with (58%N :: 32%N :: Json.dump level x ++ tail).
  change (58 =? 58)%N with true. cbv iota.
  rewrite parse_value_ws.
  change (Json.skip_ws (32%N :: Json.dump level x ++ tail))
    with (Json.skip_ws (Json.dump level x ++ tail)).
  rewrite <- parse_value_ws, (Hx tail Ht). reflexivity.
Qed.

Lemma parse_members_ws (fuel : nat) (s : str) :
  Json.parse fuel Json.GMembers s = Json.parse fuel Json.GMembers (Json.skip_ws s).
Proof. destruct fuel; [reflexivity|]. simpl. rewrite skip_ws_idem. reflexivity. Qed.

Lemma parse_members_indent (fuel k : nat) (r : str) :
  Json.parse fuel Json.GMembers (Json.newline_indent k ++ 34%N :: r)
  = Json.parse fuel Json.GMembers (34%N :: r).
Proof.
  rewrite parse_members_ws, skip_ws_newline_indent, <- parse_members_ws.
  reflexivity.
Qed.

(** *** Where a printed value starts *)

Lemma number_start_plain (c : N) :
  number_start c = true ->
  Json.is_ws c = false /\ (c =? 93)%N = false /\ (c =? 125)%N = false.
Proof.
  intros H. pose proof (number_start_cases c H) as E.
  each_case E (split; [reflexivity|split; reflexivity]).
Qed.

Lemma dump_start (v : Json.value) (level : nat) :
  exists c t, Json.dump level v = c :: t
              /\ Json.is_ws c = false /\ (c =? 93)%N = false.
Proof.
  destruct v as [|[|]|n|s|l|m]; try (eexists _, _; repeat split; fail).
  - destruct (str_of_Z_start n) as (c & t & E & Hc).
    destruct (number_start_plain c Hc) as (H1 & H2 & _).
    exists c, t. auto.
  - destruct l; eexists _, _; repeat split.
  - destruct m; eexists _, _; repeat split.
Qed.

Lemma size_pos (v : Json.value) : 1 <= Json.size v.
Proof. destruct v; simpl; lia. Qed.

Lemma size_element (x : Json.value) (l : list Json.value) :
  In x l -> Json.size x <= list_sum (map Json.size l).
Proof.
  induction l as [|y l IH]; simpl; [tauto|].
  intros [->|H]; [lia|]. specialize (IH H). lia.
Qed.

Lemma size_member (kv : str * Json.value) (m : list (str * Json.value)) :
  In kv m -> Json.size kv.2 <= list_sum (map (fun kv => Json.size kv.2) m).
Proof.
  induction m as [|y m IH]; simpl; [tauto|].
  intros [->|H]; [lia|]. specialize (IH H). lia.
Qed.

(** *** Lists and dictionaries *)

Lemma dump_items_cons (level : nat) (x y : str) (l : list str) :
  Json.dump_items level (x :: y :: l)
  = x ++ [44%N] ++ Json.newline_indent level ++ Json.dump_items level (y :: l).
Proof. reflexivity. Qed.

Lemma parse_dump_elements (level k : nat) (l : list Json.value) :
  (forall x, In x l -> reads_back x) ->
  l <> [] ->
  forall (rest : str) (fuel : nat),
    3 * list_sum (map Json.size l) + 1 <= fuel ->
    Json.parse fuel Json.GElements
      (Json.dump_items level (map (Json.dump level) l)
       ++ Json.newline_indent k ++ 93%N :: rest)
    = Some (Json.PElements l, rest).
Proof.
  intros Hl. induction l as [|x l IH]; [congruence|]. intros _ rest fuel Hf.
  destruct fuel as [|fuel]; [lia|]. rewrite parse_elements_step.
  pose proof (size_pos x) as Hx. rewrite map_cons in Hf. simpl list_sum in Hf.
  destruct l as [|y l].
  - change (Json.dump_items level (map (Json.dump level) [x]))
      with (Json.dump level x).
    rewrite (Hl x (or_introl eq_refl)) by (try lia; reflexivity).
    apply after_element_close.
  - rewrite !map_cons, dump_items_cons, <- !app_assoc.
    rewrite (Hl x (or_introl eq_refl)) by (try lia; reflexivity).
    rewrite after_element_comma, parse_elements_indent, <- map_cons.
    rewrite IH; [reflexivity| |discriminate|lia].
    intros z Hz. apply Hl. right. exact Hz.
Qed.

Lemma parse_dump_members (level k : nat) (m : list (str * Json.value)) :
  (forall kv, In kv m -> reads_back kv.2) ->
  m <> [] ->
  forall (rest : str) (fuel : nat),
    3 * list_sum (map (fun kv => Json.size kv.2) m) + 1 <= fuel ->
    Json.parse fuel Json.GMembers
      (Json.dump_items level
         (map (fun kv => Json.dump_string kv.1 ++ lit ": " ++ Json.dump level kv.2) m)
       ++ Json.newline_indent k ++ 125%N :: rest)
    = Some (Json.PMembers m, rest).
Proof.
  intros Hm. induction m as [|[key x] m IH]; [congruence|]. intros _ rest fuel Hf.
  destruct fuel as [|fuel]; [lia|].
  pose proof (size_pos x) as Hx. rewrite map_cons in Hf. simpl list_sum in Hf.
  simpl snd in Hf.
  assert (Hread : forall tail, number_end tail = true ->
             Json.parse fuel Json.GValue (Json.dump level x ++ tail)
             = Some (Json.PValue x, tail)).
  { intros tail Ht. apply (Hm (key, x) (or_introl eq_refl)); [simpl; lia|exact Ht]. }
  destruct m as [|[key' y] m].
  - change (Json.dump_items level
              (map (fun kv => Json.dump_string kv.1 ++ lit ": " ++ Json.dump level kv.2)
                 [(key, x)]))
      with (Json.dump_string key ++ lit ": " ++ Json.dump level x).
    rewrite (parse_member fuel key x level _ Hread) by reflexivity.
    apply after_member_close.
  - rewrite (map_cons _ (key, x)), (map_cons _ (key', y)), dump_items_cons.
    rewrite <- (map_cons (fun kv => Json.dump_string kv.1 ++ lit ": "
                                    ++ Json.dump level kv.2) (key', y)).
    change ((fun kv : str * Json.value =>
               Json.dump_string kv.1 ++ lit ": " ++ Json.dump level kv.2) (key, x))
      with (Json.dump_string key ++ lit ": " ++ Json.dump level x).
    rewrite <- (app_assoc (Json.dump_string key ++ lit ": " ++ Json.dump level x)).
    rewrite (parse_member fuel key x level _ Hread) by reflexivity.
    rewrite <- !app_assoc, after_member_comma.
    rewrite parse_members_ws, skip_ws_newline_indent, <- parse_members_ws.
    rewrite IH; [reflexivity| |discriminate|simpl in *; lia].
    intros z Hz. apply Hm. right. exact Hz.
Qed.

(** *** Values *)

#[local] Arguments Json.newline_indent : simpl never.
#[local] Arguments Json.dump_items : simpl never.
#[local] Arguments Json.dump : simpl never.

Lemma dump_block_items (level : nat) (opening closing : N) (items : list str) :
  items <> [] ->
  Json.dump_block level opening closing items
  = opening :: Json.newline_indent (S level)
    ++ Json.dump_items (S level) items
    ++ Json.newline_indent level ++ [closing].
Proof. destruct items; [congruence|reflexivity]. Qed.

Lemma parse_dump_bounded (n : nat) (v : Json.value) :
  Json.size v <= n -> reads_back v.
Proof.
  revert v. induction n as [|n IH]; intros v Hn.
  { pose proof (size_pos v). lia. }
  intros level rest fuel Hf Hr.
  pose proof (size_pos v) as Hv.
  destruct fuel as [|fuel]; [lia|].
  destruct v as [|[|]|z|s|l|m].
  - reflexivity.
  - reflexivity.
  - reflexivity.
  - destruct (str_of_Z_start z) as (c & t & E & Hc).
    change (Json.dump level (Json.Int z)) with (str_of_Z z).
    rewrite E. simpl app. rewrite (parse_number c _ fuel Hc).
    change (c :: t ++ rest) with ((c :: t) ++ rest).
    rewrite <- E, (scan_int_dump z rest Hr). reflexivity.
  - change (Json.dump level (Json.String s) ++ rest)
      with (34%N :: (flat_map Json.escape_char s ++ [34%N]) ++ rest).
    rewrite <- app_assoc. simpl app at 2.
    rewrite parse_string_step, scan_dump_string_input. reflexivity.
  - destruct l as [|x l]; [reflexivity|].
    change (Json.dump level (Json.Array (x :: l)))
      with (Json.dump_block level 91 93 (map (Json.dump (S level)) (x :: l))).
    rewrite dump_block_items by discriminate.
    rewrite <- app_comm_cons, parse_array_step, <- !app_assoc.
    rewrite skip_ws_newline_indent.
    change ([93%N] ++ rest) with (93%N :: rest).
    assert (Hin : forall y, In y (x :: l) -> reads_back y).
    { intros y Hy. apply IH. pose proof (size_element y _ Hy) as Hy'.
      simpl in Hn, Hy'. lia. }
    pose proof (parse_dump_elements (S level) level (x :: l) Hin
                  ltac:(discriminate) rest fuel ltac:(simpl in Hf |- *; lia)) as P.
    destruct (dump_start x (S level)) as (c & t & E & Hws & H93).
    assert (S0 : exists t', Json.dump_items (S level) (map (Json.dump (S level)) (x :: l))
                            ++ Json.newline_indent level ++ 93%N :: rest = c :: t').
    { rewrite map_cons. destruct l as [|y l].
      - change (Json.dump_items (S level) [Json.dump (S level) x])
          with (Json.dump (S level) x). rewrite E. eexists. reflexivity.
      - rewrite map_cons, dump_items_cons, E. eexists. reflexivity. }
    destruct S0 as [t' S0]. rewrite S0 in P |- *.
    rewrite (skip_ws_start c t' Hws), H93, P. reflexivity.
  - destruct m as [|[key x] m]; [reflexivity|].
    change (Json.dump level (Json.Object ((key, x) :: m)))
      with (Json.dump_block level 123 125
              (map (fun kv => Json.dump_string kv.1 ++ lit ": "
                              ++ Json.dump (S level) kv.2) ((key, x) :: m))).
    rewrite dump_block_items by discriminate.
    rewrite <- app_comm_cons, parse_object_step, <- !app_assoc.
    rewrite skip_ws_newline_indent.
    change ([125%N] ++ rest) with (125%N :: rest).
    assert (Hin : forall kv, In kv ((key, x) :: m) -> reads_back kv.2).
    { intros kv Hkv. apply IH. pose proof (size_member kv _ Hkv) as Hkv'.
      simpl in Hn, Hkv'. lia. }
    pose proof (parse_dump_members (S level) level ((key, x) :: m) Hin
                  ltac:(discriminate) rest fuel ltac:(simpl in Hf |- *; lia)) as P.
    assert (S0 : exists t',
               Json.dump_items (S level)
                 (map (fun kv => Json.dump_string kv.1 ++ lit ": "
                                 ++ Json.dump (S level) kv.2) ((key, x) :: m))
               ++ Json.newline_indent level ++ 125%N :: rest = 34%N :: t').
    { rewrite map_cons. destruct m as [|y m].
      - eexists. reflexivity.
      - rewrite map_cons, dump_items_cons. eexists. reflexivity. }
    destruct S0 as [t' S0]. rewrite S0 in P |- *.
    rewrite (skip_ws_start 34 t' eq_refl). change (34 =? 125)%N with false.
    cbv iota. rewrite P. reflexivity.
Qed.

Lemma dump_items_length (level : nat) (items : list str) :
  list_sum (map (@length N) items) <= length (Json.dump_items level items).
Proof.
  induction items as [|x [|y l] IH];
    [simpl; lia|unfold Json.dump_items; simpl; lia|].
  rewrite dump_items_cons, map_cons, !length_app. simpl in IH |- *.
  unfold str in *. lia.
Qed.

Lemma list_sum_step (a : nat) (l : list nat) : list_sum (a :: l) = a + list_sum l.
Proof. reflexivity. Qed.

Lemma sizes_le_lengths {A} (size_of : A -> nat) (dump_of : A -> str) (l : list A) :
  (forall y, In y l -> size_of y <= length (dump_of y)) ->
  list_sum (map size_of l) <= list_sum (map (@length N) (map dump_of l)).
Proof.
  induction l as [|y l IH]; intros H; [simpl; lia|].
  rewrite !map_cons, !list_sum_step.
  pose proof (H y (or_introl eq_refl)).
  specialize (IH (fun z Hz => H z (or_intror Hz))). unfold str in *. lia.
Qed.

Lemma size_le_length (n : nat) (v : Json.value) (level : nat) :
  Json.size v <= n -> Json.size v <= length (Json.dump level v).
Proof.
  revert v level. induction n as [|n IH]; intros v level Hn.
  { pose proof (size_pos v). lia. }
  destruct v as [|[|]|z|s|l|m]; try (simpl; lia).
  - destruct (str_of_Z_start z) as (c & t & E & _).
    change (Json.dump level (Json.Int z)) with (str_of_Z z). rewrite E. simpl. lia.
  - destruct l as [|x l]; [simpl; lia|].
    change (Json.dump level (Json.Array (x :: l)))
      with (Json.dump_block level 91 93 (map (Json.dump (S level)) (x :: l))).
    change (Json.size (Json.Array (x :: l)))
      with (S (list_sum (map Json.size (x :: l)))) in *.
    rewrite dump_block_items by discriminate.
    pose proof (dump_items_length (S level) (map (Json.dump (S level)) (x :: l))) as L.
    pose proof (sizes_le_lengths Json.size (Json.dump (S level)) (x :: l)) as H.
    rewrite length_cons, !length_app.
    assert (Hin : forall y, In y (x :: l) -> Json.size y <= length (Json.dump (S level) y)).
    { intros y Hy. apply IH. pose proof (size_element y _ Hy). lia. }
    specialize (H Hin). unfold str in *. lia.
  - destruct m as [|kx m]; [simpl; lia|].
    change (Json.dump level (Json.Object (kx :: m)))
      with (Json.dump_block level 123 125
              (map (fun kv => Json.dump_string kv.1 ++ lit ": "
                              ++ Json.dump (S level) kv.2) (kx :: m))).
    change (Json.size (Json.Object (kx :: m)))
      with (S (list_sum (map (fun kv => Json.size kv.2) (kx :: m)))) in *.
    rewrite dump_block_items by discriminate.
    pose proof (dump_items_length (S level)
                  (map (fun kv => Json.dump_string kv.1 ++ lit ": "
                                  ++ Json.dump (S level) kv.2) (kx :: m))) as L.
    pose proof (sizes_le_lengths (fun kv => Json.size kv.2)
                  (fun kv => Json.dump_string kv.1 ++ lit ": "
                             ++ Json.dump (S level) kv.2) (kx :: m)) as H.
    rewrite length_cons, !length_app.
    assert (Hin : forall kv, In kv (kx :: m) ->
               Json.size kv.2
               <= length (Json.dump_string kv.1 ++ lit ": " ++ Json.dump (S level) kv.2)).
    { intros kv Hkv. rewrite !length_app.
      pose proof (IH kv.2 (S level)) as Hk. pose proof (size_member kv _ Hkv). lia. }
    specialize (H Hin). unfold str in *. lia.
Qed.

(** [json.loads(json.dumps(v, ensure_ascii=False, indent=2)) == v] *)
Lemma loads_dumps (v : Json.value) : Json.loads (Json.dumps v) = Some v.
Proof.
  unfold Json.loads, Json.dumps.
  pose proof (size_le_length (Json.size v) v 0 (le_n _)) as L.
  pose proof (parse_dump_bounded (Json.size v) v (le_n _) 0 []
                (3 * length (Json.dump 0 v) + 3) ltac:(lia) eq_refl) as P.
  rewrite app_nil_r in P. rewrite P. reflexivity.
Qed.

(** *** The value determines the structure *)

Lemma map_injective {A B} (f : A -> B) (l l' : list A) :
  (forall x y, f x = f y -> x = y) -> map f l = map f l' -> l = l'.
Proof.
  intros Hf. revert l'. induction l as [|x l IH]; intros [|y l'] E;
    try discriminate; [reflexivity|].
  injection E as E1 E2. f_equal; [apply Hf, E1|apply IH, E2].
Qed.

Lemma json_str_injective (s t : str) : json_str s = json_str t -> s = t.
Proof. intros [= E]. exact E. Qed.

Lemma json_opt_injective (s t : option str) : json_opt s = json_opt t -> s = t.
Proof. destruct s, t; simpl; intros E; congruence. Qed.

Lemma content_to_json_injective (c c' : content_item) :
  content_to_json c = content_to_json c' -> c = c'.
Proof.
  destruct c as [t|[cap hs rs]|[d p]], c' as [t'|[cap' hs' rs']|[d' p']];
    simpl; intros E; try discriminate.
  - injection E as E. congruence.
  - injection E as E1 E2 E3.
    apply (map_injective json_str _ _ json_str_injective) in E2.
    apply (map_injective _ rs rs') in E3; [congruence|].
    intros r r' [= Er]. exact (map_injective json_str _ _ json_str_injective Er).
  - injection E as E1 E2. congruence.
Qed.

Lemma subsection_to_json_injective (s s' : subsection) :
  subsection_to_json s = subsection_to_json s' -> s = s'.
Proof.
  destruct s as [t c], s' as [t' c']. unfold subsection_to_json. simpl.
  intros [= E1 E2].
  apply (map_injective _ _ _ content_to_json_injective) in E2. congruence.
Qed.

Lemma section_to_json_injective (s s' : section) :
  section_to_json s = section_to_json s' -> s = s'.
Proof.
  destruct s as [t c], s' as [t' c']. unfold section_to_json. simpl.
  intros [= E1 E2].
  apply (map_injective _ _ _ subsection_to_json_injective) in E2. congruence.
Qed.

Lemma to_json_injective (s s' : structure) : to_json s = to_json s' -> s = s'.
Proof.
  destruct s as [t [n a sb d m] secs], s' as [t' [n' a' sb' d' m'] secs'].
  unfold to_json, metadata_to_json. simpl. intros [= E1 E2 E3 E4 E5 E6 E7].
  apply Nat2Z.inj in E2. apply json_opt_injective in E3, E4.
  apply (map_injective _ _ _ section_to_json_injective) in E7. congruence.
Qed.

(** C9. The text that [download_json] produces is read back by
    [json.loads] as the value the code built, and this value determines the
    structure it was built from: title, metadata, sections, subsections and
    content items, in their order and with their fields. *)
Theorem json_round_trip (data : structure) :
  Json.loads (download_json data) = Some (to_json data)
  /\ (forall data' : structure, to_json data' = to_json data -> data' = data).
Proof.
  split; [apply loads_dumps|]. intros data'. apply to_json_injective.
Qed.

Lemma json_round_trip_witness :
  let data :=
    {| doc_title := lit "Rapport";
       doc_metadata :=
         {| num_pages := 2; author := None; subject := Some (lit "essai");
            extraction_date := lit "2024-05-01T10:00:00";
            extraction_method := lit "PyMuPDF" |};
       doc_sections :=
         [ {| title := lit "Intro";
              subsections :=
                [ {| sub_title := lit "Contenu";
                     content :=
                       [ Paragraph (lit "hello");
                         Table {| caption := lit "Tableau 1 - Page 1";
                                  headers := [lit "a"]; rows := [[lit "1"]] |};
                         Image {| description := lit "Image";
                                  position := lit "page 1" |} ] |} ] |} ] |} in
  Json.loads (download_json data) = Some (to_json data).
Proof.
  intros data. exact (proj1 (json_round_trip data)).
Defined.

(** ** The whole function *)

(** The structure that [_analyze_with_pymupdf] returns holds the tree
    assembled from the stream of the document, cut at its headings: for a
    document with a page, or with a title in its metadata, the function
    returns, and its sections are the expected ones. *)
Theorem analyze_builds_expected_tree (now : str) (doc : document) :
  pages doc <> [] \/ (exists c t, meta_title doc = Some (c :: t)) ->
  exists s, _analyze_with_pymupdf now doc = Ok s
            /\ doc_sections s = expected_sections (primitives_of doc)
            /\ num_pages (doc_metadata s) = length (pages doc)
            /\ extraction_method (doc_metadata s) = lit "PyMuPDF".
Proof.
  intros H. destruct (analyze_returns now doc H) as (s & E & Hs).
  exists s. split; [exact E|]. split; [exact Hs|].
  unfold _analyze_with_pymupdf in E.
  destruct (resolve_title doc); simpl in E; [|discriminate].
  destruct (for_enumerate _ _ _ _); simpl in E; [|discriminate].
  injection E as <-. split; reflexivity.
Qed.

Lemma analyze_builds_expected_tree_witness :
  let run t size := TextRun {| span_text := t; span_size := size; span_flags := 0 |} in
  let table := [ [Some (lit "a")]; [Some (lit "1")] ] in
  let p :=
    {| page_text := lit "Intro";
       page_blocks :=
         [ {| block_type := 0;
              block_lines :=
                [ [ {| span_text := lit "Intro"; span_size := 18; span_flags := 0 |} ];
                  [ {| span_text := lit "hello"; span_size := 10; span_flags := 0 |} ] ];
              block_width := None; block_height := None |} ];
       page_tables := [table] |} in
  let doc := {| meta_title := None; meta_author := None; meta_subject := None;
                pages := [p] |} in
  pages doc <> []
  /\ exists s, _analyze_with_pymupdf [] doc = Ok s
       /\ doc_sections s =
          [ {| title := lit "Intro";
               subsections :=
                 [ {| sub_title := lit "Contenu";
                      content :=
                        [ Paragraph (lit "hello");
                          Table {| caption := lit "Tableau 1 - Page 1";
                                   headers := [lit "a"];
                                   rows := [[lit "1"]] |} ] |} ] |} ].
Proof.
  intros run table p doc.
  assert (H : pages doc <> []) by discriminate.
  split; [exact H|].
  destruct (analyze_builds_expected_tree [] doc (or_introl H)) as (s & E & Hs & _).
  exists s. split; [exact E|]. rewrite Hs. reflexivity.
Defined.

(** A document without pages and without a title in its metadata: the
    lookup of the first page raises before the pass starts. *)
Theorem analyze_without_pages (now : str) (doc : document) :
  pages doc = [] ->
  meta_title doc = None \/ meta_title doc = Some [] ->
  _analyze_with_pymupdf now doc = Raise IndexError.
Proof.
  intros Hp Hm. unfold _analyze_with_pymupdf, resolve_title.
  destruct Hm as [-> | ->]; simpl; rewrite Hp; reflexivity.
Qed.

Lemma analyze_without_pages_witness :
  let doc := {| meta_title := None; meta_author := None; meta_subject := None;
                pages := [] |} in
  (pages doc = [] /\ meta_title doc = None)
  /\ _analyze_with_pymupdf [] doc = Raise IndexError.
Proof.
  intros doc. split; [split; reflexivity|].
  exact (analyze_without_pages [] doc eq_refl (or_introl eq_refl)).
Defined.

(** ** The references stay at the end of the tree *)

Lemma all_content_app (secs1 secs2 : list section) :
  all_content (secs1 ++ secs2) = all_content secs1 ++ all_content secs2.
Proof. apply flat_map_app. Qed.

Lemma all_content_one (sec : section) :
  all_content [sec] = flat_map content (subsections sec).
Proof. unfold all_content. simpl. apply app_nil_r. Qed.

Lemma snoc_of_length {A} (l : list A) (i : nat) :
  S i = length l -> exists pre x, l = pre ++ [x] /\ length pre = i.
Proof.
  destruct l as [|x l _] using rev_ind; simpl; [discriminate|].
  rewrite length_app. simpl. intros E. exists l, x. split; [reflexivity|lia].
Qed.

Lemma snoc_of_last {A} (l : list A) (x : A) :
  last l = Some x -> exists pre, l = pre ++ [x].
Proof.
  destruct l as [|y l _] using rev_ind; [discriminate|].
  rewrite last_snoc. intros [= ->]. exists l. reflexivity.
Qed.

Lemma snoc_of_nonempty {A} (l : list A) :
  l <> [] -> exists pre x, l = pre ++ [x].
Proof.
  destruct l as [|y l _] using rev_ind; [congruence|]. intros _. eauto.
Qed.

(** Wherever the references stand at the end of the tree, [_add_content]
    returns, the new item is the last item of the tree, and the references
    still stand at the end. *)
Lemma add_content_at_end (c : content_item) (st : state) :
  refs_at_end st ->
  exists secs,
    _add_content c (sections st) (current_section st) (current_subsection st)
    = Ok secs
    /\ all_content secs = all_content (sections st) ++ [c]
    /\ refs_at_end {| sections := secs;
                      current_section := current_section st;
                      current_subsection := current_subsection st |}.
Proof.
  destruct st as [secs cs csub]. unfold refs_at_end. simpl.
  destruct cs as [i|].
  - intros [Hi Hsub].
    destruct (snoc_of_length secs i Hi) as (pre & sec & -> & <-).
    destruct csub as [[i' j]|].
    + destruct Hsub as (-> & sec' & Hlook & Hj).
      rewrite lookup_snoc_at_length in Hlook. injection Hlook as <-.
      destruct (snoc_of_length _ _ Hj) as (spre & sub & Hsubs & <-).
      unfold _add_content.
      rewrite lookup_snoc_at_length, Hsubs, lookup_snoc_at_length.
      eexists. split; [reflexivity|].
      rewrite alter_snoc_at_length. unfold with_subsections.
      rewrite Hsubs, alter_snoc_at_length.
      split; [|split; [rewrite ?length_app in *; simpl in *; lia|]].
      * rewrite !all_content_app, !all_content_one. simpl.
        rewrite Hsubs, !flat_map_app. simpl.
        rewrite !app_nil_r, <- !app_assoc. reflexivity.
      * split; [reflexivity|]. eexists. split; [apply lookup_snoc_at_length|].
        simpl. rewrite ?length_app. simpl. lia.
    + unfold _add_content. rewrite lookup_snoc_at_length.
      eexists. split; [reflexivity|].
      rewrite alter_snoc_at_length.
      split; [|split; [rewrite ?length_app in *; simpl in *; lia|exact I]].
      rewrite !all_content_app, !all_content_one. unfold add_to_section. simpl.
      destruct (subsections sec) as [|sub subs _] using rev_ind; simpl.
      * rewrite app_nil_r. reflexivity.
      * rewrite nonempty_snoc, alter_last_snoc, !flat_map_app. simpl.
        rewrite !app_nil_r, <- !app_assoc. reflexivity.
  - intros [-> Hlast]. unfold _add_content.
    destruct secs as [|sec secs _] using rev_ind; simpl.
    + eexists. split; [reflexivity|].
      split; [reflexivity|]. split; [reflexivity|]. simpl. discriminate.
    + rewrite last_snoc in Hlast. rewrite nonempty_snoc, last_snoc.
      destruct (snoc_of_nonempty _ Hlast) as (spre & sub & Hsubs).
      rewrite Hsubs, last_snoc.
      eexists. split; [reflexivity|].
      rewrite alter_last_snoc. unfold with_subsections.
      rewrite Hsubs, alter_last_snoc.
      split; [|split; [reflexivity|]].
      * rewrite !all_content_app, !all_content_one. simpl.
        rewrite Hsubs, !flat_map_app. simpl.
        rewrite !app_nil_r, <- !app_assoc. reflexivity.
      * rewrite last_snoc. simpl. intros E. destruct spre; discriminate.
Qed.

Lemma add_content_here_at_end (c : content_item) (st : state) :
  refs_at_end st ->
  exists st',
    add_content_here c st = Ok st'
    /\ all_content (sections st') = all_content (sections st) ++ [c]
    /\ current_section st' = current_section st
    /\ refs_at_end st'.
Proof.
  intros H. destruct (add_content_at_end c st H) as (secs & E & Hc & Hr).
  unfold add_content_here. rewrite E. simpl. eauto.
Qed.

Lemma open_section_at_end (t : str) (st : state) :
  refs_at_end (open_section t st)
  /\ all_content (sections (open_section t st)) = all_content (sections st).
Proof.
  unfold refs_at_end, open_section. simpl. split.
  - split; [rewrite length_app; simpl; lia|exact I].
  - rewrite all_content_app, all_content_one. simpl. apply app_nil_r.
Qed.

Lemma open_subsection_at_end (t : str) (st : state) :
  refs_at_end st -> is_Some (current_section st) ->
  exists st',
    open_subsection t st = Ok st'
    /\ all_content (sections st') = all_content (sections st)
    /\ current_section st' = current_section st
    /\ refs_at_end st'.
Proof.
  destruct st as [secs cs csub]. unfold refs_at_end, open_subsection. simpl.
  intros H [i ->]. destruct H as [Hi _].
  destruct (snoc_of_length secs i Hi) as (pre & sec & -> & <-).
  rewrite lookup_snoc_at_length. eexists. split; [reflexivity|]. simpl.
  rewrite alter_snoc_at_length.
  split; [|split; [reflexivity|]].
  - rewrite !all_content_app, !all_content_one. simpl.
    rewrite flat_map_app. simpl. rewrite !app_nil_r. reflexivity.
  - split; [rewrite ?length_app in *; simpl in *; lia|]. split; [reflexivity|].
    eexists. split; [apply lookup_snoc_at_length|].
    simpl. rewrite length_app. simpl. lia.
Qed.

Lemma refs_at_end_initial : refs_at_end initial.
Proof. split; [reflexivity|exact I]. Qed.

(** One step of the pass, from a state whose references stand at the end. *)
Lemma step_at_end (p : primitive) (st : state) :
  refs_at_end st ->
  exists st',
    step p st = Ok st'
    /\ refs_at_end st'
    /\ forall ps,
         all_content (sections st)
         ++ stream_content (bool_decide (is_Some (current_section st))) (p :: ps)
         = all_content (sections st')
           ++ stream_content (bool_decide (is_Some (current_section st'))) ps.
Proof.
  intros H. rewrite step_classify. simpl. destruct (classify p) as [|t|t|c].
  - exists st. auto.
  - exists (open_section t st).
    destruct (open_section_at_end t st) as [Hr Hc].
    split; [reflexivity|]. split; [exact Hr|]. intros ps. rewrite Hc. reflexivity.
  - destruct (current_section st) as [i|] eqn:E.
    + destruct (open_subsection_at_end t st H) as (st' & E' & Hc & Hs & Hr);
        [rewrite E; eauto|].
      exists st'. split; [exact E'|]. split; [exact Hr|].
      intros ps. rewrite Hc, Hs, E. reflexivity.
    + destruct (add_content_here_at_end (Paragraph t) st H) as (st' & E' & Hc & Hs & Hr).
      exists st'. split; [exact E'|]. split; [exact Hr|].
      intros ps. rewrite Hc, Hs, E, <- app_assoc. reflexivity.
  - destruct (add_content_here_at_end c st H) as (st' & E' & Hc & Hs & Hr).
    exists st'. split; [exact E'|]. split; [exact Hr|].
    intros ps. rewrite Hc, Hs, <- app_assoc. reflexivity.
Qed.

Lemma infer_from_at_end (ps : list primitive) (st : state) :
  refs_at_end st ->
  exists st',
    infer_from ps st = Ok st'
    /\ refs_at_end st'
    /\ all_content (sections st')
       = all_content (sections st)
         ++ stream_content (bool_decide (is_Some (current_section st))) ps.
Proof.
  revert st. induction ps as [|p ps IH]; intros st H.
  - exists st. simpl. rewrite app_nil_r. auto.
  - destruct (step_at_end p st H) as (st1 & E1 & H1 & Hc1).
    destruct (IH st1 H1) as (st' & E' & H' & Hc').
    exists st'. unfold infer_from in *. simpl. rewrite E1. simpl.
    split; [exact E'|]. split; [exact H'|]. rewrite Hc'. symmetry. apply Hc1.
Qed.

(** ** [strip] *)

Lemma lstrip_head (s : str) (c : N) (t : str) :
  lstrip s = c :: t -> isspace c = false.
Proof.
  induction s as [|a s IH]; simpl; [discriminate|].
  destruct (isspace a) eqn:E; [exact IH|]. intros [= <- <-]. exact E.
Qed.

Lemma lstrip_fixed (c : N) (t : str) : isspace c = false -> lstrip (c :: t) = c :: t.
Proof. intros E. simpl. rewrite E. reflexivity. Qed.

Lemma lstrip_idem (s : str) : lstrip (lstrip s) = lstrip s.
Proof.
  destruct (lstrip s) as [|c t] eqn:E; [reflexivity|].
  apply lstrip_fixed, (lstrip_head s c t E).
Qed.

Lemma lstrip_suffix (s : str) :
  exists w, s = w ++ lstrip s /\ forallb isspace w = true.
Proof.
  induction s as [|a s (w & E & Hw)]; simpl; [exists []; auto|].
  destruct (isspace a) eqn:Ea.
  - exists (a :: w). simpl. rewrite Ea, Hw, <- E. auto.
  - exists []. auto.
Qed.

Lemma rstrip_prefix (s : str) :
  exists w, s = rstrip s ++ w /\ forallb isspace w = true.
Proof.
  destruct (lstrip_suffix (rev s)) as (w & E & Hw).
  exists (rev w). split.
  - unfold rstrip. rewrite <- rev_app_distr, <- E, rev_involutive. reflexivity.
  - rewrite forallb_forall in *. intros x Hx. apply Hw, in_rev, Hx.
Qed.

Lemma rstrip_idem (s : str) : rstrip (rstrip s) = rstrip s.
Proof. unfold rstrip. rewrite rev_involutive, lstrip_idem. reflexivity. Qed.

(** Stripping is idempotent. *)
Lemma strip_idem (s : str) : strip (strip s) = strip s.
Proof.
  unfold strip.
  destruct (rstrip (lstrip s)) as [|c r] eqn:E; [reflexivity|].
  assert (Hc : isspace c = false).
  { destruct (rstrip_prefix (lstrip s)) as (w & Ew & _).
    rewrite E in Ew. simpl in Ew. exact (lstrip_head s c _ Ew). }
  rewrite (lstrip_fixed c r Hc), <- E. apply rstrip_idem.
Qed.

Lemma trimmed_strip (s : str) : strip s <> [] -> trimmed (strip s).
Proof. intros H. split; [exact H|apply strip_idem]. Qed.

(** ** The text of the tree is trimmed *)

Lemma trimmed_append (c : content_item) (sub : subsection) :
  trimmed_item c -> trimmed_subsection sub ->
  trimmed_subsection (append_content c sub).
Proof.
  intros Hc [Ht Hl]. split; [exact Ht|]. simpl.
  apply Forall_app. split; [exact Hl|]. constructor; [exact Hc|constructor].
Qed.

Lemma trimmed_with_subsections (f : list subsection -> list subsection)
    (sec : section) :
  (Forall trimmed_subsection (subsections sec) ->
   Forall trimmed_subsection (f (subsections sec))) ->
  trimmed_section sec -> trimmed_section (with_subsections f sec).
Proof. intros Hf [Ht Hl]. split; [exact Ht|apply Hf, Hl]. Qed.

Lemma trimmed_alter_last {A} (P : A -> Prop) (f : A -> A) (l : list A) :
  (forall x, P x -> P (f x)) -> Forall P l -> Forall P (alter_last f l).
Proof. intros Hf Hl. apply Forall_alter; auto. Qed.

Lemma trimmed_literal (s : str) : s <> [] -> strip s = s -> trimmed s.
Proof. split; assumption. Qed.

Lemma trimmed_default_subsection : trimmed_subsection default_subsection.
Proof. split; [split; [discriminate|reflexivity]|constructor]. Qed.

Lemma trimmed_default_section : trimmed_section default_section.
Proof.
  split; [split; [discriminate|reflexivity]|].
  constructor; [|constructor].
  split; [split; [discriminate|reflexivity]|constructor].
Qed.

Lemma trimmed_add_to_section (c : content_item) (sec : section) :
  trimmed_item c -> trimmed_section sec -> trimmed_section (add_to_section c sec).
Proof.
  intros Hc [Ht Hl]. split; [exact Ht|]. simpl.
  apply trimmed_alter_last; [intros x; apply trimmed_append, Hc|].
  destruct (nonempty (subsections sec)); [exact Hl|].
  apply Forall_app. split; [exact Hl|].
  constructor; [exact trimmed_default_subsection|constructor].
Qed.

Lemma add_content_trimmed (c : content_item) (secs secs' : list section)
    (r1 : option nat) (r2 : option (nat * nat)) :
  _add_content c secs r1 r2 = Ok secs' ->
  trimmed_item c -> Forall trimmed_section secs -> Forall trimmed_section secs'.
Proof.
  unfold _add_content. intros E Hc Hs.
  assert (Hsub : forall sec f,
             (forall x, trimmed_subsection x -> trimmed_subsection (f x)) ->
             forall i, trimmed_section sec ->
                       trimmed_section (with_subsections (alter f i) sec)).
  { intros sec f Hf i. apply trimmed_with_subsections. intros H.
    apply Forall_alter; auto. }
  destruct r2 as [[i j]|].
  - destruct (secs !! i) as [sec|]; [|discriminate].
    destruct (subsections sec !! j); [|discriminate].
    injection E as <-. apply Forall_alter; [exact Hs|].
    intros x _. apply Hsub. intros y. apply trimmed_append, Hc.
  - destruct r1 as [i|].
    + destruct (secs !! i); [|discriminate]. injection E as <-.
      apply Forall_alter; [exact Hs|]. intros x _. apply trimmed_add_to_section, Hc.
    + set (secs1 := if nonempty secs then secs else secs ++ [default_section]) in *.
      assert (H1 : Forall trimmed_section secs1).
      { subst secs1. destruct (nonempty secs); [exact Hs|].
        apply Forall_app. split; [exact Hs|].
        constructor; [exact trimmed_default_section|constructor]. }
      destruct (last secs1) as [sec|]; [|discriminate].
      destruct (last (subsections sec)); [|discriminate].
      injection E as <-. apply trimmed_alter_last; [|exact H1].
      intros x. apply Hsub. intros y. apply trimmed_append, Hc.
Qed.

Lemma step_trimmed (p : primitive) (st st' : state) :
  step p st = Ok st' ->
  match p with Item c => trimmed_item c | TextRun _ => True end ->
  Forall trimmed_section (sections st) -> Forall trimmed_section (sections st').
Proof.
  intros E Hp Hs.
  assert (Hadd : forall c, trimmed_item c -> add_content_here c st = Ok st' ->
                           Forall trimmed_section (sections st')).
  { intros c Hc. unfold add_content_here.
    destruct (_add_content c _ _ _) as [secs|] eqn:Ea; simpl; [|discriminate].
    intros [= <-]. simpl. exact (add_content_trimmed _ _ _ _ _ Ea Hc Hs). }
  destruct p as [sp|c]; simpl in E; [|exact (Hadd c Hp E)].
  unfold process_span in E.
  destruct (nonempty (strip (span_text sp))) eqn:En; simpl in E;
    [|injection E as <-; exact Hs].
  assert (Ht : trimmed (strip (span_text sp))).
  { apply trimmed_strip. apply nonempty_true, En. }
  destruct (section_level _ _).
  { injection E as <-. simpl. apply Forall_app. split; [exact Hs|].
    constructor; [|constructor]. split; [exact Ht|constructor]. }
  destruct (subsection_level _ _ && _);
    [|exact (Hadd (Paragraph (strip (span_text sp))) Ht E)].
  unfold open_subsection in E.
  destruct (current_section st) as [i|]; [|discriminate].
  destruct (sections st !! i); [|discriminate].
  injection E as <-. simpl. apply Forall_alter; [exact Hs|].
  intros x _. apply trimmed_with_subsections. intros H.
  apply Forall_app. split; [exact H|].
  constructor; [|constructor]. split; [exact Ht|constructor].
Qed.

Lemma infer_from_trimmed (ps : list primitive) (st st' : state) :
  infer_from ps st = Ok st' ->
  Forall (fun p => match p with Item c => trimmed_item c | TextRun _ => True end) ps ->
  Forall trimmed_section (sections st) -> Forall trimmed_section (sections st').
Proof.
  revert st. induction ps as [|p ps IH]; intros st E Hps Hs.
  - injection E as <-. exact Hs.
  - unfold infer_from in *. simpl in E.
    destruct (step p st) as [st1|] eqn:E1; simpl in E; [|discriminate].
    inversion Hps as [|? ? Hp Hps']; subst.
    exact (IH st1 E Hps' (step_trimmed p st st1 E1 Hp Hs)).
Qed.

(** The items of a document are image and table dictionaries. *)
Lemma primitives_from_items (i : nat) (pgs : list page) :
  Forall (fun p => match p with Item c => trimmed_item c | TextRun _ => True end)
    (primitives_from i pgs).
Proof.
  revert i. induction pgs as [|pg pgs IH]; intros i; simpl; [constructor|].
  apply Forall_app. split; [|apply IH].
  unfold primitives_of_page. apply Forall_app. split.
  - apply Forall_flat_map, Forall_forall. intros b _.
    unfold primitives_of_block.
    destruct (block_type b =? 0)%Z.
    { apply List.Forall_map, Forall_forall. intros sp _. exact I. }
    destruct (block_type b =? 1)%Z; repeat constructor.
  - apply Forall_forall. intros p Hp. apply elem_of_lookup_imap in Hp.
    destruct Hp as (k & x & -> & _). exact I.
Qed.

(** What [_analyze_with_pymupdf] returns comes from the pass over the
    stream of the document. *)
Lemma analyze_runs_pass (now : str) (doc : document) (s : structure) :
  _analyze_with_pymupdf now doc = Ok s ->
  exists st, infer (primitives_of doc) = Ok st
             /\ doc_sections s = sections st
             /\ resolve_title doc = Ok (doc_title s).
Proof.
  unfold _analyze_with_pymupdf. intros E.
  destruct (resolve_title doc) as [t|]; simpl in E; [|discriminate].
  rewrite pages_stream in E. fold (primitives_of doc) in E.
  destruct (infer_from (primitives_of doc) initial) as [st|] eqn:Ei;
    simpl in E; [|discriminate].
  injection E as <-. exists st. auto.
Qed.

(** ** The PyMuPDF pass: further properties *)

Lemma sample_analysis :
  _analyze_with_pymupdf (lit "2024-01-01T00:00:00") sample_document
  = Ok sample_structure.
Proof. reflexivity. Qed.

(** Whenever [_analyze_with_pymupdf] returns, the content items of its
    tree, read section by section and subsection by subsection, are exactly
    the items the stream of the document leaves, in stream order: every
    paragraph, image and table once, none lost, repeated or moved; a run of
    subsection level is among them exactly when no section heading precedes
    it. *)
Theorem content_kept_in_order (now : str) (doc : document) (s : structure) :
  _analyze_with_pymupdf now doc = Ok s ->
  all_content (doc_sections s) = stream_content false (primitives_of doc).
Proof.
  intros E. destruct (analyze_runs_pass now doc s E) as (st & Ei & -> & _).
  destruct (infer_from_at_end (primitives_of doc) initial refs_at_end_initial)
    as (st' & Ei' & _ & Hc).
  unfold infer in Ei. rewrite Ei in Ei'. injection Ei' as <-. exact Hc.
Qed.

Lemma content_kept_in_order_witness :
  _analyze_with_pymupdf (lit "2024-01-01T00:00:00") sample_document
  = Ok sample_structure
  /\ all_content (doc_sections sample_structure)
     = stream_content false (primitives_of sample_document).
Proof.
  split; [exact sample_analysis|].
  exact (content_kept_in_order _ sample_document sample_structure sample_analysis).
Defined.

(** After any stream of primitives the pass has returned and its two
    references stand at the end of the tree: the current section, when set,
    is the last section; the current subsection, when set, is the last
    subsection of the current section; and while no section is current, no
    subsection is, and the last section of the tree, if any, has a
    subsection. *)
Theorem references_stay_last (ps : list primitive) :
  exists st, infer ps = Ok st /\ refs_at_end st.
Proof.
  destruct (infer_from_at_end ps initial refs_at_end_initial) as (st & E & H & _).
  exists st. split; assumption.
Qed.

Lemma fold_add_row_blank (blanks : list (list (option str))) (t : table_data) :
  Forall (fun row => row = []) blanks -> headers t = [] ->
  fold_left add_row blanks t = t.
Proof.
  intros Hb. revert t. induction Hb as [|row blanks -> _ IH]; intros t Ht;
    [reflexivity|].
  simpl. replace (add_row t []) with t; [exact (IH t Ht)|].
  unfold add_row. rewrite Ht. simpl. destruct t. simpl in *. congruence.
Qed.

Lemma fold_add_row_rows (rest : list (list (option str))) (t : table_data) :
  headers t <> [] ->
  fold_left add_row rest t
  = {| caption := caption t; headers := headers t;
       rows := rows t ++ map (map cell_str) rest |}.
Proof.
  revert t. induction rest as [|row rest IH]; intros t Ht; simpl.
  - rewrite app_nil_r. destruct t; reflexivity.
  - assert (E : add_row t row
                = {| caption := caption t; headers := headers t;
                     rows := rows t ++ [map cell_str row] |}).
    { unfold add_row. destruct (headers t); [congruence|reflexivity]. }
    rewrite E, IH by exact Ht. simpl. rewrite <- app_assoc. reflexivity.
Qed.

(** The table dictionary built from the rows of [table.extract()]: the
    empty rows that come first are dropped, the first row that is not empty
    gives the headers, and every row after it, empty or not, is a row of
    the table, in order; each cell is a string, [None] and the empty string
    both becoming the empty string.  When every row is empty the table has
    neither headers nor rows. *)
Theorem table_headers_and_rows (page_num table_num : nat)
    (blanks : list (list (option str))) (r : list (option str))
    (rest : list (list (option str))) :
  Forall (fun row => row = []) blanks ->
  r <> [] ->
  make_table_data page_num table_num (blanks ++ r :: rest)
  = Table {| caption := lit "Tableau " ++ str_of_Z (Z.of_nat table_num + 1)
                        ++ lit " - Page " ++ str_of_Z (Z.of_nat page_num + 1);
             headers := map cell_str r;
             rows := map (map cell_str) rest |}
  /\ make_table_data page_num table_num blanks
     = Table {| caption := lit "Tableau " ++ str_of_Z (Z.of_nat table_num + 1)
                           ++ lit " - Page " ++ str_of_Z (Z.of_nat page_num + 1);
                headers := [];
                rows := [] |}.
Proof.
  intros Hb Hr. unfold make_table_data. split; f_equal.
  - rewrite fold_left_app, (fold_add_row_blank blanks); [|exact Hb|reflexivity].
    simpl. rewrite fold_add_row_rows.
    + reflexivity.
    + simpl. destruct r; [congruence|discriminate].
  - apply fold_add_row_blank; [exact Hb|reflexivity].
Qed.

Lemma table_headers_and_rows_witness :
  let blanks := [ []; [] ] in
  let r := [Some (lit "a"); None; Some []] in
  let rest := [ []; [Some (lit "1")] ] in
  (Forall (fun row : list (option str) => row = []) blanks /\ r <> [])
  /\ make_table_data 0 2 (blanks ++ r :: rest)
     = Table {| caption := lit "Tableau 3 - Page 1";
                headers := [lit "a"; []; []];
                rows := [ []; [lit "1"] ] |}.
Proof.
  intros blanks r rest.
  assert (Hb : Forall (fun row : list (option str) => row = []) blanks)
    by (repeat constructor).
  assert (Hr : r <> []) by discriminate.
  split; [split; assumption|].
  exact (proj1 (table_headers_and_rows 0 2 blanks r rest Hb Hr)).
Defined.

(** Whenever [_analyze_with_pymupdf] returns, every section title, every
    subsection title and every paragraph of its tree is a text that is not
    empty and has no white space at either end. *)
Theorem tree_text_is_trimmed (now : str) (doc : document) (s : structure) :
  _analyze_with_pymupdf now doc = Ok s ->
  Forall trimmed_section (doc_sections s).
Proof.
  intros E. destruct (analyze_runs_pass now doc s E) as (st & Ei & -> & _).
  apply (infer_from_trimmed (primitives_of doc) initial st Ei).
  - apply primitives_from_items.
  - constructor.
Qed.

Lemma tree_text_is_trimmed_witness :
  _analyze_with_pymupdf (lit "2024-01-01T00:00:00") sample_document
  = Ok sample_structure
  /\ Forall trimmed_section (doc_sections sample_structure).
Proof.
  split; [exact sample_analysis|].
  exact (tree_text_is_trimmed _ sample_document sample_structure sample_analysis).
Defined.

Lemma first_line_length (s : str) : length (first_line s) <= length s.
Proof.
  induction s as [|c s IH]; simpl; [lia|].
  destruct (c =? 10)%N; simpl; lia.
Qed.

Lemma first_line_no_break (s : str) : ~ In 10%N (first_line s).
Proof.
  induction s as [|c s IH]; simpl; [tauto|].
  destruct (N.eqb_spec c 10); simpl; [tauto|]. intros [E|H]; [congruence|tauto].
Qed.

(** When the metadata give no title, the title that
    [_analyze_with_pymupdf] returns has at most 100 characters and holds no
    line break. *)
Theorem derived_title_is_one_short_line (now : str) (doc : document)
    (s : structure) :
  _analyze_with_pymupdf now doc = Ok s ->
  meta_title doc = None \/ meta_title doc = Some [] ->
  length (doc_title s) <= 100 /\ ~ In 10%N (doc_title s).
Proof.
  intros E Hm. destruct (analyze_runs_pass now doc s E) as (_ & _ & _ & Ht).
  unfold resolve_title in Ht.
  assert (Hd : default [] (meta_title doc) = []) by (destruct Hm as [-> | ->]; reflexivity).
  rewrite Hd in Ht. simpl in Ht.
  destruct (pages doc) as [|p rest]; [discriminate|].
  injection Ht as Ht. rewrite <- Ht.
  destruct (nonempty (take 100 (page_text p))).
  - rewrite split_first_line. split; [|apply first_line_no_break].
    etransitivity; [apply first_line_length|]. rewrite length_take. lia.
  - split; [simpl; lia|]. simpl. intuition discriminate.
Qed.

Lemma derived_title_is_one_short_line_witness :
  (_analyze_with_pymupdf (lit "2024-01-01T00:00:00") sample_document
   = Ok sample_structure
   /\ meta_title sample_document = None)
  /\ length (doc_title sample_structure) <= 100
  /\ ~ In 10%N (doc_title sample_structure).
Proof.
  split; [split; [exact sample_analysis|reflexivity]|].
  exact (derived_title_is_one_short_line _ sample_document sample_structure
           sample_analysis (or_introl eq_refl)).
Defined.

(** When the metadata give no title and the text of the first page starts
    with a line break, the title is the empty string: the placeholder
    "Document sans titre" is used only for a first page without text. *)
Theorem title_empty_before_line_break (now : str) (doc : document)
    (s : structure) (p : page) (rest : list page) (text : str) :
  _analyze_with_pymupdf now doc = Ok s ->
  meta_title doc = None \/ meta_title doc = Some [] ->
  pages doc = p :: rest ->
  page_text p = 10%N :: text ->
  doc_title s = [].
Proof.
  intros E Hm Hp Ht. destruct (analyze_runs_pass now doc s E) as (_ & _ & _ & Hr).
  unfold resolve_title in Hr.
  assert (Hd : default [] (meta_title doc) = []) by (destruct Hm as [-> | ->]; reflexivity).
  rewrite Hd, Hp, Ht in Hr. simpl in Hr. congruence.
Qed.

Lemma title_empty_before_line_break_witness :
  let p := {| page_text := 10%N :: lit "Report"; page_blocks := [];
              page_tables := [] |} in
  let doc := {| meta_title := Some []; meta_author := None;
                meta_subject := None; pages := [p] |} in
  let s := {| doc_title := [];
              doc_metadata :=
                {| num_pages := 1; author := None; subject := None;
                   extraction_date := []; extraction_method := lit "PyMuPDF" |};
              doc_sections := [] |} in
  _analyze_with_pymupdf [] doc = Ok s /\ doc_title s = [].
Proof.
  intros p doc s.
  assert (E : _analyze_with_pymupdf [] doc = Ok s) by reflexivity.
  split; [exact E|].
  exact (title_empty_before_line_break [] doc s p [] (lit "Report") E
           (or_intror eq_refl) eq_refl eq_refl).
Defined.

(** ** The pdfplumber pass *)

Lemma plumber_append_to_page (pre : list Plumber.section) (t : str)
    (sub : Plumber.subsection) (subs : list Plumber.subsection)
    (c : Plumber.content_item) :
  Plumber.append_to_page (length pre) c
    (pre ++ [ {| Plumber.title := t; Plumber.subsections := sub :: subs |} ])
  = Ok (pre ++ [ {| Plumber.title := t;
                    Plumber.subsections := Plumber.append_content c sub :: subs |} ]).
Proof.
  unfold Plumber.append_to_page.
  rewrite lookup_snoc_at_length. simpl. rewrite alter_snoc_at_length. reflexivity.
Qed.

(** A loop that appends to the subsection of the page at the end of the
    tree: the items it appends, in order. *)
Lemma plumber_for_enumerate {A} (F : nat -> A -> list Plumber.section -> result (list Plumber.section))
    (g : nat -> A -> option Plumber.content_item)
    (pre : list Plumber.section) (t u : str) :
  (forall k a secs,
     F k a secs = match g k a with
                  | Some c => Plumber.append_to_page (length pre) c secs
                  | None => Ok secs
                  end) ->
  forall (l : list A) (i : nat) (items : list Plumber.content_item),
    for_enumerate F i l
      (pre ++ [ {| Plumber.title := t;
                   Plumber.subsections :=
                     [ {| Plumber.sub_title := u; Plumber.content := items |} ] |} ])
    = Ok (pre ++ [ {| Plumber.title := t;
                      Plumber.subsections :=
                        [ {| Plumber.sub_title := u;
                             Plumber.content :=
                               items ++ omap id (imap (fun k a => g (i + k) a) l) |} ] |} ]).
Proof.
  intros HF. induction l as [|a l IH]; intros i items.
  - simpl. rewrite app_nil_r. reflexivity.
  - assert (Ei : imap (fun k a => g (i + k) a) (a :: l)
                 = g i a :: imap (fun k a => g (S i + k) a) l).
    { simpl. rewrite Nat.add_0_r. f_equal. apply imap_ext.
      intros k x _. simpl. f_equal. lia. }
    rewrite Ei. cbn [for_enumerate]. rewrite HF.
    destruct (g i a) as [c|]; simpl.
    + rewrite plumber_append_to_page. simpl. unfold Plumber.append_content. simpl.
      rewrite IH, <- app_assoc. reflexivity.
    + rewrite IH. reflexivity.
Qed.

Lemma plumber_for_each {A} (f : A -> Plumber.content_item)
    (pre : list Plumber.section) (t u : str) (l : list A)
    (items : list Plumber.content_item) :
  for_each (fun a secs => Plumber.append_to_page (length pre) (f a) secs) l
    (pre ++ [ {| Plumber.title := t;
                 Plumber.subsections :=
                   [ {| Plumber.sub_title := u; Plumber.content := items |} ] |} ])
  = Ok (pre ++ [ {| Plumber.title := t;
                    Plumber.subsections :=
                      [ {| Plumber.sub_title := u;
                           Plumber.content := items ++ map f l |} ] |} ]).
Proof.
  revert items. induction l as [|a l IH]; intros items; simpl.
  - rewrite app_nil_r. reflexivity.
  - rewrite plumber_append_to_page. simpl. unfold Plumber.append_content. simpl.
    rewrite IH, <- app_assoc. reflexivity.
Qed.

Lemma omap_id_imap_Some {A B} (f : nat -> A -> B) (l : list A) :
  omap id (imap (fun k a => Some (f k a)) l) = imap f l.
Proof.
  revert f. induction l as [|a l IH]; intros f; simpl; [reflexivity|].
  f_equal. apply (IH (f ∘ S)).
Qed.

Lemma plumber_paragraphs_nil : Plumber.paragraphs [] = [].
Proof. reflexivity. Qed.

(** One page: the section of the page is appended, with its content. *)
Lemma plumber_process_page (page_num : nat) (p : Plumber.page)
    (secs : list Plumber.section) :
  Plumber.process_page page_num p secs
  = Ok (secs ++ [Plumber.page_section page_num p]).
Proof.
  unfold Plumber.process_page, Plumber.page_section, Plumber.page_content.
  set (text := default [] (Plumber.extract_text p)).
  assert (E1 :
    (if nonempty text then
       for_each (fun para secs0 =>
                   Plumber.append_to_page (length secs) (Plumber.Paragraph para) secs0)
         (Plumber.paragraphs text)
         (secs ++ [ {| Plumber.title := lit "Page " ++ str_of_Z (Z.of_nat page_num + 1);
                       Plumber.subsections :=
                         [ {| Plumber.sub_title := lit "Contenu";
                              Plumber.content := [] |} ] |} ])
     else Ok (secs ++ [ {| Plumber.title := lit "Page " ++ str_of_Z (Z.of_nat page_num + 1);
                           Plumber.subsections :=
                             [ {| Plumber.sub_title := lit "Contenu";
                                  Plumber.content := [] |} ] |} ]))
    = Ok (secs ++ [ {| Plumber.title := lit "Page " ++ str_of_Z (Z.of_nat page_num + 1);
                       Plumber.subsections :=
                         [ {| Plumber.sub_title := lit "Contenu";
                              Plumber.content :=
                                map Plumber.Paragraph (Plumber.paragraphs text) |} ] |} ])).
  { destruct text; simpl nonempty; cbv iota; [reflexivity|].
    apply (plumber_for_each Plumber.Paragraph). }
  rewrite E1. simpl.
  rewrite (plumber_for_enumerate _
             (fun k table => if Plumber.kept table
                             then Some (Plumber.table_item k (default [] table))
                             else None));
    [|intros k a s; destruct (Plumber.kept a); reflexivity].
  simpl.
  rewrite (plumber_for_enumerate _
             (fun k _ => Some (Plumber.image_item page_num k)));
    [|reflexivity].
  simpl. rewrite omap_id_imap_Some, <- app_assoc. reflexivity.
Qed.

Lemma plumber_pages (pgs : list Plumber.page) (i : nat)
    (secs : list Plumber.section) :
  for_enumerate Plumber.process_page i pgs secs
  = Ok (secs ++ imap (fun k p => Plumber.page_section (i + k) p) pgs).
Proof.
  revert i secs. induction pgs as [|p pgs IH]; intros i secs; simpl.
  - rewrite app_nil_r. reflexivity.
  - rewrite plumber_process_page. simpl. rewrite IH, <- app_assoc, Nat.add_0_r.
    simpl. f_equal. f_equal. f_equal. apply imap_ext. intros k x _. simpl. f_equal. lia.
Qed.

Lemma plumber_returned (now : str) (found : option Plumber.binding)
    (d : Plumber.pdf) (s : Plumber.structure) :
  Plumber._analyze_with_pdfplumber now found d = Plumber.Returned s ->
  Plumber._analyze_with_pdfplumber now (Some Plumber.TheLibrary) d
  = Plumber.Returned s.
Proof. destruct found as [[|]|]; [auto|discriminate|discriminate]. Qed.

Lemma plumber_sections (now : str) (found : option Plumber.binding)
    (d : Plumber.pdf) (s : Plumber.structure) :
  Plumber._analyze_with_pdfplumber now found d = Plumber.Returned s ->
  Plumber.doc_sections s = imap Plumber.page_section (Plumber.pdf_pages d).
Proof.
  intros E. apply plumber_returned in E. revert E.
  unfold Plumber._analyze_with_pdfplumber. rewrite plumber_pages.
  intros [= <-]. reflexivity.
Qed.

Lemma sample_pdf_analysis :
  Plumber._analyze_with_pdfplumber (lit "2024-01-01T00:00:00")
    (Some Plumber.TheLibrary) sample_pdf
  = Plumber.Returned sample_pdf_structure.
Proof. vm_compute. reflexivity. Qed.

(** With the library bound to the name [pdfplumber],
    [_analyze_with_pdfplumber] returns for every document, and its tree has
    one section per page, in page order: the section of page [i] (counted
    from 0) is titled "Page i+1" and has exactly one subsection, titled
    "Contenu", which holds the paragraphs of the page, then its tables,
    then its images; a page with no text, no table and no image still has
    its section, with an empty subsection.  With the source file itself
    bound to the name, as it is when the program runs under the name
    pdfplumber.py, the function raises [AttributeError] at
    [pdfplumber.open] for every document; with nothing to import it raises
    [ImportError]. *)
Theorem pdfplumber_page_sections (now : str) (d : Plumber.pdf) :
  (exists s,
     Plumber._analyze_with_pdfplumber now (Some Plumber.TheLibrary) d
     = Plumber.Returned s
     /\ Plumber.doc_sections s = imap Plumber.page_section (Plumber.pdf_pages d)
     /\ length (Plumber.doc_sections s) = length (Plumber.pdf_pages d))
  /\ Plumber._analyze_with_pdfplumber now (Some Plumber.TheFile) d
     = Plumber.AttributeError
  /\ Plumber._analyze_with_pdfplumber now None d = Plumber.ImportError.
Proof.
  split; [|split; reflexivity].
  unfold Plumber._analyze_with_pdfplumber. rewrite plumber_pages.
  eexists. split; [reflexivity|]. simpl. split; [reflexivity|].
  apply length_imap.
Qed.

Lemma plumber_paragraphs_trimmed (text : str) :
  Forall trimmed (Plumber.paragraphs text).
Proof.
  unfold Plumber.paragraphs.
  induction (split_pair 10 10 text) as [|p l IH]; simpl; [constructor|].
  destruct (nonempty (strip p)) eqn:E; [|exact IH].
  simpl. constructor; [|exact IH]. apply trimmed_strip, nonempty_true, E.
Qed.

Lemma plumber_paragraphs_of_page (page_num : nat) (p : Plumber.page) :
  Plumber.paragraphs_of (Plumber.page_content page_num p)
  = Plumber.paragraphs (default [] (Plumber.extract_text p)).
Proof.
  unfold Plumber.paragraphs_of, Plumber.page_content.
  rewrite !omap_app.
  assert (E1 : forall l, omap (fun c => match c with
                                        | Plumber.Paragraph t => Some t
                                        | _ => None
                                        end) (map Plumber.Paragraph l) = l).
  { induction l as [|x l IH]; simpl; [reflexivity|]. f_equal. exact IH. }
  assert (E2 : forall (l : list (option (list (list (option str)))))
                      (g : nat -> option (list (list (option str))) -> Plumber.content_item),
             omap (fun c => match c with
                            | Plumber.Paragraph t => Some t
                            | _ => None
                            end)
               (omap id (imap (fun k table =>
                                 if Plumber.kept table
                                 then Some (Plumber.Table
                                              match g k table with
                                              | Plumber.Table t => t
                                              | _ => {| Plumber.caption := [];
                                                        Plumber.headers := [];
                                                        Plumber.rows := [] |}
                                              end)
                                 else None) l)) = []).
  { induction l as [|x l IH]; intros g; simpl; [reflexivity|].
    destruct (Plumber.kept x); simpl; apply (IH (fun k => g (S k))). }
  assert (E3 : forall (l : list Plumber.image) (g : nat -> Plumber.image_data),
             omap (fun c => match c with
                            | Plumber.Paragraph t => Some t
                            | _ => None
                            end)
               (imap (fun k _ => Plumber.Image (g k)) l) = []).
  { induction l as [|x l IH]; intros g; simpl; [reflexivity|].
    apply (IH (fun k => g (S k))). }
  rewrite E1.
  rewrite (E2 _ (fun k table => Plumber.table_item k (default [] table))).
  unfold Plumber.image_item. rewrite (E3 _ (fun k => _)).
  rewrite !app_nil_r. reflexivity.
Qed.

(** Whenever [_analyze_with_pdfplumber] returns, every paragraph of its
    tree is a text that is not empty and has no white space at either end:
    the pieces between blank lines that hold only white space leave
    nothing. *)
Theorem pdfplumber_paragraphs_trimmed (now : str)
    (found : option Plumber.binding) (d : Plumber.pdf) (s : Plumber.structure) :
  Plumber._analyze_with_pdfplumber now found d = Plumber.Returned s ->
  Forall (fun sec =>
            Forall (fun sub =>
                      Forall trimmed (Plumber.paragraphs_of (Plumber.content sub)))
              (Plumber.subsections sec))
    (Plumber.doc_sections s).
Proof.
  intros E. rewrite (plumber_sections now found d s E).
  apply Forall_forall. intros sec Hsec.
  apply elem_of_lookup_imap in Hsec. destruct Hsec as (i & p & -> & _).
  simpl. constructor; [|constructor]. simpl.
  rewrite plumber_paragraphs_of_page. apply plumber_paragraphs_trimmed.
Qed.

Lemma pdfplumber_paragraphs_trimmed_witness :
  Plumber._analyze_with_pdfplumber (lit "2024-01-01T00:00:00")
    (Some Plumber.TheLibrary) sample_pdf
  = Plumber.Returned sample_pdf_structure
  /\ Forall (fun sec =>
               Forall (fun sub =>
                         Forall trimmed (Plumber.paragraphs_of (Plumber.content sub)))
                 (Plumber.subsections sec))
       (Plumber.doc_sections sample_pdf_structure).
Proof.
  split; [exact sample_pdf_analysis|].
  exact (pdfplumber_paragraphs_trimmed _ _ sample_pdf sample_pdf_structure
           sample_pdf_analysis).
Defined.

Lemma plumber_tables_of_page (page_num : nat) (p : Plumber.page) :
  Plumber.tables_of (Plumber.page_content page_num p)
  = omap id
      (imap (fun k table =>
               if Plumber.kept table
               then Some {| Plumber.caption :=
                              lit "Tableau " ++ str_of_Z (Z.of_nat k + 1);
                            Plumber.headers :=
                              match default [] table with
                              | row :: _ => row
                              | [] => []
                              end;
                            Plumber.rows :=
                              if 1 <? length (default [] table)
                              then drop 1 (default [] table) else [] |}
               else None)
         (Plumber.extract_tables p)).
Proof.
  unfold Plumber.tables_of, Plumber.page_content.
  rewrite !omap_app.
  assert (E1 : forall l, omap (fun c => match c with
                                        | Plumber.Table t => Some t
                                        | _ => None
                                        end) (map Plumber.Paragraph l) = []).
  { induction l as [|x l IH]; simpl; [reflexivity|exact IH]. }
  assert (E2 : forall (l : list (option (list (list (option str)))))
                      (g : nat -> option (list (list (option str))) -> Plumber.table_data),
             omap (fun c => match c with
                            | Plumber.Table t => Some t
                            | _ => None
                            end)
               (omap id (imap (fun k table =>
                                 if Plumber.kept table
                                 then Some (Plumber.Table (g k table))
                                 else None) l))
             = omap id (imap (fun k table =>
                                if Plumber.kept table then Some (g k table) else None) l)).
  { induction l as [|x l IH]; intros g; simpl; [reflexivity|].
    destruct (Plumber.kept x); simpl; [f_equal|]; apply (IH (fun k => g (S k))). }
  assert (E3 : forall (l : list Plumber.image) (g : nat -> Plumber.image_data),
             omap (fun c => match c with
                            | Plumber.Table t => Some t
                            | _ => None
                            end)
               (imap (fun k _ => Plumber.Image (g k)) l) = []).
  { induction l as [|x l IH]; intros g; simpl; [reflexivity|].
    apply (IH (fun k => g (S k))). }
  rewrite E1. unfold Plumber.table_item. rewrite (E2 _ (fun k table => _)).
  unfold Plumber.image_item. rewrite (E3 _ (fun k => _)).
  rewrite app_nil_r. reflexivity.
Qed.

Lemma length_omap_kept {A B} (cond : A -> bool) (l : list A) (g : nat -> A -> B) :
  length (omap id (imap (fun k a => if cond a then Some (g k a) else None) l))
  = length (List.filter cond l).
Proof.
  revert g. induction l as [|a l IH]; intros g; simpl; [reflexivity|].
  destruct (cond a); simpl; [f_equal|]; apply (IH (fun k => g (S k))).
Qed.

(** In the tree of [_analyze_with_pdfplumber], the table found at position
    [k] (counted from 0) among the tables of a page, when it has a row, is
    in the subsection of the page with the caption "Tableau k+1", its first
    row as headers and its other rows as rows, the cells as they are,
    [None] included.  A table without rows, or [None], leaves nothing, and
    the tables after it keep their numbers: the subsection holds as many
    tables as the page has tables with a row. *)
Theorem pdfplumber_table_numbering (now : str)
    (found : option Plumber.binding) (d : Plumber.pdf)
    (s : Plumber.structure) (page_num k : nat) (p : Plumber.page)
    (row : list (option str)) (rest : list (list (option str))) :
  Plumber._analyze_with_pdfplumber now found d = Plumber.Returned s ->
  Plumber.pdf_pages d !! page_num = Some p ->
  Plumber.extract_tables p !! k = Some (Some (row :: rest)) ->
  exists sec sub,
    Plumber.doc_sections s !! page_num = Some sec
    /\ Plumber.subsections sec = [sub]
    /\ {| Plumber.caption := lit "Tableau " ++ str_of_Z (Z.of_nat k + 1);
          Plumber.headers := row;
          Plumber.rows := rest |} ∈ Plumber.tables_of (Plumber.content sub)
    /\ length (Plumber.tables_of (Plumber.content sub))
       = length (List.filter Plumber.kept (Plumber.extract_tables p)).
Proof.
  intros E Hp Hk. rewrite (plumber_sections now found d s E).
  exists (Plumber.page_section page_num p). eexists.
  split; [rewrite list_lookup_imap, Hp; reflexivity|].
  split; [reflexivity|]. simpl. rewrite plumber_tables_of_page.
  split; [|apply length_omap_kept].
  apply list_elem_of_omap. eexists. split.
  - apply (elem_of_lookup_imap_2 _ _ _ k Hk).
  - simpl. f_equal. f_equal. destruct rest; reflexivity.
Qed.

Lemma pdfplumber_table_numbering_witness :
  (Plumber._analyze_with_pdfplumber (lit "2024-01-01T00:00:00")
     (Some Plumber.TheLibrary) sample_pdf
   = Plumber.Returned sample_pdf_structure
   /\ exists p, Plumber.pdf_pages sample_pdf !! 0 = Some p
        /\ Plumber.extract_tables p !! 2
           = Some (Some [ [Some (lit "h"); None]; [Some (lit "1"); Some (lit "2")] ]))
  /\ exists sec sub,
       Plumber.doc_sections sample_pdf_structure !! 0 = Some sec
       /\ Plumber.subsections sec = [sub]
       /\ {| Plumber.caption := lit "Tableau 3";
             Plumber.headers := [Some (lit "h"); None];
             Plumber.rows := [ [Some (lit "1"); Some (lit "2")] ] |}
          ∈ Plumber.tables_of (Plumber.content sub)
       /\ length (Plumber.tables_of (Plumber.content sub)) = 1.
Proof.
  split.
  - split; [exact sample_pdf_analysis|]. eexists. split; reflexivity.
  - exact (pdfplumber_table_numbering _ _ sample_pdf sample_pdf_structure 0 2 _ _ _
             sample_pdf_analysis eq_refl eq_refl).
Defined.

(** The title that [_analyze_with_pdfplumber] returns is the entry [Title]
    of the metadata of the document when there is one, whatever it is, the
    empty string included, and "Document PDF" otherwise.  The metadata of
    the structure have the keys [author] and [subject] exactly when the
    metadata of the document are not empty; each is then the entry of the
    document, or the empty string. *)
Theorem pdfplumber_title_and_metadata (now : str)
    (found : option Plumber.binding) (d : Plumber.pdf) (s : Plumber.structure) :
  Plumber._analyze_with_pdfplumber now found d = Plumber.Returned s ->
  Plumber.doc_title s
  = default (lit "Document PDF") (Plumber.pdf_metadata d !! lit "Title")
  /\ (Plumber.pdf_metadata d = ∅ ->
      Plumber.author (Plumber.doc_metadata s) = None
      /\ Plumber.subject (Plumber.doc_metadata s) = None)
  /\ (Plumber.pdf_metadata d <> ∅ ->
      Plumber.author (Plumber.doc_metadata s)
      = Some (default [] (Plumber.pdf_metadata d !! lit "Author"))
      /\ Plumber.subject (Plumber.doc_metadata s)
         = Some (default [] (Plumber.pdf_metadata d !! lit "Subject"))).
Proof.
  intros E0. apply plumber_returned in E0. revert E0.
  unfold Plumber._analyze_with_pdfplumber. rewrite plumber_pages.
  intros [= <-]. simpl.
  destruct (decide (Plumber.pdf_metadata d = ∅)) as [E|E].
  - rewrite bool_decide_true by exact E. simpl. rewrite E, lookup_empty.
    split; [reflexivity|]. split; [auto|]. congruence.
  - rewrite bool_decide_false by exact E. simpl.
    split; [reflexivity|]. split; [congruence|auto].
Qed.

Lemma pdfplumber_title_and_metadata_witness :
  Plumber._analyze_with_pdfplumber (lit "2024-01-01T00:00:00")
    (Some Plumber.TheLibrary) sample_pdf
  = Plumber.Returned sample_pdf_structure
  /\ Plumber.doc_title sample_pdf_structure
     = default (lit "Document PDF")
         (Plumber.pdf_metadata sample_pdf !! lit "Title").
Proof.
  split; [exact sample_pdf_analysis|].
  exact (proj1 (pdfplumber_title_and_metadata _ _ sample_pdf sample_pdf_structure
                  sample_pdf_analysis)).
Defined.

(** *** The persisted form of the pdfplumber structure *)

Lemma plumber_content_to_json_injective (c c' : Plumber.content_item) :
  Plumber.content_to_json c = Plumber.content_to_json c' -> c = c'.
Proof.
  destruct c as [t|[cap hs rs]|[ds p]], c' as [t'|[cap' hs' rs']|[ds' p']];
    simpl; intros E; try discriminate.
  - injection E as E. congruence.
  - injection E as E1 E2 E3.
    apply (map_injective json_opt _ _ json_opt_injective) in E2.
    apply (map_injective _ rs rs') in E3; [congruence|].
    intros r r' [= Er]. exact (map_injective json_opt _ _ json_opt_injective Er).
  - injection E as E1 E2. congruence.
Qed.

Lemma plumber_subsection_to_json_injective (s s' : Plumber.subsection) :
  Plumber.subsection_to_json s = Plumber.subsection_to_json s' -> s = s'.
Proof.
  destruct s as [t c], s' as [t' c']. unfold Plumber.subsection_to_json. simpl.
  intros [= E1 E2].
  apply (map_injective _ _ _ plumber_content_to_json_injective) in E2. congruence.
Qed.

Lemma plumber_section_to_json_injective (s s' : Plumber.section) :
  Plumber.section_to_json s = Plumber.section_to_json s' -> s = s'.
Proof.
  destruct s as [t c], s' as [t' c']. unfold Plumber.section_to_json. simpl.
  intros [= E1 E2].
  apply (map_injective _ _ _ plumber_subsection_to_json_injective) in E2. congruence.
Qed.

Lemma lit_author_subject : lit "author" <> lit "subject".
Proof. discriminate. Qed.

Lemma plumber_to_json_injective (s s' : Plumber.structure) :
  Plumber.to_json s = Plumber.to_json s' -> s = s'.
Proof.
  destruct s as [t [n d m a sb] secs], s' as [t' [n' d' m' a' sb'] secs'].
  unfold Plumber.to_json, Plumber.metadata_to_json. simpl.
  intros [= E1 E2 E3 E4 E5 E6].
  apply Nat2Z.inj in E2.
  apply (map_injective _ _ _ plumber_section_to_json_injective) in E6.
  assert (a = a' /\ sb = sb') as [-> ->].
  { destruct a, a', sb, sb'; simpl in E5; try discriminate;
      try (injection E5 as E5; split; congruence); split; reflexivity. }
  congruence.
Qed.

(** The text that [download_json] produces from a structure of the
    pdfplumber backend is read back by [json.loads] as the value the code
    built, and this value determines the structure: a cell that is [None]
    is read back as [None], not as an empty string, and the absence of the
    keys [author] and [subject] is kept. *)
Theorem pdfplumber_json_round_trip (data : Plumber.structure) :
  Json.loads (Plumber.download_json data) = Some (Plumber.to_json data)
  /\ (forall data' : Plumber.structure,
        Plumber.to_json data' = Plumber.to_json data -> data' = data).
Proof.
  split; [apply loads_dumps|]. intros data'. apply plumber_to_json_injective.
Qed.

(** ** The Docling pass *)

#[local] Arguments Docling.is_in : simpl never.

Lemma open_main_section_at_end (st : state) :
  refs_at_end st ->
  refs_at_end (Docling.open_main_section st)
  /\ is_Some (current_section (Docling.open_main_section st))
  /\ all_content (sections (Docling.open_main_section st))
     = all_content (sections st).
Proof.
  destruct st as [secs cs csub]. unfold Docling.open_main_section, refs_at_end.
  simpl. destruct cs as [i|]; simpl.
  - intros H. split; [exact H|]. split; [eauto|reflexivity].
  - intros [-> _]. split; [|split; [eauto|]].
    + split; [rewrite length_app; simpl; lia|exact I].
    + rewrite all_content_app, all_content_one. simpl. apply app_nil_r.
Qed.

Lemma docling_is_paragraph (it : Docling.item) :
  Docling.is_header it = false ->
  Docling.is_paragraph it
  = Docling.is_in (Docling.item_type it) ["paragraph"; "text"]%string.
Proof. unfold Docling.is_paragraph. intros ->. reflexivity. Qed.

(** One item, from a state whose references stand at the end: either the
    item is processed, the references still stand at the end and the tree
    has gained the content of the item; or the text of the item is read and
    the item has none. *)
Lemma process_item_at_end (it : Docling.item) (st : state) :
  refs_at_end st ->
  match Docling.process_item it st with
  | Docling.Done st' =>
      refs_at_end st'
      /\ all_content (sections st')
         = all_content (sections st) ++ option_list (Docling.item_content it)
      /\ (Docling.reads_text it = true -> is_Some (Docling.item_text it))
  | Docling.Fails c =>
      c = Docling.AttributeError
      /\ Docling.reads_text it = true
      /\ Docling.item_text it = None
  end.
Proof.
  intros H.
  unfold Docling.process_item, Docling.item_content, Docling.reads_text,
    Docling.is_paragraph.
  fold (Docling.is_header it).
  assert (Hadd : forall c,
    match Docling.lift (add_content_here c st) with
    | Docling.Done st' =>
        refs_at_end st'
        /\ all_content (sections st') = all_content (sections st) ++ [c]
    | Docling.Fails _ => False
    end).
  { intros c. destruct (add_content_here_at_end c st H) as (st' & -> & Hc & _ & Hr).
    simpl. auto. }
  destruct (Docling.is_header it) eqn:Eh; simpl.
  - unfold Docling.get_text.
    destruct (Docling._is_main_title it).
    + destruct (Docling.item_text it) as [t|]; simpl; [|auto].
      destruct (open_section_at_end t st) as [Hr Hc].
      split; [exact Hr|]. split; [|eauto].
      change (all_content (sections (open_section t st))
              = all_content (sections st) ++ []).
      rewrite Hc, app_nil_r. reflexivity.
    + destruct (Docling.item_text it) as [t|]; simpl; [|auto].
      destruct (open_main_section_at_end st H) as (Hr & Hs & Hc).
      destruct (open_subsection_at_end t _ Hr Hs) as (st' & -> & Hc' & _ & Hr').
      simpl. split; [exact Hr'|]. split; [|eauto].
      rewrite Hc', Hc, app_nil_r. reflexivity.
  - destruct (Docling.is_in (Docling.item_type it) ["paragraph"; "text"]%string).
    + unfold Docling.get_text.
      destruct (Docling.item_text it) as [t|]; simpl; [|auto].
      specialize (Hadd (Paragraph t)).
      destruct (Docling.lift _); [|contradiction]. destruct Hadd. eauto.
    + destruct (bool_decide _).
      { specialize (Hadd (Docling.table_content it)).
        destruct (Docling.lift _); [|contradiction].
        destruct Hadd. split; [assumption|]. split; [assumption|discriminate]. }
      destruct (Docling.is_in _ _).
      { specialize (Hadd (Docling.image_info it)).
        destruct (Docling.lift _); [|contradiction].
        destruct Hadd. split; [assumption|]. split; [assumption|discriminate]. }
      split; [exact H|]. split; [rewrite app_nil_r; reflexivity|discriminate].
Qed.

Lemma run_at_end (l : list Docling.item) (st : state) :
  refs_at_end st ->
  match Docling.run l st with
  | Docling.Done st' =>
      refs_at_end st'
      /\ all_content (sections st')
         = all_content (sections st) ++ omap Docling.item_content l
      /\ Forall (fun it => Docling.reads_text it = true ->
                           is_Some (Docling.item_text it)) l
  | Docling.Fails c =>
      c = Docling.AttributeError
      /\ Exists (fun it => Docling.reads_text it = true
                           /\ Docling.item_text it = None) l
  end.
Proof.
  revert st. induction l as [|it l IH]; intros st H; simpl.
  - split; [exact H|]. split; [rewrite app_nil_r; reflexivity|constructor].
  - pose proof (process_item_at_end it st H) as H1.
    destruct (Docling.process_item it st) as [st1|c]; simpl.
    + destruct H1 as (Hr & Hc & Ht). specialize (IH st1 Hr).
      destruct (Docling.run l st1) as [st'|c].
      * destruct IH as (Hr' & Hc' & Hl). split; [exact Hr'|].
        split; [|constructor; assumption].
        rewrite Hc', Hc, <- app_assoc. f_equal.
        destruct (Docling.item_content it); reflexivity.
      * destruct IH as [-> He]. split; [reflexivity|]. apply Exists_cons_tl, He.
    + destruct H1 as (-> & Hr & Ht). split; [reflexivity|].
      apply Exists_cons_hd. split; assumption.
Qed.

(** [_get_doc_title]: the text of the first item it looks for. *)
Lemma first_title_find (l : list Docling.item) :
  Docling.first_title l
  = match List.find Docling.is_title l with
    | Some it => Docling.get_text it
    | None => Docling.Done (lit "Document sans titre")
    end.
Proof.
  induction l as [|it l IH]; simpl; [reflexivity|].
  unfold Docling.is_title at 1. destruct (match Docling.item_label it with
                                          | Some _ => _ | None => _ end);
    [reflexivity|exact IH].
Qed.

(** *** The section titles *)

Lemma map_alter_same {A B} (g : A -> B) (f : A -> A) (i : nat) (l : list A) :
  (forall x, g (f x) = g x) -> map g (alter f i l) = map g l.
Proof.
  intros Hf. revert i. induction l as [|x l IH]; intros [|i]; simpl;
    try reflexivity.
  - rewrite Hf. reflexivity.
  - f_equal. apply IH.
Qed.

Lemma add_content_titles (c : content_item) (secs secs' : list section)
    (r1 : option nat) (r2 : option (nat * nat)) :
  _add_content c secs r1 r2 = Ok secs' ->
  map title secs'
  = map title secs
    ++ match r1, r2 with
       | None, None => if nonempty secs then [] else [lit "Contenu principal"]
       | _, _ => []
       end.
Proof.
  unfold _add_content. intros E. destruct r2 as [[i j]|].
  - destruct (secs !! i) as [sec|]; [|discriminate].
    destruct (subsections sec !! j); [|discriminate].
    injection E as <-. rewrite map_alter_same by reflexivity.
    destruct r1; rewrite app_nil_r; reflexivity.
  - destruct r1 as [i|].
    + destruct (secs !! i); [|discriminate]. injection E as <-.
      rewrite map_alter_same by reflexivity. rewrite app_nil_r. reflexivity.
    + destruct secs as [|s0 secs0]; simpl in E.
      * injection E as <-. reflexivity.
      * destruct (last (s0 :: secs0)) as [sec|]; [|discriminate].
        destruct (last (subsections sec)); [|discriminate].
        injection E as <-. unfold alter_last.
        rewrite map_alter_same by reflexivity. rewrite app_nil_r. reflexivity.
Qed.

Lemma add_content_here_titles (c : content_item) (st st' : state) :
  add_content_here c st = Ok st' ->
  map title (sections st')
  = map title (sections st)
    ++ match current_section st, current_subsection st with
       | None, None => if nonempty (sections st) then [] else [lit "Contenu principal"]
       | _, _ => []
       end
  /\ current_section st' = current_section st
  /\ current_subsection st' = current_subsection st.
Proof.
  unfold add_content_here.
  destruct (_add_content c _ _ _) as [secs|] eqn:E; simpl; [|discriminate].
  intros [= <-]. simpl. split; [exact (add_content_titles _ _ _ _ _ E)|auto].
Qed.

Lemma open_subsection_titles (t : str) (st st' : state) :
  open_subsection t st = Ok st' ->
  map title (sections st') = map title (sections st)
  /\ current_section st' = current_section st.
Proof.
  unfold open_subsection. destruct (current_section st) as [i|]; [|discriminate].
  destruct (sections st !! i); [|discriminate]. intros [= <-]. simpl.
  split; [apply map_alter_same; reflexivity|reflexivity].
Qed.

Lemma current_section_nonempty (st : state) :
  refs_at_end st -> is_Some (current_section st) -> nonempty (sections st) = true.
Proof.
  unfold refs_at_end. intros H [i E]. rewrite E in H. destruct H as [H _].
  destruct (sections st); [discriminate|reflexivity].
Qed.

Lemma bool_decide_is_Some {A} (x : A) : bool_decide (is_Some (Some x)) = true.
Proof. apply bool_decide_eq_true. eauto. Qed.

Lemma bool_decide_is_None {A} : bool_decide (is_Some (@None A)) = false.
Proof. apply bool_decide_eq_false. intros [x E]. discriminate. Qed.

(** The titles one item adds to the list of section titles. *)
Lemma process_item_titles (it : Docling.item) (st st' : state) :
  refs_at_end st ->
  Docling.process_item it st = Docling.Done st' ->
  forall l,
    map title (sections st)
    ++ Docling.new_titles (bool_decide (is_Some (current_section st)))
         (nonempty (sections st)) (it :: l)
    = map title (sections st')
      ++ Docling.new_titles (bool_decide (is_Some (current_section st')))
           (nonempty (sections st')) l.
Proof.
  intros H E l.
  assert (Hadd : forall c,
    Docling.lift (add_content_here c st) = Docling.Done st' ->
    map title (sections st)
    ++ (if bool_decide (is_Some (current_section st)) || nonempty (sections st)
        then [] else [lit "Contenu principal"])
    ++ Docling.new_titles (bool_decide (is_Some (current_section st))) true l
    = map title (sections st')
      ++ Docling.new_titles (bool_decide (is_Some (current_section st')))
           (nonempty (sections st')) l).
  { intros c Ec.
    destruct (add_content_here_at_end c st H) as (st1 & E1 & Hc & _ & _).
    rewrite E1 in Ec. injection Ec as ->.
    destruct (add_content_here_titles c st st' E1) as (Ht & Hs & _).
    assert (Hn : nonempty (sections st') = true).
    { destruct (sections st'); [|reflexivity].
      destruct (all_content (sections st)); discriminate. }
    rewrite Ht, Hs, Hn, <- app_assoc. f_equal. f_equal.
    unfold refs_at_end in H.
    destruct (current_section st) as [i|].
    - rewrite bool_decide_is_Some. reflexivity.
    - destruct H as [-> _]. rewrite bool_decide_is_None. reflexivity. }
  simpl. unfold Docling.process_item, Docling.item_content in *.
  fold (Docling.is_header it) in *.
  destruct (Docling.is_header it) eqn:Eh.
  - unfold Docling.get_text in E. destruct (Docling._is_main_title it).
    + destruct (Docling.item_text it) as [t|]; simpl in E; [|discriminate].
      injection E as <-. simpl.
      rewrite ?bool_decide_is_Some, nonempty_snoc, map_app, <- app_assoc.
      reflexivity.
    + destruct (Docling.item_text it) as [t|]; simpl in E; [|discriminate].
      destruct (open_main_section_at_end st H) as (Hr & Hs & _).
      destruct (open_subsection_at_end t _ Hr Hs) as (st1 & E1 & _ & _ & Hr1).
      rewrite E1 in E. injection E as ->.
      destruct (open_subsection_titles t _ _ E1) as (Ht & Hc).
      rewrite Ht, Hc.
      assert (Hb : bool_decide (is_Some (current_section (Docling.open_main_section st)))
                   = true) by (apply bool_decide_eq_true, Hs).
      rewrite Hb. rewrite (current_section_nonempty st') by (rewrite ?Hc; assumption).
      unfold Docling.open_main_section.
      destruct (current_section st) as [i|]; simpl.
      * rewrite ?bool_decide_is_Some. reflexivity.
      * rewrite ?bool_decide_is_None, map_app, <- app_assoc. reflexivity.
  - destruct (Docling.is_in (Docling.item_type it) ["paragraph"; "text"]%string).
    + unfold Docling.get_text in E.
      destruct (Docling.item_text it) as [t|]; simpl in E; [|discriminate].
      change (Paragraph <$> Some t) with (Some (Paragraph t)).
      rewrite bool_decide_is_Some. exact (Hadd _ E).
    + destruct (bool_decide (Docling.item_type it = lit "table")).
      { rewrite bool_decide_is_Some. exact (Hadd _ E). }
      destruct (Docling.is_in _ _).
      { rewrite bool_decide_is_Some. exact (Hadd _ E). }
      rewrite bool_decide_is_None. injection E as <-. reflexivity.
Qed.

Lemma run_titles (l : list Docling.item) (st st' : state) :
  refs_at_end st ->
  Docling.run l st = Docling.Done st' ->
  map title (sections st')
  = map title (sections st)
    ++ Docling.new_titles (bool_decide (is_Some (current_section st)))
         (nonempty (sections st)) l.
Proof.
  revert st. induction l as [|it l IH]; intros st H E.
  - injection E as <-. simpl. rewrite app_nil_r. reflexivity.
  - simpl in E.
    pose proof (process_item_at_end it st H) as H1.
    destruct (Docling.process_item it st) as [st1|c] eqn:E1; simpl in E;
      [|discriminate].
    destruct H1 as (Hr & _). rewrite (IH st1 Hr E).
    symmetry. exact (process_item_titles it st st1 H E1 l).
Qed.

(** The titles in closed form. *)
Lemma new_titles_current (l : list Docling.item) :
  Docling.new_titles true true l = Docling.main_titles l.
Proof.
  unfold Docling.main_titles.
  induction l as [|it l IH]; simpl; [reflexivity|].
  destruct (Docling.is_header it); simpl.
  - destruct (Docling._is_main_title it); [|exact IH].
    destruct (Docling.item_text it); simpl; rewrite IH; reflexivity.
  - destruct (bool_decide _); exact IH.
Qed.

Lemma new_titles_closed (l : list Docling.item) (has_section : bool) :
  Docling.new_titles false has_section l
  = (let '(pre, gs) := cut (fun it => if Docling.is_header it then Some it else None) l in
     (if negb has_section
         && existsb (fun it => bool_decide (is_Some (Docling.item_content it))) pre
      then [lit "Contenu principal"] else [])
     ++ match gs with
        | (h, _) :: _ =>
            if Docling._is_main_title h then [] else [lit "Section principale"]
        | [] => []
        end)
    ++ Docling.main_titles l.
Proof.
  revert has_section. induction l as [|it l IH]; intros has_section; simpl.
  - rewrite andb_false_r. reflexivity.
  - destruct (cut _ l) as [pre gs] eqn:Ec.
    unfold Docling.main_titles. simpl. fold (Docling.main_titles l).
    destruct (Docling.is_header it) eqn:Eh; simpl.
    + rewrite andb_false_r, new_titles_current. simpl.
      destruct (Docling._is_main_title it); simpl; [|reflexivity].
      destruct (Docling.item_text it); reflexivity.
    + destruct (bool_decide (is_Some (Docling.item_content it))); simpl.
      * rewrite (IH true). simpl. rewrite andb_true_r.
        destruct has_section; reflexivity.
      * rewrite (IH has_section). reflexivity.
Qed.

(** *** The Docling tree in closed form *)

Lemma cut_before_no_heading {A H} (h : A -> option H) (l : list A) :
  Forall (fun a => h a = None) (cut h l).1.
Proof.
  induction l as [|a l IH]; simpl; [constructor|].
  destruct (cut h l) as [pre gs]. destruct (h a) eqn:E; simpl; [constructor|].
  constructor; assumption.
Qed.

Lemma add_before_headings (cs : list content_item) (c : content_item) :
  add_content_here c (Docling.before_headings cs)
  = Ok (Docling.before_headings (cs ++ [c])).
Proof. destruct cs; reflexivity. Qed.

Lemma add_in_section (front : list section) (t : str) (cs : list content_item)
    (c : content_item) :
  add_content_here c (Docling.in_section front t cs)
  = Ok (Docling.in_section front t (cs ++ [c])).
Proof.
  unfold add_content_here, Docling.in_section, _add_content. simpl.
  rewrite lookup_snoc_at_length. simpl. rewrite alter_snoc_at_length.
  destruct cs; reflexivity.
Qed.

Lemma add_in_subsection (front : list section) (t : str) (subs : list subsection)
    (u : str) (cs : list content_item) (c : content_item) :
  add_content_here c (Docling.in_subsection front t subs u cs)
  = Ok (Docling.in_subsection front t subs u (cs ++ [c])).
Proof.
  unfold add_content_here, Docling.in_subsection, _add_content. simpl.
  rewrite lookup_snoc_at_length. simpl. rewrite lookup_snoc_at_length. simpl.
  rewrite alter_snoc_at_length. unfold with_subsections. simpl.
  rewrite alter_snoc_at_length. reflexivity.
Qed.

Lemma open_subsection_in_section (front : list section) (t : str)
    (cs : list content_item) (v : str) :
  open_subsection v (Docling.in_section front t cs)
  = Ok (Docling.in_subsection front t (Docling.holder "Contenu" cs) v []).
Proof.
  unfold open_subsection, Docling.in_section, Docling.in_subsection. simpl.
  rewrite lookup_snoc_at_length. simpl. rewrite alter_snoc_at_length. reflexivity.
Qed.

Lemma open_subsection_in_subsection (front : list section) (t : str)
    (subs : list subsection) (u : str) (cs : list content_item) (v : str) :
  open_subsection v (Docling.in_subsection front t subs u cs)
  = Ok (Docling.in_subsection front t
          (subs ++ [ {| sub_title := u; content := cs |} ]) v []).
Proof.
  unfold open_subsection, Docling.in_subsection. simpl.
  rewrite lookup_snoc_at_length. simpl. rewrite alter_snoc_at_length. reflexivity.
Qed.

Lemma open_main_before_headings (cs : list content_item) :
  Docling.open_main_section (Docling.before_headings cs)
  = Docling.in_section (Docling.orphans cs) (lit "Section principale") [].
Proof. reflexivity. Qed.

(** What the pass does with an item, by the kind of the item. *)
Lemma process_main_heading (it : Docling.item) (st st' : state) (t : str) :
  Docling.main_heading it = Some t ->
  Docling.process_item it st = Docling.Done st' ->
  st' = open_section t st.
Proof.
  unfold Docling.main_heading, Docling.process_item.
  fold (Docling.is_header it).
  destruct (Docling.is_header it); [|discriminate].
  destruct (Docling._is_main_title it); [|discriminate]. simpl.
  unfold Docling.get_text. destruct (Docling.item_text it); simpl; [|discriminate].
  intros [= <-] [= <-]. reflexivity.
Qed.

Lemma process_sub_heading (it : Docling.item) (st st' : state) (t : str) :
  Docling.sub_heading it = Some t ->
  Docling.process_item it st = Docling.Done st' ->
  open_subsection t (Docling.open_main_section st) = Ok st'.
Proof.
  unfold Docling.sub_heading, Docling.process_item.
  fold (Docling.is_header it).
  destruct (Docling.is_header it); [|discriminate].
  destruct (Docling._is_main_title it); [discriminate|]. simpl.
  unfold Docling.get_text. destruct (Docling.item_text it); simpl; [|discriminate].
  intros [= <-]. destruct (open_subsection _ _); simpl; [|discriminate].
  intros [= <-]. reflexivity.
Qed.

Lemma process_no_heading (it : Docling.item) (st st' : state) :
  Docling.main_heading it = None -> Docling.sub_heading it = None ->
  Docling.process_item it st = Docling.Done st' ->
  match Docling.item_content it with
  | Some c => add_content_here c st = Ok st'
  | None => st' = st
  end.
Proof.
  unfold Docling.main_heading, Docling.sub_heading, Docling.process_item,
    Docling.item_content.
  fold (Docling.is_header it).
  destruct (Docling.is_header it).
  { destruct (Docling._is_main_title it); discriminate. }
  intros _ _. simpl.
  assert (Hl : forall c, Docling.lift (add_content_here c st) = Docling.Done st' ->
                         add_content_here c st = Ok st').
  { intros c. destruct (add_content_here c st); simpl; [|discriminate].
    intros [= <-]. reflexivity. }
  destruct (Docling.is_in (Docling.item_type it) ["paragraph"; "text"]%string).
  { unfold Docling.get_text. destruct (Docling.item_text it); simpl; [|discriminate].
    apply Hl. }
  destruct (bool_decide _); [apply Hl|].
  destruct (Docling.is_in _ _); [apply Hl|]. intros [= <-]. reflexivity.
Qed.

Lemma heading_kinds (it : Docling.item) :
  Docling.main_heading it = None ->
  (exists t, Docling.sub_heading it = Some t /\ Docling.item_content it = None)
  \/ Docling.sub_heading it = None.
Proof.
  unfold Docling.main_heading, Docling.sub_heading, Docling.item_content.
  destruct (Docling.is_header it); simpl; [|auto].
  destruct (Docling._is_main_title it); simpl; [discriminate|]. eauto.
Qed.

Lemma contents_cons (it : Docling.item) (l : list Docling.item) :
  Docling.contents (it :: l)
  = option_list (Docling.item_content it) ++ Docling.contents l.
Proof. unfold Docling.contents. simpl. destruct (Docling.item_content it); reflexivity. Qed.

Lemma contents_nil : Docling.contents [] = [].
Proof. reflexivity. Qed.

#[local] Arguments Docling.contents : simpl never.

(** A run of items without main title, from a current subsection. *)
Lemma run_in_subsection (body : list Docling.item) (front : list section)
    (t : str) (subs : list subsection) (u : str) (cs : list content_item)
    (st' : state) :
  Forall (fun it => Docling.main_heading it = None) body ->
  Docling.run body (Docling.in_subsection front t subs u cs) = Docling.Done st' ->
  sections st'
  = front ++ [ {| title := t;
                  subsections :=
                    subs
                    ++ [ {| sub_title := u;
                            content :=
                              cs ++ Docling.contents (cut Docling.sub_heading body).1 |} ]
                    ++ map Docling.subsection_of (cut Docling.sub_heading body).2 |} ].
Proof.
  intros Hb. revert subs u cs.
  induction Hb as [|it body Hit Hb IH]; intros subs u cs E.
  - injection E as <-. simpl. rewrite contents_nil, !app_nil_r. reflexivity.
  - simpl in E. destruct (Docling.process_item it _) as [st1|] eqn:E1;
      simpl in E; [|discriminate].
    simpl. destruct (cut Docling.sub_heading body) as [pre0 gs0] eqn:Ec.
    destruct (heading_kinds it Hit) as [(v & Hv & _)|Hn].
    + rewrite Hv. simpl.
      pose proof (process_sub_heading it _ _ v Hv E1) as E2.
      change (Docling.open_main_section (Docling.in_subsection front t subs u cs))
        with (Docling.in_subsection front t subs u cs) in E2.
      rewrite open_subsection_in_subsection in E2. injection E2 as <-.
      rewrite (IH _ _ _ E). simpl. rewrite app_nil_r, <- !app_assoc. reflexivity.
    + rewrite Hn. simpl.
      pose proof (process_no_heading it _ _ Hit Hn E1) as E2.
      rewrite contents_cons.
      destruct (Docling.item_content it) as [c|]; simpl.
      * rewrite add_in_subsection in E2. injection E2 as <-.
        rewrite (IH _ _ _ E). simpl. rewrite <- !app_assoc. reflexivity.
      * subst st1. rewrite (IH _ _ _ E). reflexivity.
Qed.

(** The same from a section opened by a main title. *)
Lemma run_in_section (body : list Docling.item) (front : list section)
    (t : str) (cs : list content_item) (st' : state) :
  Forall (fun it => Docling.main_heading it = None) body ->
  Docling.run body (Docling.in_section front t cs) = Docling.Done st' ->
  sections st'
  = front ++ [ {| title := t;
                  subsections :=
                    Docling.holder "Contenu"
                      (cs ++ Docling.contents (cut Docling.sub_heading body).1)
                    ++ map Docling.subsection_of (cut Docling.sub_heading body).2 |} ].
Proof.
  intros Hb. revert cs.
  induction Hb as [|it body Hit Hb IH]; intros cs E.
  - injection E as <-. simpl. rewrite contents_nil, !app_nil_r. reflexivity.
  - simpl in E. destruct (Docling.process_item it _) as [st1|] eqn:E1;
      simpl in E; [|discriminate].
    simpl. destruct (cut Docling.sub_heading body) as [pre0 gs0] eqn:Ec.
    destruct (heading_kinds it Hit) as [(v & Hv & _)|Hn].
    + rewrite Hv. simpl.
      pose proof (process_sub_heading it _ _ v Hv E1) as E2.
      change (Docling.open_main_section (Docling.in_section front t cs))
        with (Docling.in_section front t cs) in E2.
      rewrite open_subsection_in_section in E2. injection E2 as <-.
      rewrite (run_in_subsection body _ _ _ _ _ _ Hb E), Ec. simpl.
      rewrite app_nil_r. reflexivity.
    + rewrite Hn. simpl.
      pose proof (process_no_heading it _ _ Hit Hn E1) as E2.
      rewrite contents_cons.
      destruct (Docling.item_content it) as [c|]; simpl.
      * rewrite add_in_section in E2. injection E2 as <-.
        rewrite (IH _ E). simpl. rewrite <- !app_assoc. reflexivity.
      * subst st1. rewrite (IH _ E). reflexivity.
Qed.

(** The same from the start, with no section current. *)
Lemma run_before_headings (body : list Docling.item) (cs : list content_item)
    (st' : state) :
  Forall (fun it => Docling.main_heading it = None) body ->
  Docling.run body (Docling.before_headings cs) = Docling.Done st' ->
  sections st'
  = Docling.orphans (cs ++ Docling.contents (cut Docling.sub_heading body).1)
    ++ Docling.main_section (cut Docling.sub_heading body).2.
Proof.
  intros Hb. revert cs.
  induction Hb as [|it body Hit Hb IH]; intros cs E.
  - injection E as <-. simpl. rewrite contents_nil, !app_nil_r. reflexivity.
  - simpl in E. destruct (Docling.process_item it _) as [st1|] eqn:E1;
      simpl in E; [|discriminate].
    simpl. destruct (cut Docling.sub_heading body) as [pre0 gs0] eqn:Ec.
    destruct (heading_kinds it Hit) as [(v & Hv & _)|Hn].
    + rewrite Hv. simpl.
      pose proof (process_sub_heading it _ _ v Hv E1) as E2.
      rewrite open_main_before_headings, open_subsection_in_section in E2.
      injection E2 as <-.
      rewrite (run_in_subsection body _ _ _ _ _ _ Hb E), Ec. simpl.
      rewrite app_nil_r. reflexivity.
    + rewrite Hn. simpl.
      pose proof (process_no_heading it _ _ Hit Hn E1) as E2.
      rewrite contents_cons.
      destruct (Docling.item_content it) as [c|]; simpl.
      * rewrite add_before_headings in E2. injection E2 as <-.
        rewrite (IH _ E). simpl. rewrite <- !app_assoc. reflexivity.
      * subst st1. rewrite (IH _ E). reflexivity.
Qed.

(** The whole list: what precedes the first main title is run from the
    state at hand, and each main title with what follows it makes a
    section. *)
Lemma run_sections (l : list Docling.item) (st st' : state) :
  Docling.run l st = Docling.Done st' ->
  exists st1,
    Docling.run (cut Docling.main_heading l).1 st = Docling.Done st1
    /\ sections st'
       = sections st1 ++ map Docling.section_of (cut Docling.main_heading l).2.
Proof.
  revert st. induction l as [|it l IH]; intros st E.
  - exists st. simpl in *. injection E as <-. rewrite app_nil_r. auto.
  - simpl in E. destruct (Docling.process_item it st) as [st2|] eqn:E2;
      simpl in E; [|discriminate].
    destruct (IH st2 E) as (st1 & E1 & Hs). simpl.
    pose proof (cut_before_no_heading Docling.main_heading l) as Hpre.
    destruct (cut Docling.main_heading l) as [pre gs]. simpl in *.
    destruct (Docling.main_heading it) as [t|] eqn:Eh; simpl.
    + exists st. split; [reflexivity|].
      rewrite (process_main_heading it st st2 t Eh E2) in E1.
      change (open_section t st) with (Docling.in_section (sections st) t []) in E1.
      rewrite Hs, (run_in_section pre _ _ _ _ Hpre E1). simpl.
      rewrite <- app_assoc. simpl. f_equal. f_equal.
      unfold Docling.section_of, Docling.expected_subsections. simpl.
      destruct (cut Docling.sub_heading pre). reflexivity.
    + exists st1. rewrite E2. simpl. auto.
Qed.

Lemma sample_doc_analysis :
  Docling._analyze_with_docling (lit "2024-01-01T00:00:00") sample_doc
  = Docling.Done sample_doc_structure.
Proof. vm_compute. reflexivity. Qed.

Lemma docling_analysis_parts (now : str) (d : Docling.doc) (s : Docling.structure) :
  Docling._analyze_with_docling now d = Docling.Done s ->
  exists t st,
    Docling.first_title (Docling.items d) = Docling.Done t
    /\ Docling.run (Docling.items d) initial = Docling.Done st
    /\ Docling.doc_title s = t
    /\ Docling.doc_sections s = sections st.
Proof.
  unfold Docling._analyze_with_docling, Docling._get_doc_title.
  destruct (Docling.first_title _) as [t|]; simpl; [|discriminate].
  destruct (Docling.run _ initial) as [st|]; simpl; [|discriminate].
  intros [= <-]. exists t, st. auto.
Qed.

(** [_analyze_with_docling] never fails on an exception of [_add_content]:
    whatever the items are, the references it passes are in the tree and
    the fallback of [_add_content] finds a section with a subsection.  It
    returns exactly when the texts it reads are there: the text of the
    first item labelled "title" or "document_title", if there is such an
    item, and the text of every heading and paragraph. *)
Theorem docling_fails_only_on_missing_text (now : str) (d : Docling.doc) :
  (forall e, Docling._analyze_with_docling now d <> Docling.Fails (Docling.Inner e))
  /\ ((exists s, Docling._analyze_with_docling now d = Docling.Done s)
      <-> match List.find Docling.is_title (Docling.items d) with
          | Some it => is_Some (Docling.item_text it)
          | None => True
          end
          /\ Forall (fun it => Docling.reads_text it = true ->
                               is_Some (Docling.item_text it)) (Docling.items d)).
Proof.
  unfold Docling._analyze_with_docling, Docling._get_doc_title.
  rewrite first_title_find.
  pose proof (run_at_end (Docling.items d) initial refs_at_end_initial) as Hrun.
  destruct (Docling.run (Docling.items d) initial) as [st|c].
  - destruct Hrun as (_ & _ & Hall).
    destruct (List.find Docling.is_title (Docling.items d)) as [it|]; simpl.
    + unfold Docling.get_text. destruct (Docling.item_text it) as [t|]; simpl.
      * split; [discriminate|]. split; [eauto|]. intros _. eauto.
      * split; [discriminate|]. split.
        -- intros [s Hs]. discriminate.
        -- intros [[t Ht] _]. discriminate.
    + split; [discriminate|]. split; [auto|]. intros _. eauto.
  - destruct Hrun as [-> Hex].
    assert (Hno : ~ Forall (fun it => Docling.reads_text it = true ->
                                      is_Some (Docling.item_text it))
                     (Docling.items d)).
    { intros Hall. apply Exists_exists in Hex. destruct Hex as (it & Hin & Hr & Ht).
      rewrite Forall_forall in Hall. destruct (Hall it Hin Hr) as [t Ht'].
      congruence. }
    destruct (List.find Docling.is_title (Docling.items d)) as [it|]; simpl.
    + unfold Docling.get_text. destruct (Docling.item_text it) as [t|]; simpl.
      * split; [discriminate|]. split; [intros [s Hs]; discriminate|tauto].
      * split; [discriminate|]. split; [intros [s Hs]; discriminate|tauto].
    + split; [discriminate|]. split; [intros [s Hs]; discriminate|tauto].
Qed.

(** Whenever [_analyze_with_docling] returns, the content items of its
    tree, read section by section and subsection by subsection, are the
    paragraphs, tables and figures of the document, one for each such item
    and in the order of the items.  A heading is none of them: unlike the
    PyMuPDF pass, this pass never stores a heading as a paragraph.  A
    paragraph is stored as it is, empty or with white space around it. *)
Theorem docling_content_kept_in_order (now : str) (d : Docling.doc)
    (s : Docling.structure) :
  Docling._analyze_with_docling now d = Docling.Done s ->
  all_content (Docling.doc_sections s)
  = omap Docling.item_content (Docling.items d).
Proof.
  intros E. destruct (docling_analysis_parts now d s E) as (t & st & _ & Er & _ & ->).
  pose proof (run_at_end (Docling.items d) initial refs_at_end_initial) as Hrun.
  rewrite Er in Hrun. destruct Hrun as (_ & Hc & _). exact Hc.
Qed.

Lemma docling_content_kept_in_order_witness :
  Docling._analyze_with_docling (lit "2024-01-01T00:00:00") sample_doc
  = Docling.Done sample_doc_structure
  /\ all_content (Docling.doc_sections sample_doc_structure)
     = omap Docling.item_content (Docling.items sample_doc).
Proof.
  split; [exact sample_doc_analysis|].
  exact (docling_content_kept_in_order _ sample_doc sample_doc_structure
           sample_doc_analysis).
Defined.

(** Whenever [_analyze_with_docling] returns, the titles of its sections
    are, in order: "Contenu principal" when a paragraph, table or figure
    precedes the first heading; "Section principale" when the first heading
    is no main title; and then the text of each main title.  So every
    heading that is no main title has a section to open its subsection
    in. *)
Theorem docling_section_titles (now : str) (d : Docling.doc)
    (s : Docling.structure) :
  Docling._analyze_with_docling now d = Docling.Done s ->
  map title (Docling.doc_sections s) = Docling.expected_titles (Docling.items d).
Proof.
  intros E. destruct (docling_analysis_parts now d s E) as (t & st & _ & Er & _ & ->).
  rewrite (run_titles _ initial st refs_at_end_initial Er). simpl.
  rewrite ?bool_decide_is_None, new_titles_closed.
  unfold Docling.expected_titles.
  destruct (cut _ (Docling.items d)) as [pre gs]. simpl.
  rewrite <- app_assoc. reflexivity.
Qed.

Lemma docling_section_titles_witness :
  Docling._analyze_with_docling (lit "2024-01-01T00:00:00") sample_doc
  = Docling.Done sample_doc_structure
  /\ map title (Docling.doc_sections sample_doc_structure)
     = [lit "Contenu principal"; lit "Section principale"; lit "Main"].
Proof.
  split; [exact sample_doc_analysis|].
  exact (docling_section_titles _ sample_doc sample_doc_structure
           sample_doc_analysis).
Defined.

(** Whenever [_analyze_with_docling] returns, the title of the structure is
    the text of the first item labelled "title" or "document_title", in the
    order of the items, and "Document sans titre" when no item has such a
    label. *)
Theorem docling_title (now : str) (d : Docling.doc) (s : Docling.structure) :
  Docling._analyze_with_docling now d = Docling.Done s ->
  match List.find Docling.is_title (Docling.items d) with
  | Some it => Docling.item_text it = Some (Docling.doc_title s)
  | None => Docling.doc_title s = lit "Document sans titre"
  end.
Proof.
  intros E. destruct (docling_analysis_parts now d s E) as (t & st & Et & _ & -> & _).
  rewrite first_title_find in Et.
  destruct (List.find Docling.is_title (Docling.items d)) as [it|].
  - unfold Docling.get_text in Et. destruct (Docling.item_text it); congruence.
  - congruence.
Qed.

Lemma docling_title_witness :
  Docling._analyze_with_docling (lit "2024-01-01T00:00:00") sample_doc
  = Docling.Done sample_doc_structure
  /\ match List.find Docling.is_title (Docling.items sample_doc) with
     | Some it => Docling.item_text it = Some (Docling.doc_title sample_doc_structure)
     | None => Docling.doc_title sample_doc_structure = lit "Document sans titre"
     end.
Proof.
  split; [exact sample_doc_analysis|].
  exact (docling_title _ sample_doc sample_doc_structure sample_doc_analysis).
Defined.

(** The tree that [_analyze_with_docling] returns is the one read off the
    items.  The items are cut at the main titles (the headings of level 1):
    each main title makes a section of what follows it up to the next one,
    in which each other heading makes a subsection of the paragraphs,
    tables and figures that follow it, and what precedes the first such
    heading goes to a subsection "Contenu".  What precedes the first main
    title makes up to two sections: "Contenu principal", with one
    subsection "Introduction", for the content that precedes every
    heading, and "Section principale" for the headings that precede every
    main title, each with its content. *)
Theorem docling_builds_expected_tree (now : str) (d : Docling.doc)
    (s : Docling.structure) :
  Docling._analyze_with_docling now d = Docling.Done s ->
  Docling.doc_sections s = Docling.expected_sections (Docling.items d).
Proof.
  intros E. destruct (docling_analysis_parts now d s E) as (t & st & _ & Er & _ & ->).
  destruct (run_sections _ _ _ Er) as (st1 & E1 & ->).
  pose proof (cut_before_no_heading Docling.main_heading (Docling.items d)) as Hpre.
  unfold Docling.expected_sections.
  destruct (cut Docling.main_heading (Docling.items d)) as [pre gs]. simpl in *.
  change initial with (Docling.before_headings []) in E1.
  rewrite (run_before_headings pre [] st1 Hpre E1). simpl.
  destruct (cut Docling.sub_heading pre) as [pre0 gs0]. simpl.
  rewrite <- app_assoc. reflexivity.
Qed.

Lemma docling_builds_expected_tree_witness :
  Docling._analyze_with_docling (lit "2024-01-01T00:00:00") sample_doc
  = Docling.Done sample_doc_structure
  /\ Docling.doc_sections sample_doc_structure
     = Docling.expected_sections (Docling.items sample_doc).
Proof.
  split; [exact sample_doc_analysis|].
  exact (docling_builds_expected_tree _ sample_doc sample_doc_structure
           sample_doc_analysis).
Defined.

(** ** The analyzer *)

(** When [import pdfplumber] finds the source file itself, as it does when
    the program runs under the name pdfplumber.py, the entry of pdfplumber
    in [LIBRARIES_STATUS] is [True] whatever is installed.  So the guard of
    [main] always passes, the analysis never raises the exception of a
    missing library and never reaches the Docling backend; and without
    PyMuPDF it takes the pdfplumber backend, which raises [AttributeError]
    at [pdfplumber.open], whatever the file is. *)
Theorem own_name_shadows_pdfplumber (found : imports) (converter_built : bool)
    (now : str) (f : pdf_file) :
  pdfplumber_import found = Some Plumber.TheFile ->
  any_library (LIBRARIES_STATUS found) = true
  /\ main_analysis found converter_built now f <> NoLibrary
  /\ (forall r, main_analysis found converter_built now f <> ByDocling r)
  /\ (fitz_import found = false ->
      main_analysis found converter_built now f
      = ByPdfplumber Plumber.AttributeError)
  /\ (fitz_import found = true ->
      main_analysis found converter_built now f
      = ByPymupdf (_analyze_with_pymupdf now (read_by_fitz f))).
Proof.
  destruct found as [mu pl dl]. simpl. intros ->.
  unfold main_analysis, analyze_pdf, __init__, any_library, LIBRARIES_STATUS. simpl.
  destruct mu; simpl.
  - rewrite orb_true_r. repeat split; discriminate.
  - rewrite orb_true_r. repeat split; discriminate.
Qed.

Lemma own_name_shadows_pdfplumber_witness :
  let found := {| fitz_import := false;
                  pdfplumber_import := Some Plumber.TheFile;
                  docling_import := true |} in
  pdfplumber_import found = Some Plumber.TheFile
  /\ main_analysis found true [] sample_file = ByPdfplumber Plumber.AttributeError.
Proof.
  intros found. split; [reflexivity|].
  exact (proj1 (proj2 (proj2 (proj2
           (own_name_shadows_pdfplumber found true [] sample_file eq_refl))))
           eq_refl).
Defined.
